(** * gcstoragenlyzer: the access-classification engine of [analyzer.py]

    A shallow embedding of [GCSAnalyzer] (src/gcstoragenlyzer/analyzer.py):
    the IAM condition parser, the classifier, the two tree builders, the
    whole-bucket scans, their entry point [scan_bucket], [list_objects],
    [scan_old_objects] and the sensitive-data scan of one object, with the
    validators of [sensitive_patterns.py].

    Conventions of the embedding.
    - A Python [str] is a [string]; a character is a code point below 256,
      so [length], slicing and the order of [sorted] are those of Python on
      such strings.
    - A Python [int] is a [Z]; a [dict] used as a map is a [gmap]; a [dict]
      used as a record is a [Record].
    - The Google Cloud client, [requests] and the other collaborators are a
      [Gateway] of oracles.  Every oracle receives the trace of the external
      calls made so far, so that a collaborator may answer the same question
      differently at different times.
    - Effects are threaded by the monad [M]: the state is the trace of
      external calls, the result is a value, a raised exception, or
      [OutOfFuel] for a recursion that needs more depth than the fuel given.
      Console output ([click.echo], logging) is not modelled.
    - The sensitive-data scan catches every exception and returns a list;
      it is a function of its collaborators, a [PatternEnv].
    - The scan for old objects makes one listing; it is a function of the
      clock and of that listing. *)

From stdpp Require Import gmap strings list sorting.
From Stdlib Require Import ZArith Ascii String DecimalString.

#[local] Set Warnings "-register-all".

Local Open Scope string_scope.
Local Open Scope list_scope.
Local Open Scope Z_scope.

(** ** Python string operations *)

Module PyStr.

(** [len(s)] *)
Definition len (s : string) : Z := Z.of_nat (String.length s).

(** [s.rstrip(c)] for a one-character argument. *)
Fixpoint rstrip (c : ascii) (s : string) : string :=
  match s with
  | EmptyString => EmptyString
  | String a s' =>
      match rstrip c s' with
      | EmptyString => if Ascii.eqb a c then EmptyString else String a EmptyString
      | r => String a r
      end
  end.

(** [s.startswith(p)] *)
Fixpoint startswith (s p : string) : bool :=
  match p with
  | EmptyString => true
  | String b p' =>
      match s with
      | EmptyString => false
      | String a s' => Ascii.eqb a b && startswith s' p'
      end
  end.

(** [s.endswith(c)] for a one-character argument. *)
Fixpoint endswith (s : string) (c : ascii) : bool :=
  match s with
  | EmptyString => false
  | String a EmptyString => Ascii.eqb a c
  | String _ s' => endswith s' c
  end.

(** [s[n:]] for [n >= 0] *)
Fixpoint drop (n : nat) (s : string) : string :=
  match n with
  | O => s
  | S n' => match s with EmptyString => EmptyString | String _ s' => drop n' s' end
  end.

(** [s[:n]] for [n >= 0] *)
Fixpoint take (n : nat) (s : string) : string :=
  match n with
  | O => EmptyString
  | S n' => match s with EmptyString => EmptyString | String a s' => String a (take n' s') end
  end.

(** [s[-n:]] for [n > 0]: the last [n] characters, the whole string when it
    is shorter. *)
Definition last_n (n : nat) (s : string) : string :=
  drop (String.length s - n) s.

(** [sub in s] *)
Fixpoint contains (sub s : string) : bool :=
  startswith s sub ||
  match s with
  | EmptyString => false
  | String _ s' => contains sub s'
  end.

(** [s.split(c)[-1]]: what follows the last occurrence of [c]. *)
Fixpoint last_segment (c : ascii) (s : string) : string :=
  match s with
  | EmptyString => EmptyString
  | String a s' =>
      if contains (String c EmptyString) s' then last_segment c s'
      else if Ascii.eqb a c then s' else s
  end.

(** [s.replace(old, '')] for a non-empty [old]: the occurrences are removed
    from left to right, without overlap.  The fuel is the length of [s]. *)
Fixpoint remove_all_aux (fuel : nat) (old s : string) : string :=
  match fuel with
  | O => s
  | S fuel' =>
      match s with
      | EmptyString => EmptyString
      | String a s' =>
          if startswith s old
          then remove_all_aux fuel' old (drop (String.length old) s)
          else String a (remove_all_aux fuel' old s')
      end
  end.

Definition remove_all (old s : string) : string :=
  remove_all_aux (String.length s) old s.

(** [str(n)] for an [int] *)
Definition of_int (n : Z) : string :=
  NilZero.string_of_int (Z.to_int n).

(** [sorted(l)] on a list of [str]: the order of [<=] on [str] is the
    lexicographic order on code points, [String.le]. *)
Definition sorted (l : list string) : list string := merge_sort String.le l.

(** [c.isspace()] for a code point below 256. *)
Definition isspace (c : ascii) : bool :=
  let n := N_of_ascii c in
  ((9 <=? n) && (n <=? 13) || (28 <=? n) && (n <=? 32) || (n =? 133) || (n =? 160))%N.

Fixpoint lstrip (s : string) : string :=
  match s with
  | EmptyString => EmptyString
  | String a s' => if isspace a then lstrip s' else s
  end.

Fixpoint rstrip_space (s : string) : string :=
  match s with
  | EmptyString => EmptyString
  | String a s' =>
      match rstrip_space s' with
      | EmptyString => if isspace a then EmptyString else String a EmptyString
      | r => String a r
      end
  end.

(** [s.strip()] *)
Definition strip (s : string) : string := rstrip_space (lstrip s).

(** [c.lower()] for a code point below 256. *)
Definition lower_char (c : ascii) : ascii :=
  let n := N_of_ascii c in
  if ((65 <=? n) && (n <=? 90) || (192 <=? n) && (n <=? 222) && negb (n =? 215))%N
  then ascii_of_N (n + 32) else c.

Fixpoint lower (s : string) : string :=
  match s with
  | EmptyString => EmptyString
  | String a s' => String (lower_char a) (lower s')
  end.

(** The second component of [os.path.splitext(p)] with [/] as separator:
    the text from the last dot of the last component, when a character that
    is not a dot comes before it in that component. *)
Definition splitext_ext (p : string) : string :=
  let base := last_segment "/" p in
  if contains "." base then
    let ext := "." +:+ last_segment "." base in
    let stem := take (String.length base - String.length ext) base in
    if forallb (fun c => Ascii.eqb c ".") (list_ascii_of_string stem)
    then EmptyString else ext
  else EmptyString.

Definition mem (s : string) (l : list string) : bool := existsb (String.eqb s) l.

End PyStr.

(** ** Exceptions, external calls and the monad of scans *)

(** The exceptions the analyzer handles or raises.  [OtherException] is any
    other subclass of [Exception]; the string is [str(e)]. *)
Inductive PyExc : Type :=
  | NotFound (msg : string)
  | Forbidden (msg : string)
  | OtherException (msg : string)
  | ValueError (msg : string)
  | PermissionError (msg : string).

Definition exc_str (e : PyExc) : string :=
  match e with
  | NotFound m | Forbidden m | OtherException m | ValueError m | PermissionError m => m
  end.

(** One call to a collaborator. *)
Inductive Event : Type :=
  | EvReload (bucket_name : string)
  | EvGetIamPolicy (bucket_name : string)
  | EvListBlobs (bucket_name prefix : string)
  | EvHead (url : string) (timeout : Z)
  | EvAclAll (bucket_name object_name : string).

Abbreviation Trace := (list Event).

Definition is_head (e : Event) : bool :=
  match e with EvHead _ _ => true | _ => false end.

Definition is_list_blobs (e : Event) : bool :=
  match e with EvListBlobs _ _ => true | _ => false end.

(** What [requests.head] does: a response with its status code, a
    [requests.RequestException] (connection failure, timeout, ...), or an
    exception of another class. *)
Inductive HeadOutcome : Type :=
  | HeadResponse (status_code : Z)
  | HeadRequestException
  | HeadOtherError (e : PyExc).

(** One binding of an IAM policy.  [condition = None] stands for a binding
    whose condition is absent or falsy; [Some e] for a condition whose
    expression ([''] when it carries none) is [e]. *)
Record Binding : Type := mkBinding {
  members : list string;
  role : string;
  condition : option string;
}.

(** One entry yielded by the iteration over an object's ACL. *)
Record AclEntry : Type := mkAclEntry {
  acl_entity : string;
  acl_role : string;
}.

(** What reading [bucket.iam_configuration.uniform_bucket_level_access_enabled]
    gives after [bucket.reload()]: its truth value, or an [AttributeError]. *)
Inductive UblaRead : Type :=
  | UblaValue (enabled : bool)
  | UblaAttributeError (msg : string).

(** The collaborators.
    - [gw_reload]: [bucket.reload()], then the read of the access mode.
    - [gw_list_blobs]: the names of the blobs and the prefixes of
      [client.list_blobs(bucket, prefix=prefix, delimiter='/')], in the order
      the iteration gives them.
    - [gw_acl_all]: the entries of the ACL of the blob, as the call
      [blob.acl.all()] loads them; none when the load raises. *)
Record Gateway : Type := mkGateway {
  gw_reload : Trace -> string -> PyExc + UblaRead;
  gw_get_iam_policy : Trace -> string -> PyExc + list Binding;
  gw_list_blobs : Trace -> string -> string -> PyExc + (list string * list string);
  gw_head : Trace -> string -> HeadOutcome;
  gw_acl_all : Trace -> string -> string -> list AclEntry;
}.

Inductive Outcome (A : Type) : Type :=
  | Ret (a : A)
  | Raise (e : PyExc)
  | OutOfFuel.

Arguments Ret {A} a.
Arguments Raise {A} e.
Arguments OutOfFuel {A}.

Definition M (A : Type) : Type := Trace -> Outcome A * Trace.

Definition ret {A} (a : A) : M A := fun tr => (Ret a, tr).

Definition raise {A} (e : PyExc) : M A := fun tr => (Raise e, tr).

Definition out_of_fuel {A} : M A := fun tr => (OutOfFuel, tr).

Definition bind {A B} (m : M A) (k : A -> M B) : M B :=
  fun tr =>
    match m tr with
    | (Ret a, tr') => k a tr'
    | (Raise e, tr') => (Raise e, tr')
    | (OutOfFuel, tr') => (OutOfFuel, tr')
    end.

(** [try: m  except Exception as e: h e] *)
Definition try_except {A} (m : M A) (h : PyExc -> M A) : M A :=
  fun tr =>
    match m tr with
    | (Raise e, tr') => h e tr'
    | r => r
    end.

(** A call to a collaborator: the oracle is asked at the current trace and
    the call is recorded. *)
Definition call {A} (ev : Event) (answer : Trace -> A) : M A :=
  fun tr => (Ret (answer tr), tr ++ [ev]).

Declare Scope scan_scope.
Delimit Scope scan_scope with scan.
Notation "x <-- m ;; k" := (bind m (fun x => k))
  (at level 100, m at next level, right associativity) : scan_scope.
Local Open Scope scan_scope.

(** [for x in l: acc = body acc x] *)
Fixpoint for_each {A B} (l : list A) (body : B -> A -> M B) (acc : B) : M B :=
  match l with
  | [] => ret acc
  | x :: l' => acc' <-- body acc x ;; for_each l' body acc'
  end.

(** ** The two regular expressions of [_extract_prefix_from_condition]

    Both have the shape: a sequence of one-character atoms, a group of one
    or more characters that are not quotes (single or double), a quote and
    a closing parenthesis.  [search] is [re.search] for that shape: the
    leftmost start, the group greedy with backtracking.  The bucket name is
    interpolated into the pattern as it is; the model reads each of its
    characters as the pattern Python compiles it to when the name is over
    the alphabet of bucket names ([gcs_bucket_name]): a dot matches any
    character but a newline, any other character itself. *)

Module Re.

Inductive atom : Type :=
  | Lit (c : ascii)
  | AnyButNewline
  | Quote.

Definition is_quote (c : ascii) : bool :=
  Ascii.eqb c "034" || Ascii.eqb c "'".

Definition atom_matches (a : atom) (c : ascii) : bool :=
  match a with
  | Lit x => Ascii.eqb c x
  | AnyButNewline => negb (Ascii.eqb c "010")
  | Quote => is_quote c
  end.

(** The atoms matched at the head of [s]; the result is what follows. *)
Fixpoint match_atoms (p : list atom) (s : string) : option string :=
  match p with
  | [] => Some s
  | a :: p' =>
      match s with
      | EmptyString => None
      | String c s' => if atom_matches a c then match_atoms p' s' else None
      end
  end.

(** Any number of characters that are not quotes, then [suffix], the
    longest repetition first; the result is the text of the repetition. *)
Fixpoint group_greedy (suffix : list atom) (s : string) : option string :=
  let stop := match match_atoms suffix s with Some _ => Some EmptyString | None => None end in
  match s with
  | EmptyString => stop
  | String c s' =>
      if is_quote c then stop
      else match group_greedy suffix s' with
           | Some g => Some (String c g)
           | None => stop
           end
  end.

(** A match that starts at the head of [s]; the result is group 1. *)
Definition match_here (pre suffix : list atom) (s : string) : option string :=
  match match_atoms pre s with
  | Some (String c r) =>
      if is_quote c then None
      else match group_greedy suffix r with
           | Some g => Some (String c g)
           | None => None
           end
  | _ => None
  end.

(** [re.search(pattern, s)]: group 1 of the leftmost match. *)
Fixpoint search (pre suffix : list atom) (s : string) : option string :=
  match match_here pre suffix s with
  | Some g => Some g
  | None =>
      match s with
      | EmptyString => None
      | String _ s' => search pre suffix s'
      end
  end.

Definition lits (s : string) : list atom := map Lit (list_ascii_of_string s).

Definition interpolated (bucket_name : string) : list atom :=
  map (fun c => if Ascii.eqb c "." then AnyButNewline else Lit c)
      (list_ascii_of_string bucket_name).

(** The pattern up to its group: resource.name.<predicate>, an opening
    parenthesis, a quote, projects/_/buckets/<bucket_name>/objects/ *)
Definition head_atoms (predicate bucket_name : string) : list atom :=
  lits ("resource.name." +:+ predicate +:+ "(") ++ [Quote] ++
  lits "projects/_/buckets/" ++ interpolated bucket_name ++ lits "/objects/".

(** The pattern after its group: a quote and a closing parenthesis. *)
Definition tail_atoms : list atom := [Quote; Lit ")"].

End Re.

(** The characters of a bucket name: lowercase letters, digits, dashes,
    underscores and dots. *)
Definition bucket_name_char (c : ascii) : bool :=
  let n := N_of_ascii c in
  ((97 <=? n) && (n <=? 122) || (48 <=? n) && (n <=? 57) ||
   Ascii.eqb c "-" || Ascii.eqb c "_" || Ascii.eqb c ".")%N.

Definition gcs_bucket_name (bucket_name : string) : bool :=
  forallb bucket_name_char (list_ascii_of_string bucket_name).

(** ** IAM exposure *)

(** An entry of the ExposureMap. *)
Record ExposureBinding : Type := mkExposureBinding {
  eb_role : string;
  eb_members : list string;
  eb_condition : string;
  eb_is_recursive : bool;
}.

Abbreviation ExposureMap := (gmap string (list ExposureBinding)).

Definition is_public_principal (m : string) : bool :=
  String.eqb m "allUsers" || String.eqb m "allAuthenticatedUsers".

Definition is_object_read_role (role : string) : bool :=
  PyStr.contains "storage.objectViewer" role ||
  PyStr.contains "storage.legacyObjectReader" role.

Definition _extract_prefix_from_condition (condition_expr bucket_name : string)
  : option string :=
  match Re.search (Re.head_atoms "startsWith" bucket_name) Re.tail_atoms condition_expr with
  | Some prefix => Some (PyStr.rstrip "/" prefix)
  | None =>
      match Re.search (Re.head_atoms "matches" bucket_name) Re.tail_atoms condition_expr with
      | Some g => Some (PyStr.rstrip "/" (PyStr.remove_all "*" (PyStr.remove_all "**" g)))
      | None => None
      end
  end.

(** The body of the loop of [get_exposed_prefixes_from_iam]. *)
Definition expose_binding (bucket_name : string) (exposed : ExposureMap)
    (binding : Binding) : ExposureMap :=
  let public_members := List.filter is_public_principal (members binding) in
  match public_members with
  | [] => exposed
  | _ =>
      if negb (is_object_read_role (role binding)) then exposed
      else
        match condition binding with
        | None =>
            <["" := [ {| eb_role := role binding;
                         eb_members := public_members;
                         eb_condition := "No condition - bucket level public";
                         eb_is_recursive := true |} ]]> exposed
        | Some expr =>
            match _extract_prefix_from_condition expr bucket_name with
            | Some prefix =>
                <[prefix := default [] (exposed !! prefix) ++
                            [ {| eb_role := role binding;
                                 eb_members := public_members;
                                 eb_condition := expr;
                                 eb_is_recursive := PyStr.contains "**" expr |} ]]> exposed
            | None => exposed
            end
        end
  end.

Definition get_exposed_prefixes_from_iam (policy : list Binding) (bucket_name : string)
  : ExposureMap :=
  fold_left (expose_binding bucket_name) policy ∅.

Definition is_public_iam_simple (policy : list Binding) : bool :=
  existsb (fun binding =>
             match List.filter is_public_principal (members binding) with
             | [] => false
             | _ => PyStr.contains "storage.objectViewer" (role binding)
             end) policy.

(** [k in d] *)
Definition has_key (k : string) (d : ExposureMap) : bool :=
  match d !! k with Some _ => true | None => false end.

(** ** The uniform-access scan *)

(** The dict built by [scan_folder_recursive]. *)
Inductive FolderNode : Type := mkFolderNode {
  path : string;
  name : string;
  is_public : bool;
  reason : string;
  subfolders : list FolderNode;
  objects : list string;
  object_count : Z;
  objects_status : string;
}.

(** The dict returned by [_list_folders_and_objects_raw]. *)
Record Listing : Type := mkListing {
  folders : list string;
  listed_objects : list string;
}.

Section Scan.

Variable gw : Gateway.

Definition probe_url (bucket_name path : string) : string :=
  let url := "https://storage.googleapis.com/" +:+ bucket_name in
  match path with
  | EmptyString => url
  | _ => url +:+ "/" +:+ path
  end.

Definition check_public_access_http (bucket_name path : string) : M bool :=
  let url := probe_url bucket_name path in
  response <-- call (EvHead url 5) (fun tr => gw_head gw tr url) ;;
  match response with
  | HeadResponse status_code => ret (status_code =? 200)
  | HeadRequestException => ret false
  | HeadOtherError e => raise e
  end.

Definition _list_folders_and_objects_raw (bucket_name prefix : string) : M Listing :=
  r <-- call (EvListBlobs bucket_name prefix)
             (fun tr => gw_list_blobs gw tr bucket_name prefix) ;;
  match r with
  | inr (blobs, prefixes) =>
      ret {| folders := PyStr.sorted prefixes;
             listed_objects :=
               PyStr.sorted (List.filter (fun n => negb (PyStr.endswith n "/")) blobs) |}
  | inl (NotFound _) => raise (ValueError ("Bucket not found: " +:+ bucket_name))
  | inl (Forbidden _) => raise (PermissionError ("No access to bucket: " +:+ bucket_name))
  | inl e => raise (ValueError ("Listing error: " +:+ exc_str e))
  end.

(** The reason and the status of the objects, as the chain of [if]s of
    [scan_folder_recursive] sets them. *)
Definition classify_reason (exposed_prefixes : ExposureMap) (clean_path : string)
    (parent_is_public is_public : bool) : string * string :=
  if parent_is_public then
    ("Parent folder is public, so this folder is public",
     "All objects PUBLIC (parent inheritance)")
  else if has_key clean_path exposed_prefixes then
    match default [] (exposed_prefixes !! clean_path) with
    | d :: _ => ("Direct public via IAM condition: " +:+ eb_role d,
                 "All objects PUBLIC (IAM policy)")
    | [] => ("", "")
    end
  else if is_public then
    ("Detected public via HTTP access test", "All objects PUBLIC (HTTP test)")
  else
    ("Private (no IAM condition, HTTP test failed)", "All objects PRIVATE").

(** Whether the loop over the listed folders recurses into [subfolder]. *)
Definition direct_subfolder (folder_path subfolder : string) : bool :=
  let subfolder_relative :=
    if PyStr.startswith subfolder folder_path
    then PyStr.drop (String.length folder_path) subfolder
    else subfolder in
  match subfolder_relative with
  | EmptyString => false
  | _ => negb (PyStr.contains "/" (PyStr.rstrip "/" subfolder_relative))
  end.

Fixpoint scan_folder_recursive (fuel : nat) (bucket_name folder_path : string)
    (exposed_prefixes : ExposureMap) (parent_is_public : bool) : M FolderNode :=
  match fuel with
  | O => out_of_fuel
  | S fuel' =>
      let clean_path := PyStr.rstrip "/" folder_path in
      is_public <--
        (if parent_is_public then ret true
         else if has_key clean_path exposed_prefixes then ret true
         else check_public_access_http bucket_name (clean_path +:+ "/")) ;;
      let '(reason, objects_status) :=
        classify_reason exposed_prefixes clean_path parent_is_public is_public in
      items <-- _list_folders_and_objects_raw bucket_name folder_path ;;
      let real_objects := listed_objects items in
      subfolders <--
        for_each (folders items)
          (fun acc subfolder =>
             if direct_subfolder folder_path subfolder then
               subfolder_result <--
                 scan_folder_recursive fuel' bucket_name subfolder
                   exposed_prefixes is_public ;;
               ret (acc ++ [subfolder_result])
             else ret acc)
          [] ;;
      ret {| path := folder_path;
             name := if PyStr.contains "/" clean_path
                     then PyStr.last_segment "/" clean_path else clean_path;
             is_public := is_public;
             reason := reason;
             subfolders := subfolders;
             objects := real_objects;
             object_count := Z.of_nat (List.length real_objects);
             objects_status := objects_status |}
  end.


Definition count_if (b : bool) : Z := if b then 1 else 0.

Fixpoint count_public_node (folder : FolderNode) : Z :=
  count_if (is_public folder) +
  fold_right Z.add 0 (map count_public_node (subfolders folder)).

Definition _count_public_folders (folders : list FolderNode) : Z :=
  fold_right Z.add 0 (map count_public_node folders).

Fixpoint count_total_node (folder : FolderNode) : Z :=
  1 + fold_right Z.add 0 (map count_total_node (subfolders folder)).

Definition _count_total_folders (folders : list FolderNode) : Z :=
  fold_right Z.add 0 (map count_total_node folders).

(** The [summary] dict of a scan result. *)
Inductive Summary : Type :=
  | SummaryEmpty
  | SummaryCritical (status message reason : string)
  | SummaryFolders (status : string) (total_folders public_folders : Z) (message : string)
  | SummaryObjects (status : string) (total_objects public_objects : Z) (message : string).

Definition summary_status (s : Summary) : option string :=
  match s with
  | SummaryEmpty => None
  | SummaryCritical st _ _ | SummaryFolders st _ _ _ | SummaryObjects st _ _ _ => Some st
  end.

(** The dict returned when the bucket is in the other access mode. *)
Record ModeMismatch : Type := mkModeMismatch {
  mm_error : string;
  mm_bucket_name : string;
  mm_uniform_access : bool;
}.

Record RootObjects : Type := mkRootObjects {
  ro_count : Z;
  ro_status : string;
  ro_objects : list string;
}.

Record UniformResult : Type := mkUniformResult {
  u_bucket_name : string;
  u_uniform_access : bool;
  u_bucket_level_public : bool;
  u_folders : list FolderNode;
  u_summary : Summary;
  u_root_objects : option RootObjects;
}.

Inductive UniformScan : Type :=
  | UniformMismatch (m : ModeMismatch)
  | UniformScanned (r : UniformResult).

(** The [except] clauses that close the bucket scans. *)
Definition scan_handler {A} (bucket_name : string) (e : PyExc) : M A :=
  match e with
  | Forbidden _ => raise (PermissionError ("No access to " +:+ bucket_name +:+ "."))
  | NotFound _ => raise (ValueError (bucket_name +:+ " not found."))
  | _ => raise (ValueError ("Scan error: " +:+ exc_str e))
  end.

(** [bucket.reload()] and the read of the access mode. *)
Definition reload (bucket_name : string) : M UblaRead :=
  r <-- call (EvReload bucket_name) (fun tr => gw_reload gw tr bucket_name) ;;
  match r with
  | inl e => raise e
  | inr u => ret u
  end.

Definition get_iam_policy (bucket_name : string) : M (list Binding) :=
  r <-- call (EvGetIamPolicy bucket_name) (fun tr => gw_get_iam_policy gw tr bucket_name) ;;
  match r with
  | inl e => raise e
  | inr policy => ret policy
  end.

Definition scan_bucket_uniform_access (fuel : nat) (bucket_name : string) : M UniformScan :=
  try_except
    (u <-- reload bucket_name ;;
     let is_uniform :=
       match u with UblaValue enabled => enabled | UblaAttributeError _ => false end in
     if negb is_uniform then
       ret (UniformMismatch
              {| mm_error := "This bucket is not in Uniform Access mode. Using fine-grained ACL.";
                 mm_bucket_name := bucket_name;
                 mm_uniform_access := false |})
     else
       policy <-- get_iam_policy bucket_name ;;
       let exposed_prefixes := get_exposed_prefixes_from_iam policy bucket_name in
       bucket_public <--
         (if has_key "" exposed_prefixes then ret true
          else check_public_access_http bucket_name "") ;;
       if bucket_public then
         ret (UniformScanned
                {| u_bucket_name := bucket_name;
                   u_uniform_access := true;
                   u_bucket_level_public := true;
                   u_folders := [];
                   u_summary :=
                     SummaryCritical "CRITICAL"
                       "Bucket is completely PUBLIC! All folders and objects are exposed."
                       "Detected via IAM Policy or HTTP test";
                   u_root_objects := None |})
       else
         root_items <-- _list_folders_and_objects_raw bucket_name "" ;;
         folders <--
           for_each (folders root_items)
             (fun acc folder =>
                folder_result <--
                  scan_folder_recursive fuel bucket_name folder exposed_prefixes false ;;
                ret (acc ++ [folder_result]))
             [] ;;
         let real_root_objects := listed_objects root_items in
         root_objects <--
           match real_root_objects with
           | [] => ret None
           | _ =>
               root_public <--
                 (if has_key "" exposed_prefixes then ret true
                  else check_public_access_http bucket_name "") ;;
               ret (Some {| ro_count := Z.of_nat (List.length real_root_objects);
                            ro_status := if root_public then "PUBLIC" else "PRIVATE";
                            ro_objects := real_root_objects |})
           end ;;
         let public_folders := _count_public_folders folders in
         let total_folders := _count_total_folders folders in
         ret (UniformScanned
                {| u_bucket_name := bucket_name;
                   u_uniform_access := true;
                   u_bucket_level_public := false;
                   u_folders := folders;
                   u_summary :=
                     SummaryFolders
                       (if 0 <? public_folders then "WARNING" else "SAFE")
                       total_folders public_folders
                       (if 0 <? public_folders
                        then PyStr.of_int public_folders +:+ "/" +:+
                             PyStr.of_int total_folders +:+ " folders public"
                        else "No folders are public");
                   u_root_objects := root_objects |}))
    (scan_handler bucket_name).

Definition scan_folder_uniform_access (fuel : nat) (bucket_name folder_path : string)
  : M FolderNode :=
  try_except
    (policy <-- get_iam_policy bucket_name ;;
     let exposed_prefixes := get_exposed_prefixes_from_iam policy bucket_name in
     scan_folder_recursive fuel bucket_name folder_path exposed_prefixes false)
    (fun e => raise (ValueError ("Scan error: " +:+ exc_str e))).


(** ** The fine-grained scan *)

(** An entry of [objects] in the fine-grained tree. *)
Record ObjectExposure : Type := mkObjectExposure {
  oe_name : string;
  oe_is_public : bool;
}.

(** The dict built by [build_fine_grained_tree]. *)
Inductive FineNode : Type := mkFineNode {
  fg_path : string;
  fg_subfolders : list FineNode;
  fg_objects : list ObjectExposure;
  total_object_count : Z;
  public_object_count : Z;
}.

(** [acl.role == 'READER' and acl.entity in ['allUsers',
    'allAuthenticatedUsers']], the test of the loop of [is_public_acl]. *)
Definition is_public_entry (acl : AclEntry) : bool :=
  String.eqb (acl_role acl) "READER" && is_public_principal (acl_entity acl).

(** The blob is given by the name of its bucket and its own name.
    [blob.acl.all()] loads the ACL of the blob and returns one object, the
    entity [allUsers] of that ACL: in google-cloud-storage [ACL.all] is the
    factory of that entity, not the list of the entries.  The entity is not
    iterable, so the [for] raises [TypeError] before its body, the test
    [is_public_entry], runs once; the bare [except] passes and the function
    returns [False], whatever the ACL holds.  A load that raises ends the
    same way. *)
Definition is_public_acl (bucket_name object_name : string) : M bool :=
  _acl <-- call (EvAclAll bucket_name object_name)
                (fun tr => gw_acl_all gw tr bucket_name object_name) ;;
  ret false.

(** The body of the loop over the objects of [build_fine_grained_tree]:
    the object is classified and recorded in [result]; an exception leaves
    [result] as it was. *)
Definition classify_object (bucket_name : string) (result : FineNode)
    (obj_name : string) : M FineNode :=
  try_except
    (is_public <--
       (by_acl <-- is_public_acl bucket_name obj_name ;;
        if by_acl then ret true
        else check_public_access_http bucket_name obj_name) ;;
     ret {| fg_path := fg_path result;
            fg_subfolders := fg_subfolders result;
            fg_objects := fg_objects result ++
                          [ {| oe_name := obj_name; oe_is_public := is_public |} ];
            total_object_count := total_object_count result + 1;
            public_object_count := public_object_count result + count_if is_public |})
    (fun _ => ret result).

Fixpoint build_fine_grained_tree (fuel : nat) (bucket_name prefix : string)
  : M FineNode :=
  match fuel with
  | O => out_of_fuel
  | S fuel' =>
      items <-- _list_folders_and_objects_raw bucket_name prefix ;;
      let result :=
        {| fg_path := match PyStr.rstrip "/" prefix with
                      | EmptyString => "root"
                      | p => p
                      end;
           fg_subfolders := [];
           fg_objects := [];
           total_object_count := 0;
           public_object_count := 0 |} in
      result <-- for_each (listed_objects items) (classify_object bucket_name) result ;;
      for_each (folders items)
        (fun result subfolder =>
           subfolder_result <-- build_fine_grained_tree fuel' bucket_name subfolder ;;
           ret {| fg_path := fg_path result;
                  fg_subfolders := fg_subfolders result ++ [subfolder_result];
                  fg_objects := fg_objects result;
                  total_object_count :=
                    total_object_count result + total_object_count subfolder_result;
                  public_object_count :=
                    public_object_count result + public_object_count subfolder_result |})
        result
  end.

Record FineResult : Type := mkFineResult {
  f_bucket_name : string;
  f_fine_grained : bool;
  f_bucket_level_public : bool;
  f_folder_tree : option FineNode;
  f_summary : Summary;
}.

Inductive FineScan : Type :=
  | FineMismatch (m : ModeMismatch)
  | FineScanned (r : FineResult).

Definition scan_bucket_fine_grained_access (fuel : nat) (bucket_name : string)
  : M FineScan :=
  try_except
    (u <-- reload bucket_name ;;
     is_uniform <--
       match u with
       | UblaValue enabled => ret enabled
       | UblaAttributeError msg => raise (OtherException msg)
       end ;;
     if is_uniform then
       ret (FineMismatch
              {| mm_error := "This bucket is not in Fine-Grained mode. Using Uniform Access.";
                 mm_bucket_name := bucket_name;
                 mm_uniform_access := true |})
     else
       policy <-- get_iam_policy bucket_name ;;
       bucket_public <--
         (if is_public_iam_simple policy then ret true
          else check_public_access_http bucket_name "") ;;
       if bucket_public then
         ret (FineScanned
                {| f_bucket_name := bucket_name;
                   f_fine_grained := true;
                   f_bucket_level_public := true;
                   f_folder_tree := None;
                   f_summary :=
                     SummaryCritical "CRITICAL"
                       "Bucket is completely PUBLIC! All objects are exposed."
                       "Detected via IAM Policy or HTTP test" |})
       else
         folder_tree <-- build_fine_grained_tree fuel bucket_name "" ;;
         let total_objects := total_object_count folder_tree in
         let public_objects := public_object_count folder_tree in
         ret (FineScanned
                {| f_bucket_name := bucket_name;
                   f_fine_grained := true;
                   f_bucket_level_public := false;
                   f_folder_tree := Some folder_tree;
                   f_summary :=
                     SummaryObjects
                       (if 0 <? public_objects then "WARNING" else "SAFE")
                       total_objects public_objects
                       (if 0 <? public_objects
                        then PyStr.of_int public_objects +:+ "/" +:+
                             PyStr.of_int total_objects +:+ " objects public"
                        else "No objects are public") |}))
    (scan_handler bucket_name).

End Scan.

(** ** The sensitive-data scan of one object *)

(** [DEFAULT_EXCLUDED_EXTENSIONS] *)
Definition DEFAULT_EXCLUDED_EXTENSIONS : list string :=
  [".jpg"; ".jpeg"; ".png"; ".gif"; ".bmp"; ".tiff"; ".webp"; ".glb"].

(** *** The validators of [sensitive_patterns.py] *)

Definition digit_value (c : ascii) : Z := Z.of_N (N_of_ascii c) - 48.

Definition is_digit_between (lo hi : Z) (c : ascii) : bool :=
  (lo <=? digit_value c) && (digit_value c <=? hi).

(** [re.match(r'^[1-9][0-9]{9}[02468]$', tcno)]: eleven characters of the
    three classes, then the end of the text or one final newline. *)
Definition tc_format (tcno : string) : bool :=
  let cs := list_ascii_of_string tcno in
  match cs with
  | d0 :: rest =>
      is_digit_between 1 9 d0 &&
      forallb (is_digit_between 0 9) (firstn 9 rest) &&
      (9 <=? List.length rest)%nat &&
      match skipn 9 rest with
      | d10 :: tail =>
          is_digit_between 0 9 d10 && Z.even (digit_value d10) &&
          match tail with
          | [] => true
          | [nl] => Ascii.eqb nl "010"
          | _ => false
          end
      | [] => false
      end
  | [] => false
  end.

(** [digits[start:stop:2]] summed *)
Fixpoint sum_every_other (digits : list Z) : Z :=
  match digits with
  | [] => 0
  | [d] => d
  | d :: _ :: rest => d + sum_every_other rest
  end.

(** The result is [inl] when the check raises: a text that passes the format
    with a final newline makes [int(d)] raise [ValueError] on that newline. *)
Definition tc_identity_check (tcno : string) : PyExc + bool * string :=
  if negb (tc_format tcno) then
    inr (false, "Invalid format (must be 11 digits, not start with 0, end with even digit)")
  else if negb (String.length tcno =? 11)%nat then
    inl (ValueError "invalid literal for int() with base 10: '\n'")
  else
    let digits := map digit_value (list_ascii_of_string tcno) in
    let odd_sum := sum_every_other (firstn 9 digits) in
    let even_sum := sum_every_other (firstn 7 (skipn 1 digits)) in
    let tenth_digit := (odd_sum * 7 - even_sum) mod 10 in
    if negb (tenth_digit =? nth 9 digits 0) then
      inr (false, "Algorithmically invalid (10th digit mismatch)")
    else
      let first_ten_sum := fold_right Z.add 0 (firstn 10 digits) in
      let eleventh_digit := first_ten_sum mod 10 in
      if negb (eleventh_digit =? nth 10 digits 0) then
        inr (false, "Algorithmically invalid (11th digit mismatch)")
      else inr (true, "Valid TC Identity").

(** [VALIDATORS] holds [tc_identity_check] alone. *)
Definition run_validator_by_name (name candidate : string) : bool * string :=
  if String.eqb name "tc_identity_check" then
    match tc_identity_check candidate with
    | inr result => result
    | inl e => (false, "Validator error: " +:+ exc_str e)
    end
  else (false, "Validator '" +:+ name +:+ "' not found").

(** *** Patterns, matches and findings *)

(** An entry of [PATTERNS]; [p_name] and [p_validator] are optional keys. *)
Record Pattern : Type := mkPattern {
  p_name : option string;
  p_regex : string;
  p_validator : option string;
}.

(** [PATTERNS] of [sensitive_patterns.py], in the order of the dict. *)
Definition PATTERNS : list (string * Pattern) :=
  [ ("TCIdentity",
     {| p_name := Some "T.C. Identity Number";
        p_regex := "\b[1-9][0-9]{10}\b";
        p_validator := Some "tc_identity_check" |});
    ("EmailAddress",
     {| p_name := Some "Email Address";
        p_regex := "[a-zA-Z0-9._%+-]+@[a-zA-Z0-9.-]+\.[a-zA-Z]{2,}";
        p_validator := None |}) ].

(** A match object: [m.group(0)] and [m.groups()], where [None] is a group
    that took no part in the match. *)
Record Match : Type := mkMatch {
  group0 : string;
  groups : list (option string);
}.

(** An entry of the report of Gitleaks. *)
Record Leak : Type := mkLeak {
  Secret : string;
  Description : string;
  StartLine : Z;
}.

(** What running Gitleaks on the content comes to: the executable is
    missing, another exception is raised before a report is read, or the
    process ends with a return code and an output. *)
Inductive GitleaksRun : Type :=
  | GitleaksNotFound
  | GitleaksFailed
  | GitleaksExited (returncode : Z) (stdout : string).

(** The collaborators of the scan of one object.
    - [pe_blob_size]: [blob.reload()] then [blob.size]; [None] when the
      reload raises or the size cannot be compared.
    - [pe_download]: [blob.download_as_bytes] decoded, for the whole blob
      ([None]) or for a range of bytes; [None] when it raises.
    - [pe_finditer]: [re.compile(regex).finditer(content)]; [None] when the
      regular expression does not compile.
    - [pe_json_loads]: [json.loads] on the report; [None] when it raises. *)
Record PatternEnv : Type := mkPatternEnv {
  pe_blob_size : string -> string -> option Z;
  pe_download : string -> string -> option (Z * Z) -> option string;
  pe_finditer : string -> string -> option (list Match);
  pe_gitleaks : string -> GitleaksRun;
  pe_json_loads : string -> option (list Leak);
}.

(** A dict of [findings]. *)
Record Finding : Type := mkFinding {
  f_object : string;
  pattern_key : string;
  pattern_name : string;
  match_raw : string;
  match_masked : string;
  validator : option string;
  validator_ok : bool;
  validator_reason : string;
}.

Section Patterns.

Variable env : PatternEnv.

Definition _download_blob_snippet (bucket_name blob_name : string) (max_bytes : Z)
  : option string :=
  match pe_blob_size env bucket_name blob_name with
  | None => None
  | Some size =>
      if 5 * 1024 * 1024 <? size
      then pe_download env bucket_name blob_name (Some (0, max_bytes - 1))
      else pe_download env bucket_name blob_name None
  end.

(** [next((g for g in reversed(m.groups()) if g), m.group(0))] *)
Definition candidate_of (m : Match) : string :=
  match List.filter (fun g => match g with
                              | Some (String _ _) => true
                              | _ => false
                              end) (rev (groups m)) with
  | Some g :: _ => g
  | _ => group0 m
  end.

(** The findings of one pattern: the body of the loop over
    [patterns.items()]. *)
Definition pattern_findings (object_name : string) (no_mask : bool) (content : string)
    (key : string) (pdata : Pattern) : list Finding :=
  match pe_finditer env (p_regex pdata) content with
  | None => []
  | Some matches =>
      flat_map
        (fun m =>
           let candidate_str := PyStr.strip (candidate_of m) in
           let validator_name := p_validator pdata in
           let '(run, validator_ok, validator_reason) :=
             match validator_name with
             | Some ((String _ _) as v) =>
                 let '(ok, why) := run_validator_by_name v candidate_str in
                 (true, ok, why)
             | _ => (false, true, "Regex match sufficient")
             end in
           if run && negb validator_ok then []
           else
             let masked :=
               if no_mask then candidate_str
               else if 8 <? PyStr.len candidate_str
                    then PyStr.take 4 candidate_str +:+ "..." +:+
                         PyStr.last_n 4 candidate_str
                    else "..." in
             [ {| f_object := object_name;
                  pattern_key := key;
                  pattern_name := default key (p_name pdata);
                  match_raw := candidate_str;
                  match_masked := masked;
                  validator := validator_name;
                  validator_ok := validator_ok;
                  validator_reason := validator_reason |} ])
        matches
  end.

(** The findings that the report of Gitleaks adds. *)
Definition gitleaks_findings (object_name : string) (no_mask : bool) (content : string)
  : list Finding :=
  match pe_gitleaks env content with
  | GitleaksExited returncode stdout =>
      if (returncode =? 0) || (returncode =? 1) then
        match PyStr.strip stdout with
        | EmptyString => []
        | _ =>
            match pe_json_loads env stdout with
            | None => []
            | Some leaks =>
                map (fun leak =>
                       let masked_value :=
                         if 8 <? PyStr.len (Secret leak)
                         then PyStr.take 4 (Secret leak) +:+ "..." +:+
                              PyStr.last_n 4 (Secret leak)
                         else "..." in
                       {| f_object := object_name;
                          pattern_key := "Gitleaks";
                          pattern_name := "Gitleaks Secret";
                          match_raw := Secret leak;
                          match_masked := if negb no_mask then masked_value
                                          else Secret leak;
                          validator := Some "Gitleaks";
                          validator_ok := true;
                          validator_reason :=
                            "Rule: " +:+ Description leak +:+ ", Line: " +:+
                            PyStr.of_int (StartLine leak) |})
                    leaks
            end
        end
      else []
  | _ => []
  end.

Definition _scan_object_for_patterns (bucket_name object_name : string)
    (patterns : list (string * Pattern)) (no_mask : bool)
    (file_types : option (list string)) (use_gitleaks : bool) : list Finding :=
  let ext := PyStr.lower (PyStr.splitext_ext object_name) in
  let skipped :=
    match file_types with
    | Some ((_ :: _) as types) =>
        negb (PyStr.mem "all" types) && negb (PyStr.mem ext types)
    | _ => PyStr.mem ext DEFAULT_EXCLUDED_EXTENSIONS
    end in
  if skipped then []
  else
    match _download_blob_snippet bucket_name object_name (1024 * 1024) with
    | None | Some EmptyString => []
    | Some content =>
        flat_map (fun '(key, pdata) =>
                    pattern_findings object_name no_mask content key pdata)
                 patterns ++
        (if use_gitleaks then gitleaks_findings object_name no_mask content else [])
    end.

End Patterns.

(** ** The entry points over the two scans *)

(** The [summary] of the scan of one folder of a uniform bucket. *)
Record FolderSummary : Type := mkFolderSummary {
  fs_status : string;
  fs_message : string;
}.

(** The dicts that [scan_bucket] returns: the scan of one folder, with the
    key [uniform_access] or the key [fine_grained] set to [True], or the
    result of one of the two scans of a whole bucket. *)
Inductive BucketScan : Type :=
  | FolderUniform (bucket_name folder_path : string) (folder_data : FolderNode)
      (summary : FolderSummary)
  | FolderFine (bucket_name folder_path : string) (folder_tree : FineNode)
      (summary : Summary)
  | BucketUniform (r : UniformScan)
  | BucketFine (r : FineScan).

Section Dispatch.

Variable gw : Gateway.

Definition list_objects (bucket_name folder_path : string) : M (list string) :=
  items <-- _list_folders_and_objects_raw gw bucket_name folder_path ;;
  ret (List.filter (fun obj => PyStr.startswith obj folder_path) (listed_objects items)).

Definition scan_bucket (fuel : nat) (bucket_name folder_path : string) : M BucketScan :=
  try_except
    (u <-- reload gw bucket_name ;;
     is_uniform <--
       match u with
       | UblaValue enabled => ret enabled
       | UblaAttributeError msg => raise (OtherException msg)
       end ;;
     match folder_path with
     | String _ _ =>
         let folder_path := PyStr.rstrip "/" folder_path +:+ "/" in
         if is_uniform then
           result <-- scan_folder_uniform_access gw fuel bucket_name folder_path ;;
           ret (FolderUniform bucket_name folder_path result
                  {| fs_status := if is_public result then "WARNING" else "SAFE";
                     fs_message := "Folder " +:+
                                   (if is_public result then "PUBLIC" else "PRIVATE") |})
         else
           folder_tree <-- build_fine_grained_tree gw fuel bucket_name folder_path ;;
           let total_objects := total_object_count folder_tree in
           let public_objects := public_object_count folder_tree in
           ret (FolderFine bucket_name folder_path folder_tree
                  (SummaryObjects
                     (if 0 <? public_objects then "WARNING" else "SAFE")
                     total_objects public_objects
                     (if 0 <? public_objects
                      then PyStr.of_int public_objects +:+ "/" +:+
                           PyStr.of_int total_objects +:+ " objects public"
                      else "No objects are public")))
     | EmptyString =>
         if is_uniform then
           r <-- scan_bucket_uniform_access gw fuel bucket_name ;;
           ret (BucketUniform r)
         else
           r <-- scan_bucket_fine_grained_access gw fuel bucket_name ;;
           ret (BucketFine r)
     end)
    (scan_handler bucket_name).

End Dispatch.

(** ** The scan for old objects *)

(** A blob as [scan_old_objects] reads it: [blob.name], [blob.size] and
    [blob.time_created].  An instant is a number of microseconds since the
    epoch. *)
Record BlobMeta : Type := mkBlobMeta {
  bm_name : string;
  bm_size : option Z;
  bm_time_created : option Z;
}.

(** A dict of [old_objects]. *)
Record OldObject : Type := mkOldObject {
  oo_name : string;
  oo_size : option Z;
  oo_created_at : Z;
  oo_age_days : Z;
}.

(** The dict returned by [scan_old_objects]. *)
Record OldObjectsReport : Type := mkOldObjectsReport {
  or_bucket_name : string;
  or_folder_path : string;
  or_days_old_threshold : Z;
  or_old_objects : list OldObject;
  or_total_count : Z;
  or_total_size : Z;
}.

(** [(now_utc - created).days]: the whole days of the difference, rounded
    down. *)
Definition age_days (now_utc created : Z) : Z :=
  (now_utc - created) / (86400 * 1000000).

(** [sorted(l, key=lambda x: x['created_at'])]: the stable sort, as the
    insertion of each element before the first one that is not older. *)
Fixpoint insert_by_created_at (x : OldObject) (l : list OldObject) : list OldObject :=
  match l with
  | [] => [x]
  | y :: l' =>
      if oo_created_at x <=? oo_created_at y then x :: l
      else y :: insert_by_created_at x l'
  end.

Definition sorted_by_created_at (l : list OldObject) : list OldObject :=
  fold_right insert_by_created_at [] l.

(** The body of the loop over the blobs: the list of the old objects and the
    sum of their sizes after one more blob. *)
Definition old_object_step (now_utc days_old : Z) (acc : list OldObject * Z)
    (blob : BlobMeta) : list OldObject * Z :=
  let '(old_objects, total_size_of_old_objects) := acc in
  if PyStr.endswith (bm_name blob) "/" then acc
  else
    match bm_time_created blob with
    | None => acc
    | Some time_created =>
        let age := age_days now_utc time_created in
        if days_old <=? age then
          (old_objects ++ [ {| oo_name := bm_name blob;
                               oo_size := bm_size blob;
                               oo_created_at := time_created;
                               oo_age_days := age |} ],
           match bm_size blob with
           | Some size => if size =? 0 then total_size_of_old_objects
                          else total_size_of_old_objects + size
           | None => total_size_of_old_objects
           end)
        else acc
    end.

(** [now_utc] is what [datetime.now(timezone.utc)] gives; [list_blobs] is the
    iteration over [client.list_blobs(bucket_name, prefix=folder_path)], an
    exception when it raises. *)
Definition scan_old_objects (now_utc : Z)
    (list_blobs : string -> string -> PyExc + list BlobMeta)
    (bucket_name folder_path : string) (days_old : Z) : PyExc + OldObjectsReport :=
  match list_blobs bucket_name folder_path with
  | inl e => inl (ValueError ("Error during old object scan: " +:+ exc_str e))
  | inr blobs =>
      let '(old_objects, total_size_of_old_objects) :=
        fold_left (old_object_step now_utc days_old) blobs ([], 0) in
      inr {| or_bucket_name := bucket_name;
             or_folder_path := folder_path;
             or_days_old_threshold := days_old;
             or_old_objects := sorted_by_created_at old_objects;
             or_total_count := Z.of_nat (List.length old_objects);
             or_total_size := total_size_of_old_objects |}
  end.

(** ** The vocabulary of the properties *)

(** [descendant d a]: [d] is a node strictly below [a]. *)
Inductive descendant : FolderNode -> FolderNode -> Prop :=
  | descendant_child a c : In c (subfolders a) -> descendant c a
  | descendant_below a c d : In c (subfolders a) -> descendant d c -> descendant d a.

Definition in_tree (n root : FolderNode) : Prop := n = root \/ descendant n root.

Inductive fine_descendant : FineNode -> FineNode -> Prop :=
  | fine_descendant_child a c : In c (fg_subfolders a) -> fine_descendant c a
  | fine_descendant_below a c d :
      In c (fg_subfolders a) -> fine_descendant d c -> fine_descendant d a.

Definition in_fine_tree (n root : FineNode) : Prop := n = root \/ fine_descendant n root.

Definition sum_counts (l : list Z) : Z := fold_right Z.add 0 l.

(** The count of a node is that of its direct objects plus the counts of its
    subfolders. *)
Definition count_aggregated (n : FolderNode) : Prop :=
  object_count n =
  Z.of_nat (List.length (objects n)) + sum_counts (map object_count (subfolders n)).

Definition fine_count_aggregated (n : FineNode) : Prop :=
  total_object_count n =
  Z.of_nat (List.length (fg_objects n)) +
  sum_counts (map total_object_count (fg_subfolders n)).

(** Every key of the map holds at least one entry. *)
Definition exposure_entries_nonempty (exposed : ExposureMap) : Prop :=
  forall k l, exposed !! k = Some l -> l <> [].

(** The probe answered with status 200. *)
Definition http_says_public (response : HeadOutcome) : bool :=
  match response with
  | HeadResponse status_code => status_code =? 200
  | _ => false
  end.

(** Between [tr] and [tr'] no HTTP probe was issued. *)
Definition no_probe (tr tr' : Trace) : Prop :=
  exists evs, tr' = tr ++ evs /\ forallb (fun e => negb (is_head e)) evs = true.

(** [written] is a text that the interpolated bucket name matches. *)
Fixpoint names_bucket (bucket_name written : string) : bool :=
  match bucket_name, written with
  | EmptyString, EmptyString => true
  | String p b', String c w' =>
      (if Ascii.eqb p "." then negb (Ascii.eqb c "010") else Ascii.eqb c p) &&
      names_bucket b' w'
  | _, _ => false
  end.

Definition no_quotes (s : string) : bool :=
  forallb (fun c => negb (Re.is_quote c)) (list_ascii_of_string s).

(** The expression holds, somewhere, the predicate applied to a quoted
    resource name of an object of the bucket: the shape that the regular
    expression of [predicate] describes. *)
Definition has_shape (predicate bucket_name expr : string) : Prop :=
  exists before q1 written prefix q2 after,
    expr = before +:+ ("resource.name." +:+ predicate +:+ "(") +:+
           String q1 ("projects/_/buckets/" +:+ written +:+ "/objects/" +:+
                      prefix +:+ String q2 (")" +:+ after)) /\
    Re.is_quote q1 = true /\ Re.is_quote q2 = true /\
    names_bucket bucket_name written = true /\
    prefix <> "" /\ no_quotes prefix = true.

(** The binding passes the two filters of [get_exposed_prefixes_from_iam]. *)
Definition qualifies (binding : Binding) : Prop :=
  (exists m, In m (members binding) /\ (m = "allUsers" \/ m = "allAuthenticatedUsers")) /\
  (PyStr.contains "storage.objectViewer" (role binding) = true \/
   PyStr.contains "storage.legacyObjectReader" (role binding) = true).

(** Where the entries of the map come from. *)
Definition from_qualifying (policy : list Binding) (exposed : ExposureMap) : Prop :=
  forall k l eb,
    exposed !! k = Some l -> In eb l ->
    exists b, In b policy /\ qualifies b /\
              eb_role eb = role b /\
              eb_members eb = List.filter is_public_principal (members b).

(** What the probe says of an object, when its classification starts at
    trace [tr]: the ACL is asked for first. *)
Definition probe_says_public (gw : Gateway) (bucket_name obj_name : string)
    (tr : Trace) : bool :=
  http_says_public
    (gw_head gw (tr ++ [EvAclAll bucket_name obj_name]) (probe_url bucket_name obj_name)).

(** [result] with one more classified object. *)
Definition record_object (result : FineNode) (obj_name : string) (pub : bool) : FineNode :=
  {| fg_path := fg_path result;
     fg_subfolders := fg_subfolders result;
     fg_objects := fg_objects result ++ [ {| oe_name := obj_name; oe_is_public := pub |} ];
     total_object_count := total_object_count result + 1;
     public_object_count := public_object_count result + count_if pub |}.

(** The masking rule, in the words of the claim: the first four characters,
    three dots and the last four characters of a match longer than eight
    characters, three dots alone for a shorter one; the match itself when
    masking is off. *)
Definition masking_rule (no_mask : bool) (raw : string) : string :=
  if no_mask then raw
  else if 8 <? Z.of_nat (String.length raw)
       then PyStr.take 4 raw +:+ "..." +:+ PyStr.last_n 4 raw
       else "...".

(** *** Conditions, depth, costs and entries *)

(** The condition that grants a prefix of the bucket: the predicate applied
    to the quoted resource name of the prefix. *)
Definition prefix_condition (predicate bucket_name prefix : string) : string :=
  ("resource.name." +:+ predicate +:+ "(") +:+
  String "'" ("projects/_/buckets/" +:+ bucket_name +:+ "/objects/" +:+
              prefix +:+ String "'" (")" +:+ "")).

(** The binding is public, reads objects and carries no condition. *)
Definition bucket_wide (binding : Binding) : Prop :=
  qualifies binding /\ condition binding = None.

(** The prefixes below [prefix] that a scan recurses into nest at most
    [d] levels deep, whatever the moment of the listing: [recursed] tells
    which of the listed prefixes the scan enters. *)
Inductive depth_within (gw : Gateway) (bucket_name : string)
    (recursed : string -> string -> bool) : nat -> string -> Prop :=
  | depth_within_level d prefix :
      (forall tr blobs prefixes sub,
          gw_list_blobs gw tr bucket_name prefix = inr (blobs, prefixes) ->
          In sub prefixes -> recursed prefix sub = true ->
          depth_within gw bucket_name recursed d sub) ->
      depth_within gw bucket_name recursed (S d) prefix.

(** The number of events of a kind. *)
Definition count_events (kind : Event -> bool) (evs : list Event) : Z :=
  Z.of_nat (List.length (List.filter kind evs)).

(** The nodes of a tree of the uniform scan, the root first, and those of a
    list of trees. *)
Fixpoint tree_nodes (n : FolderNode) : list FolderNode :=
  n :: flat_map tree_nodes (subfolders n).

Definition forest_nodes (folders : list FolderNode) : list FolderNode :=
  flat_map tree_nodes folders.

(** The entries of a node of the fine-grained tree and of the nodes below
    it. *)
Fixpoint fine_entries (n : FineNode) : list ObjectExposure :=
  fg_objects n ++ flat_map fine_entries (fg_subfolders n).

Definition count_public (entries : list ObjectExposure) : Z :=
  Z.of_nat (List.length (List.filter oe_is_public entries)).

(** The calls between two traces: [n] listings, at most [n] probes, and
    nothing else. *)
Definition costs (n : Z) (tr tr' : Trace) : Prop :=
  exists evs,
    tr' = tr ++ evs /\
    count_events is_list_blobs evs = n /\
    count_events is_head evs <= n /\
    forallb (fun e => is_head e || is_list_blobs e) evs = true.

(** The call that raised [e]: the last call of the trace [tr'] is a probe
    that raised [e], or a listing that raised it. *)
Definition raised_by_call (gw : Gateway) (bucket_name : string) (e : PyExc)
    (tr' : Trace) : Prop :=
  (exists t url, tr' = t ++ [EvHead url 5] /\ gw_head gw t url = HeadOtherError e) \/
  (exists t prefix,
      _list_folders_and_objects_raw gw bucket_name prefix t = (Raise e, tr')).

(** *** Identity numbers *)

(** [substitute i c s]: the text [s] with the character at index [i]
    replaced by [c]. *)
Fixpoint substitute (i : nat) (c : ascii) (s : string) : string :=
  match s, i with
  | EmptyString, _ => EmptyString
  | String _ s', O => String c s'
  | String a s', S i' => String a (substitute i' c s')
  end.

(** The digit at index [i] of a text of digits. *)
Definition digit_at (i : nat) (s : string) : Z :=
  nth i (map digit_value (list_ascii_of_string s)) 0.

(** An identity number: eleven digits, the first not zero, the tenth and
    the eleventh the two check digits. *)
Definition tc_number (s : string) : Prop :=
  String.length s = 11%nat /\
  Forall (fun c => is_digit_between 0 9 c = true) (list_ascii_of_string s) /\
  digit_at 0 s <> 0 /\
  (7 * (digit_at 0 s + digit_at 2 s + digit_at 4 s + digit_at 6 s + digit_at 8 s)
   - (digit_at 1 s + digit_at 3 s + digit_at 5 s + digit_at 7 s)) mod 10
    = digit_at 9 s /\
  (digit_at 0 s + digit_at 1 s + digit_at 2 s + digit_at 3 s + digit_at 4 s +
   digit_at 5 s + digit_at 6 s + digit_at 7 s + digit_at 8 s + digit_at 9 s) mod 10
    = digit_at 10 s.

(** *** Exceptions and old objects *)

(** The exceptions of Python itself among those of the model, as opposed to
    those of the storage client. *)
Definition builtin_error (e : PyExc) : Prop :=
  match e with
  | ValueError _ | PermissionError _ => True
  | _ => False
  end.

(** The size that an entry adds to the total. *)
Definition size_of (o : OldObject) : Z := default 0 (oo_size o).

(** A blob that the scan reports: not a folder placeholder, with a creation
    time, at least [days_old] whole days old. *)
Definition is_old (now_utc days_old : Z) (blob : BlobMeta) : Prop :=
  PyStr.endswith (bm_name blob) "/" = false /\
  exists created, bm_time_created blob = Some created /\
                  days_old <= age_days now_utc created.

(** ** A small bucket to run the scans on *)

Module Demo.

(** Objects [docs/a.txt], [docs/a-b/x], [docs/a/y], [docs/a/z],
    [public/p.txt], [public/sub/q.txt] and [private/s.txt]; the listings
    answer in an unsorted order. *)
Definition list_blobs (_ : Trace) (_ prefix : string)
  : PyExc + (list string * list string) :=
  if String.eqb prefix "" then inr ([], ["public/"; "private/"; "docs/"])
  else if String.eqb prefix "docs/" then inr (["docs/a.txt"], ["docs/a/"; "docs/a-b/"])
  else if String.eqb prefix "docs/a/" then inr (["docs/a/z"; "docs/a/y"], [])
  else if String.eqb prefix "docs/a-b/" then inr (["docs/a-b/x"], [])
  else if String.eqb prefix "public/" then inr (["public/p.txt"], ["public/sub/"])
  else if String.eqb prefix "public/sub/" then inr (["public/sub/q.txt"], [])
  else if String.eqb prefix "private/" then inr (["private/s.txt"], [])
  else inr ([], []).

Definition policy : list Binding :=
  [ {| members := ["allUsers"];
       role := "roles/storage.objectViewer";
       condition :=
         Some "resource.name.startsWith('projects/_/buckets/demo/objects/public/')" |} ].

(** Only [docs/a/] answers an anonymous request with 200. *)
Definition head (_ : Trace) (url : string) : HeadOutcome :=
  if String.eqb url "https://storage.googleapis.com/demo/docs/a/"
  then HeadResponse 200 else HeadResponse 403.

Definition acl_all (_ : Trace) (_ object_name : string) : list AclEntry :=
  if String.eqb object_name "docs/a.txt"
  then [ {| acl_entity := "allUsers"; acl_role := "READER" |} ]
  else [ {| acl_entity := "user-owner@example.com"; acl_role := "OWNER" |} ].

Definition uniform : Gateway :=
  {| gw_reload := fun _ _ => inr (UblaValue true);
     gw_get_iam_policy := fun _ _ => inr policy;
     gw_list_blobs := list_blobs;
     gw_head := head;
     gw_acl_all := acl_all |}.

Definition fine : Gateway :=
  {| gw_reload := fun _ _ => inr (UblaValue false);
     gw_get_iam_policy := fun _ _ => inr [];
     gw_list_blobs := list_blobs;
     gw_head := head;
     gw_acl_all := acl_all |}.

(** A text file with an e-mail address and an identity number, scanned with
    the patterns of [sensitive_patterns.py] and with Gitleaks. *)
Definition env : PatternEnv :=
  {| pe_blob_size := fun _ _ => Some 48;
     pe_download := fun _ _ _ => Some "mail bob@example.com id 10000000146 key tok_1";
     pe_finditer := fun regex _ =>
       if String.eqb regex "\b[1-9][0-9]{10}\b"
       then Some [ {| group0 := "10000000146"; groups := [] |} ]
       else Some [ {| group0 := "bob@example.com"; groups := [] |} ];
     pe_gitleaks := fun _ => GitleaksExited 1 "[...]";
     pe_json_loads := fun _ =>
       Some [ {| Secret := "tok_1"; Description := "Generic token"; StartLine := 1 |} ] |}.

End Demo.

(** ** A bucket whose listing is refused *)

Module Locked.

(** The bucket answers [reload] and [get_iam_policy]; listing it is
    refused. *)
Definition listing_refused : Gateway :=
  {| gw_reload := fun _ _ => inr (UblaValue true);
     gw_get_iam_policy := fun _ _ => inr [];
     gw_list_blobs := fun _ _ _ => inl (Forbidden "403 GET");
     gw_head := fun _ _ => HeadResponse 403;
     gw_acl_all := fun _ _ _ => [] |}.

(** The bucket refuses [reload]. *)
Definition reload_refused : Gateway :=
  {| gw_reload := fun _ _ => inl (Forbidden "403 GET");
     gw_get_iam_policy := fun _ _ => inr [];
     gw_list_blobs := fun _ _ _ => inr ([], []);
     gw_head := fun _ _ => HeadResponse 403;
     gw_acl_all := fun _ _ _ => [] |}.

End Locked.

(** ** A folder of logs *)

Module Archive.

(** Three objects and a placeholder; [now] is the 40th day at noon. *)
Definition day : Z := 86400 * 1000000.

Definition now : Z := 40 * day + day / 2.

Definition list_blobs (_ _ : string) : PyExc + list BlobMeta :=
  inr [ {| bm_name := "logs/"; bm_size := Some 0; bm_time_created := Some 0 |};
        {| bm_name := "logs/b.log"; bm_size := Some 20; bm_time_created := Some (5 * day) |};
        {| bm_name := "logs/new.log"; bm_size := Some 7;
           bm_time_created := Some (35 * day) |};
        {| bm_name := "logs/a.log"; bm_size := None; bm_time_created := Some (2 * day) |} ].

End Archive.


(** ** Reasoning about the monad *)

Lemma bind_Ret {A B} (m : M A) (k : A -> M B) tr b tr' :
  bind m k tr = (Ret b, tr') ->
  exists a tr1, m tr = (Ret a, tr1) /\ k a tr1 = (Ret b, tr').
Proof.
  unfold bind. destruct (m tr) as [[a | e |] tr1]; intros H; try discriminate.
  eauto.
Qed.

Lemma ret_Ret {A} (a b : A) tr tr' :
  ret a tr = (Ret b, tr') -> a = b /\ tr = tr'.
Proof. unfold ret. intros H. inversion H. auto. Qed.

Lemma call_Ret {A} ev (answer : Trace -> A) tr a tr' :
  call ev answer tr = (Ret a, tr') -> a = answer tr /\ tr' = tr ++ [ev].
Proof. unfold call. intros H. inversion H. auto. Qed.

Lemma try_except_Ret {A} (m : M A) h tr a tr' :
  try_except m h tr = (Ret a, tr') ->
  m tr = (Ret a, tr') \/ exists e tr1, m tr = (Raise e, tr1) /\ h e tr1 = (Ret a, tr').
Proof.
  unfold try_except. destruct (m tr) as [[x | e |] tr1]; intros H; eauto.
Qed.

(** A loop keeps what each of its turns keeps. *)
Lemma for_each_invariant {A B} (P : B -> Trace -> Prop) (l : list A)
    (body : B -> A -> M B) :
  (forall acc x tr acc' tr',
      In x l -> P acc tr -> body acc x tr = (Ret acc', tr') -> P acc' tr') ->
  forall acc tr acc' tr',
    P acc tr -> for_each l body acc tr = (Ret acc', tr') -> P acc' tr'.
Proof.
  induction l as [| x l IH]; intros Hbody acc tr acc' tr' HP Hrun; simpl in Hrun.
  - apply ret_Ret in Hrun as [-> ->]. exact HP.
  - apply bind_Ret in Hrun as (acc1 & tr1 & Hx & Hrest).
    eapply IH; [| | exact Hrest].
    + intros ? y ? ? ? Hy. apply Hbody. now right.
    + eapply Hbody; [now left | exact HP | exact Hx].
Qed.

Ltac bind_inv H :=
  let a := fresh "a" in
  let tr := fresh "tr" in
  let H1 := fresh H in
  apply bind_Ret in H as (a & tr & H1 & H).

(** ** More fuel, same run *)

Lemma bind_stable {A B} (m : M A) (k1 k2 : A -> M B) tr o tr' :
  bind m k1 tr = (o, tr') ->
  (forall a t, m tr = (Ret a, t) -> k1 a t = (o, tr') -> k2 a t = (o, tr')) ->
  bind m k2 tr = (o, tr').
Proof.
  unfold bind. destruct (m tr) as [[a | e |] t]; intros H Hk; auto.
Qed.

Lemma for_each_stable {A B} (l : list A) (body1 body2 : B -> A -> M B) :
  (forall acc x tr o tr',
      body1 acc x tr = (o, tr') -> o <> OutOfFuel -> body2 acc x tr = (o, tr')) ->
  forall acc tr o tr',
    for_each l body1 acc tr = (o, tr') -> o <> OutOfFuel ->
    for_each l body2 acc tr = (o, tr').
Proof.
  intros Hbody. induction l as [| x l IH]; intros acc tr o tr' H Ho; simpl in *;
    [exact H |].
  unfold bind in *.
  destruct (body1 acc x tr) as [[a | e |] t] eqn:H1.
  - rewrite (Hbody _ _ _ _ _ H1) by discriminate. now apply IH.
  - rewrite (Hbody _ _ _ _ _ H1) by discriminate. exact H.
  - inversion H; subst. now destruct Ho.
Qed.

(** The first action of a sequence may be replaced by one that runs the
    same way whenever the first ends. *)
Lemma bind_head_stable {A B} (m1 m2 : M A) (k : A -> M B) tr o tr' :
  (forall o1 t1, m1 tr = (o1, t1) -> o1 <> OutOfFuel -> m2 tr = (o1, t1)) ->
  bind m1 k tr = (o, tr') -> o <> OutOfFuel ->
  bind m2 k tr = (o, tr').
Proof.
  unfold bind. intros Hm H Ho.
  destruct (m1 tr) as [[a | e |] t] eqn:H1.
  - now rewrite (Hm _ _ eq_refl) by discriminate.
  - now rewrite (Hm _ _ eq_refl) by discriminate.
  - inversion H; subst. now destruct Ho.
Qed.

Section Fuel.

Variable gw : Gateway.

(** A run of [scan_folder_recursive] that ends, in a node or in an
    exception, ends the same way with more fuel. *)
Lemma scan_folder_recursive_fuel fuel :
  forall bucket_name folder_path exposed parent tr o tr',
    scan_folder_recursive gw fuel bucket_name folder_path exposed parent tr = (o, tr') ->
    o <> OutOfFuel ->
    forall fuel', (fuel <= fuel')%nat ->
    scan_folder_recursive gw fuel' bucket_name folder_path exposed parent tr = (o, tr').
Proof.
  induction fuel as [| fuel IH];
    intros bucket_name folder_path exposed parent tr o tr' H Ho fuel' Hle.
  { inversion H; subst. now destruct Ho. }
  destruct fuel' as [| fuel']; [lia |].
  cbn [scan_folder_recursive] in H |- *.
  eapply bind_stable; [exact H |]. intros pub t _ H1. cbv beta in H1 |- *.
  destruct (classify_reason exposed (PyStr.rstrip "/" folder_path) parent pub) as [r st].
  eapply bind_stable; [exact H1 |]. intros items t1 _ H2. cbv beta in H2 |- *.
  eapply bind_head_stable; [| exact H2 | exact Ho].
  intros o1 t2 Hloop Ho1.
  eapply for_each_stable; [| exact Hloop | exact Ho1].
  intros acc x t3 o3 t4 Hb Ho3. cbv beta in Hb |- *.
  destruct (direct_subfolder folder_path x); [| exact Hb].
  eapply bind_head_stable; [| exact Hb | exact Ho3].
  intros o4 t5 Hc Ho4. eapply IH; [exact Hc | exact Ho4 | lia].
Qed.

(** The same for [build_fine_grained_tree]. *)
Lemma build_fine_grained_tree_fuel fuel :
  forall bucket_name prefix tr o tr',
    build_fine_grained_tree gw fuel bucket_name prefix tr = (o, tr') ->
    o <> OutOfFuel ->
    forall fuel', (fuel <= fuel')%nat ->
    build_fine_grained_tree gw fuel' bucket_name prefix tr = (o, tr').
Proof.
  induction fuel as [| fuel IH]; intros bucket_name prefix tr o tr' H Ho fuel' Hle.
  { inversion H; subst. now destruct Ho. }
  destruct fuel' as [| fuel']; [lia |].
  cbn [build_fine_grained_tree] in H |- *.
  eapply bind_stable; [exact H |]. intros items t _ H1. cbv beta in H1 |- *.
  eapply bind_stable; [exact H1 |]. intros result t1 _ H2. cbv beta in H2 |- *.
  eapply for_each_stable; [| exact H2 | exact Ho].
  intros acc x t3 o3 t4 Hb Ho3. cbv beta in Hb |- *.
  eapply bind_head_stable; [| exact Hb | exact Ho3].
  intros o4 t5 Hc Ho4. eapply IH; [exact Hc | exact Ho4 | lia].
Qed.

End Fuel.

(** ** Trees: a node below the root is in the tree of a subfolder *)

Lemma descendant_inv d a :
  descendant d a -> exists c, In c (subfolders a) /\ in_tree d c.
Proof.
  intros [a' c Hc | a' c d' Hc Hd]; exists c; split; auto; [now left | now right].
Qed.

Lemma in_tree_child n c root :
  In c (subfolders root) -> in_tree n c -> in_tree n root.
Proof.
  intros Hc [-> | Hd]; right; [now constructor | econstructor 2; eassumption].
Qed.

Lemma in_tree_trans n m root : in_tree n m -> in_tree m root -> in_tree n root.
Proof.
  intros Hn [-> | Hm]; [exact Hn |].
  induction Hm as [a c Hc | a c d Hc Hd IH].
  - eapply in_tree_child; eassumption.
  - eapply in_tree_child; [exact Hc | apply IH; exact Hn].
Qed.

Lemma fine_descendant_inv d a :
  fine_descendant d a -> exists c, In c (fg_subfolders a) /\ in_fine_tree d c.
Proof.
  intros [a' c Hc | a' c d' Hc Hd]; exists c; split; auto; [now left | now right].
Qed.

(** ** The recursive scan, one level at a time *)

Section ScanFacts.

Variable gw : Gateway.

(** What a call that returns went through: the classification, the listing
    and the loop over the listed folders. *)
Lemma scan_folder_recursive_Ret fuel bucket_name folder_path exposed parent tr node tr' :
  scan_folder_recursive gw (S fuel) bucket_name folder_path exposed parent tr
    = (Ret node, tr') ->
  let clean_path := PyStr.rstrip "/" folder_path in
  exists pub tr1 items tr2 subs,
    (if parent then ret true
     else if has_key clean_path exposed then ret true
     else check_public_access_http gw bucket_name (clean_path +:+ "/")) tr
      = (Ret pub, tr1) /\
    _list_folders_and_objects_raw gw bucket_name folder_path tr1 = (Ret items, tr2) /\
    for_each (folders items)
      (fun acc subfolder =>
         if direct_subfolder folder_path subfolder then
           subfolder_result <--
             scan_folder_recursive gw fuel bucket_name subfolder exposed pub ;;
           ret (acc ++ [subfolder_result])
         else ret acc) [] tr2 = (Ret subs, tr') /\
    node = {| path := folder_path;
              name := if PyStr.contains "/" clean_path
                      then PyStr.last_segment "/" clean_path else clean_path;
              is_public := pub;
              reason := fst (classify_reason exposed clean_path parent pub);
              subfolders := subs;
              objects := listed_objects items;
              object_count := Z.of_nat (List.length (listed_objects items));
              objects_status := snd (classify_reason exposed clean_path parent pub) |}.
Proof.
  intros H clean_path. cbn [scan_folder_recursive] in H. fold clean_path in H.
  bind_inv H. rename a into pub.
  destruct (classify_reason exposed clean_path parent pub) as [r st] eqn:Hr.
  bind_inv H. rename a into items. bind_inv H. rename a into subs.
  apply ret_Ret in H as [<- <-].
  exists pub, tr0, items, tr1, subs. rewrite Hr. auto.
Qed.

(** The flag a call returns is set as soon as the parent's is. *)
Lemma scan_is_public_parent fuel bucket_name folder_path exposed tr node tr' :
  scan_folder_recursive gw fuel bucket_name folder_path exposed true tr
    = (Ret node, tr') ->
  is_public node = true.
Proof.
  destruct fuel as [| fuel]; [discriminate |]. intros H.
  apply scan_folder_recursive_Ret in H as (pub & tr1 & items & tr2 & subs & Hc & _ & _ & ->).
  apply ret_Ret in Hc as [<- _]. reflexivity.
Qed.

(** A property of nodes that every level of the scan establishes holds at
    every node of the tree; the level may use that the subfolders of a public
    node are public. *)
Lemma scan_every_node (P : FolderNode -> Prop) bucket_name exposed :
  (forall fuel folder_path parent tr node tr',
      scan_folder_recursive gw (S fuel) bucket_name folder_path exposed parent tr
        = (Ret node, tr') ->
      (forall c, In c (subfolders node) ->
                 is_public node = true -> is_public c = true) ->
      P node) ->
  forall fuel folder_path parent tr node tr',
    scan_folder_recursive gw fuel bucket_name folder_path exposed parent tr
      = (Ret node, tr') ->
    forall n, in_tree n node -> P n.
Proof.
  intros HP. induction fuel as [| fuel IH]; [discriminate |].
  intros folder_path parent tr node tr' H.
  pose proof H as Hnode.
  apply scan_folder_recursive_Ret in H
    as (pub & tr1 & items & tr2 & subs & Hc & Hl & Hloop & Heq).
  assert (Hsubs : Forall (fun c => (forall n, in_tree n c -> P n) /\
                                   (pub = true -> is_public c = true)) subs).
  { eapply (for_each_invariant
              (fun acc _ => Forall (fun c => (forall n, in_tree n c -> P n) /\
                                             (pub = true -> is_public c = true)) acc))
      in Hloop; [exact Hloop | | constructor].
    intros acc x t acc' t' _ Hacc Hbody.
    destruct (direct_subfolder folder_path x).
    - bind_inv Hbody. apply ret_Ret in Hbody as [<- _].
      apply Forall_app. split; [exact Hacc |]. constructor; [| constructor].
      split; [eapply IH; eassumption |].
      intros ->. eapply scan_is_public_parent; eassumption.
    - apply ret_Ret in Hbody as [<- _]. exact Hacc. }
  rewrite Forall_forall in Hsubs.
  intros n [-> | Hd].
  - eapply HP; [exact Hnode |]. subst node. cbn [subfolders is_public].
    intros c Hin Hpub. apply Hsubs; auto. apply list_elem_of_In. exact Hin.
  - apply descendant_inv in Hd as (c & Hin & Hn). subst node. cbn [subfolders] in Hin.
    apply list_elem_of_In in Hin. apply (Hsubs c Hin). exact Hn.
Qed.

End ScanFacts.

Section FineFacts.

Variable gw : Gateway.

(** A turn of the loop over the objects adds at most one entry, counts it,
    and leaves the subfolders alone. *)
Lemma classify_object_Ret bucket_name result obj_name tr result' tr' :
  classify_object gw bucket_name result obj_name tr = (Ret result', tr') ->
  result' = result \/
  exists pub,
    result' = {| fg_path := fg_path result;
                 fg_subfolders := fg_subfolders result;
                 fg_objects := fg_objects result ++
                               [ {| oe_name := obj_name; oe_is_public := pub |} ];
                 total_object_count := total_object_count result + 1;
                 public_object_count := public_object_count result + count_if pub |}.
Proof.
  unfold classify_object. intros H.
  apply try_except_Ret in H as [H | (e & tr1 & _ & H)].
  - bind_inv H. apply ret_Ret in H as [<- _]. right. eauto.
  - apply ret_Ret in H as [<- _]. now left.
Qed.

(** What a call that returns went through: the listing, the loop over the
    objects and the loop over the listed folders. *)
Lemma build_fine_grained_tree_Ret fuel bucket_name prefix tr node tr' :
  build_fine_grained_tree gw (S fuel) bucket_name prefix tr = (Ret node, tr') ->
  exists items tr1 result tr2,
    _list_folders_and_objects_raw gw bucket_name prefix tr = (Ret items, tr1) /\
    for_each (listed_objects items) (classify_object gw bucket_name)
      {| fg_path := match PyStr.rstrip "/" prefix with
                    | EmptyString => "root"
                    | p => p
                    end;
         fg_subfolders := [];
         fg_objects := [];
         total_object_count := 0;
         public_object_count := 0 |} tr1 = (Ret result, tr2) /\
    for_each (folders items)
      (fun result subfolder =>
         subfolder_result <-- build_fine_grained_tree gw fuel bucket_name subfolder ;;
         ret {| fg_path := fg_path result;
                fg_subfolders := fg_subfolders result ++ [subfolder_result];
                fg_objects := fg_objects result;
                total_object_count :=
                  total_object_count result + total_object_count subfolder_result;
                public_object_count :=
                  public_object_count result + public_object_count subfolder_result |})
      result tr2 = (Ret node, tr').
Proof.
  intros H. cbn [build_fine_grained_tree] in H.
  bind_inv H. bind_inv H. eauto 10.
Qed.

Lemma objects_loop_no_subfolders bucket_name l result tr result' tr' :
  for_each l (classify_object gw bucket_name) result tr = (Ret result', tr') ->
  fg_subfolders result = [] -> fg_subfolders result' = [].
Proof.
  intros H H0.
  eapply (for_each_invariant (fun acc _ => fg_subfolders acc = [])) in H; eauto.
  intros acc x t acc' t' _ Hacc Hbody.
  apply classify_object_Ret in Hbody as [-> | (pub & ->)]; auto.
Qed.

(** A property that every level of the tree builder establishes holds at
    every node of the tree. *)
Lemma build_every_node (P : FineNode -> Prop) bucket_name :
  (forall fuel prefix tr node tr',
      build_fine_grained_tree gw (S fuel) bucket_name prefix tr = (Ret node, tr') ->
      P node) ->
  forall fuel prefix tr node tr',
    build_fine_grained_tree gw fuel bucket_name prefix tr = (Ret node, tr') ->
    forall n, in_fine_tree n node -> P n.
Proof.
  intros HP. induction fuel as [| fuel IH]; [discriminate |].
  intros prefix tr node tr' H.
  pose proof (HP _ _ _ _ _ H) as HPn.
  apply build_fine_grained_tree_Ret in H
    as (items & tr1 & result & tr2 & _ & Hobjs & Hloop).
  apply objects_loop_no_subfolders in Hobjs; [| reflexivity].
  assert (Hsubs : Forall (fun c => forall n, in_fine_tree n c -> P n)
                         (fg_subfolders node)).
  { eapply (for_each_invariant
              (fun acc _ => Forall (fun c => forall n, in_fine_tree n c -> P n)
                                   (fg_subfolders acc)))
      in Hloop; [exact Hloop | | rewrite Hobjs; constructor].
    intros acc x t acc' t' _ Hacc Hbody.
    bind_inv Hbody. apply ret_Ret in Hbody as [<- _]. cbn [fg_subfolders].
    apply Forall_app. split; [exact Hacc |]. constructor; [| constructor].
    eapply IH; eassumption. }
  rewrite Forall_forall in Hsubs.
  intros n [-> | Hd]; [exact HPn |].
  apply fine_descendant_inv in Hd as (c & Hin & Hn).
  apply list_elem_of_In in Hin. apply (Hsubs c Hin). exact Hn.
Qed.

(** The total of a node of the fine-grained tree: its recorded objects and
    the totals of its subfolders. *)
Lemma build_count_level fuel bucket_name prefix tr node tr' :
  build_fine_grained_tree gw (S fuel) bucket_name prefix tr = (Ret node, tr') ->
  fine_count_aggregated node.
Proof.
  intros H.
  apply build_fine_grained_tree_Ret in H
    as (items & tr1 & result & tr2 & _ & Hobjs & Hloop).
  unfold fine_count_aggregated.
  assert (H1 : total_object_count result = Z.of_nat (List.length (fg_objects result))
               /\ fg_subfolders result = []).
  { eapply (for_each_invariant
              (fun acc _ => total_object_count acc = Z.of_nat (List.length (fg_objects acc))
                            /\ fg_subfolders acc = [])) in Hobjs; [exact Hobjs | | now split].
    intros acc x t acc' t' _ [Hacc Hs] Hbody.
    apply classify_object_Ret in Hbody as [-> | (pub & ->)]; [now split |].
    cbn [total_object_count fg_objects fg_subfolders]. split; [| exact Hs].
    rewrite length_app. simpl. lia. }
  destruct H1 as [Ht Hs].
  eapply (for_each_invariant
            (fun acc _ => total_object_count acc =
                          Z.of_nat (List.length (fg_objects acc)) +
                          sum_counts (map total_object_count (fg_subfolders acc))))
    in Hloop; [exact Hloop | |].
  - intros acc x t acc' t' _ Hacc Hbody.
    bind_inv Hbody. apply ret_Ret in Hbody as [<- _].
    cbn [total_object_count fg_objects fg_subfolders].
    rewrite map_app. unfold sum_counts in *. rewrite fold_right_app. simpl.
    rewrite Hacc.
    generalize (map total_object_count (fg_subfolders acc)) as l.
    generalize (total_object_count a) as z. clear.
    intros z l. induction l as [| y l IH]; simpl; lia.
  - rewrite Hs, Ht. simpl. lia.
Qed.

End FineFacts.

(** ** The propagation invariant *)

(** C1. In every tree that [scan_folder_recursive] returns, a node built
    under a public parent is public: the root when the flag of its parent is
    set, and every subfolder of a public node.  Equivalently, no node that is
    not public has a public ancestor. *)
Theorem propagation_invariant gw fuel bucket_name folder_path exposed parent tr node tr' :
  scan_folder_recursive gw fuel bucket_name folder_path exposed parent tr
    = (Ret node, tr') ->
  (parent = true -> is_public node = true) /\
  (forall n c, in_tree n node -> In c (subfolders n) ->
               is_public n = true -> is_public c = true) /\
  (forall a d, in_tree a node -> descendant d a ->
               is_public d = false -> is_public a = false).
Proof.
  intros H.
  assert (Hall : forall n, in_tree n node ->
                           forall c, In c (subfolders n) ->
                                     is_public n = true -> is_public c = true).
  { eapply (scan_every_node gw
              (fun n => forall c, In c (subfolders n) ->
                                  is_public n = true -> is_public c = true));
      [| exact H].
    intros ? ? ? ? n ? _ Hch. exact Hch. }
  split; [| split].
  - intros ->. eapply scan_is_public_parent; eassumption.
  - intros n c Hn. now apply Hall.
  - intros a d Ha Hd Hpriv.
    destruct (is_public a) eqn:Hpub; [| reflexivity].
    assert (Hpd : is_public d = true); [| congruence].
    clear Hpriv. induction Hd as [a c Hc | a c d Hc Hd IH].
    + eapply Hall; eassumption.
    + apply IH; [eapply in_tree_trans; [| exact Ha]; right; now constructor |].
      eapply Hall; eassumption.
Qed.

Lemma propagation_invariant_witness :
  exists node tr',
    scan_folder_recursive Demo.uniform 3 "demo" "public/"
      (get_exposed_prefixes_from_iam Demo.policy "demo") false [] = (Ret node, tr') /\
    (false = true -> is_public node = true) /\
    (forall n c, in_tree n node -> In c (subfolders n) ->
                 is_public n = true -> is_public c = true) /\
    (forall a d, in_tree a node -> descendant d a ->
                 is_public d = false -> is_public a = false).
Proof.
  eexists. eexists. split.
  - vm_compute. reflexivity.
  - eapply (propagation_invariant Demo.uniform 3 "demo" "public/"
              (get_exposed_prefixes_from_iam Demo.policy "demo") false []).
    vm_compute. reflexivity.
Defined.

(** ** Object counts *)

Lemma scan_count_level gw fuel bucket_name folder_path exposed parent tr node tr' :
  scan_folder_recursive gw (S fuel) bucket_name folder_path exposed parent tr
    = (Ret node, tr') ->
  object_count node = Z.of_nat (List.length (objects node)).
Proof.
  intros H.
  apply scan_folder_recursive_Ret in H as (pub & tr1 & items & tr2 & subs & _ & _ & _ & ->).
  reflexivity.
Qed.

(** C2, as the claim states it, fails on the uniform-access tree: the scan of
    [docs/] in the demo bucket records one object at the root, the root holds
    one direct object, and its two subfolders record three more. *)
Lemma count_aggregation_counterexample :
  exists node tr',
    scan_folder_recursive Demo.uniform 3 "demo" "docs/"
      (get_exposed_prefixes_from_iam Demo.policy "demo") false [] = (Ret node, tr') /\
    object_count node = 1 /\
    Z.of_nat (List.length (objects node)) = 1 /\
    sum_counts (map object_count (subfolders node)) = 3 /\
    ~ count_aggregated node.
Proof.
  eexists. eexists. split; [vm_compute; reflexivity |].
  repeat split; try (vm_compute; reflexivity).
  unfold count_aggregated. vm_compute. discriminate.
Qed.

(** C2, amended.  In every tree that [scan_folder_recursive] returns, the
    [object_count] of a node is the number of its direct objects; in every
    tree that [build_fine_grained_tree] returns, the [total_object_count] of
    a node is the number of its recorded objects plus the sum of the totals
    of its subfolders. *)
Theorem count_aggregation_amended :
  (forall gw fuel bucket_name folder_path exposed parent tr node tr',
      scan_folder_recursive gw fuel bucket_name folder_path exposed parent tr
        = (Ret node, tr') ->
      forall n, in_tree n node ->
                object_count n = Z.of_nat (List.length (objects n))) /\
  (forall gw fuel bucket_name prefix tr node tr',
      build_fine_grained_tree gw fuel bucket_name prefix tr = (Ret node, tr') ->
      forall n, in_fine_tree n node -> fine_count_aggregated n).
Proof.
  split.
  - intros gw fuel bucket_name folder_path exposed parent tr node tr' H.
    eapply (scan_every_node gw
              (fun n => object_count n = Z.of_nat (List.length (objects n))));
      [| exact H].
    intros. eapply scan_count_level; eassumption.
  - intros gw fuel bucket_name prefix tr node tr' H.
    eapply (build_every_node gw fine_count_aggregated); [| exact H].
    intros. eapply build_count_level; eassumption.
Qed.

Lemma count_aggregation_amended_witness :
  (exists node tr',
      scan_folder_recursive Demo.uniform 3 "demo" "docs/"
        (get_exposed_prefixes_from_iam Demo.policy "demo") false [] = (Ret node, tr') /\
      forall n, in_tree n node ->
                object_count n = Z.of_nat (List.length (objects n))) /\
  (exists node tr',
      build_fine_grained_tree Demo.fine 3 "demo" "docs/" [] = (Ret node, tr') /\
      forall n, in_fine_tree n node -> fine_count_aggregated n).
Proof.
  split.
  - eexists. eexists. split; [vm_compute; reflexivity |].
    eapply (proj1 count_aggregation_amended Demo.uniform 3%nat "demo" "docs/"
              (get_exposed_prefixes_from_iam Demo.policy "demo") false []).
    vm_compute. reflexivity.
  - eexists. eexists. split; [vm_compute; reflexivity |].
    eapply (proj2 count_aggregation_amended Demo.fine 3%nat "demo" "docs/" []).
    vm_compute. reflexivity.
Defined.

(** ** The classifier *)

Lemma no_probe_refl tr : no_probe tr tr.
Proof. exists []. split; [now rewrite app_nil_r | reflexivity]. Qed.

Lemma no_probe_trans t1 t2 t3 : no_probe t1 t2 -> no_probe t2 t3 -> no_probe t1 t3.
Proof.
  intros (e1 & -> & H1) (e2 & -> & H2). exists (e1 ++ e2).
  split; [now rewrite app_assoc | now rewrite forallb_app, H1, H2].
Qed.

Lemma listing_no_probe gw bucket_name prefix tr items tr' :
  _list_folders_and_objects_raw gw bucket_name prefix tr = (Ret items, tr') ->
  no_probe tr tr'.
Proof.
  unfold _list_folders_and_objects_raw. intros H.
  apply bind_Ret in H as (r & t & Hcall & H).
  apply call_Ret in Hcall as [_ ->].
  assert (tr ++ [EvListBlobs bucket_name prefix] = tr') as <-.
  { destruct r as [[] | []]; inversion H; reflexivity. }
  exists [EvListBlobs bucket_name prefix]. auto.
Qed.

(** Below a public parent the scan asks the IAM exposure and the listing
    only. *)
Lemma scan_public_parent_no_probe gw fuel :
  forall bucket_name folder_path exposed tr node tr',
    scan_folder_recursive gw fuel bucket_name folder_path exposed true tr
      = (Ret node, tr') ->
    no_probe tr tr'.
Proof.
  induction fuel as [| fuel IH]; [discriminate |].
  intros bucket_name folder_path exposed tr node tr' H.
  apply scan_folder_recursive_Ret in H
    as (pub & tr1 & items & tr2 & subs & Hc & Hl & Hloop & _).
  apply ret_Ret in Hc as [<- <-].
  apply listing_no_probe in Hl.
  eapply no_probe_trans; [exact Hl |].
  eapply (for_each_invariant (fun _ t => no_probe tr2 t)) in Hloop;
    [exact Hloop | | apply no_probe_refl].
  intros acc x t acc' t' _ Hacc Hbody.
  destruct (direct_subfolder folder_path x).
  - bind_inv Hbody. apply ret_Ret in Hbody as [_ <-].
    eapply no_probe_trans; [exact Hacc |]. eapply IH; eassumption.
  - apply ret_Ret in Hbody as [_ <-]. exact Hacc.
Qed.

(** Every key of the map that [get_exposed_prefixes_from_iam] builds holds
    at least one entry. *)
Lemma expose_binding_nonempty bucket_name exposed binding :
  exposure_entries_nonempty exposed ->
  exposure_entries_nonempty (expose_binding bucket_name exposed binding).
Proof.
  intros Hne. unfold expose_binding.
  destruct (List.filter is_public_principal (members binding)) as [| m ms]; [exact Hne |].
  destruct (negb (is_object_read_role (role binding))); [exact Hne |].
  destruct (condition binding) as [expr |].
  - destruct (_extract_prefix_from_condition expr bucket_name) as [prefix |]; [| exact Hne].
    intros k l. rewrite lookup_insert. case_decide.
    + intros [= <-]. destruct (default [] (exposed !! prefix)); discriminate.
    + apply Hne.
  - intros k l. rewrite lookup_insert. case_decide.
    + intros [= <-]. discriminate.
    + apply Hne.
Qed.

Lemma get_exposed_prefixes_nonempty policy bucket_name :
  exposure_entries_nonempty (get_exposed_prefixes_from_iam policy bucket_name).
Proof.
  unfold get_exposed_prefixes_from_iam.
  assert (H0 : exposure_entries_nonempty (∅ : ExposureMap)).
  { intros k l. rewrite lookup_empty. discriminate. }
  revert H0. generalize (∅ : ExposureMap) as exposed.
  induction policy as [| b policy IH]; intros exposed H0; simpl; [exact H0 |].
  apply IH. now apply expose_binding_nonempty.
Qed.

(** Without a public parent and without an entry in the map, the probe of
    the folder's URL decides. *)
Lemma scan_classified_by_probe gw fuel bucket_name folder_path exposed tr node tr' :
  scan_folder_recursive gw fuel bucket_name folder_path exposed false tr
    = (Ret node, tr') ->
  has_key (PyStr.rstrip "/" folder_path) exposed = false ->
  is_public node =
    http_says_public
      (gw_head gw tr (probe_url bucket_name (PyStr.rstrip "/" folder_path +:+ "/"))) /\
  reason node = if is_public node
                then "Detected public via HTTP access test"
                else "Private (no IAM condition, HTTP test failed)".
Proof.
  intros H Hkey. destruct fuel as [| fuel]; [discriminate |].
  apply scan_folder_recursive_Ret in H
    as (pub & tr1 & items & tr2 & subs & Hc & _ & _ & Hnode).
  cbv zeta in Hc, Hnode. rewrite Hkey in Hc.
  unfold check_public_access_http in Hc.
  apply bind_Ret in Hc as (response & t & Hcall & Hc).
  apply call_Ret in Hcall as [-> ->].
  assert (Hpub : pub = http_says_public
                         (gw_head gw tr (probe_url bucket_name
                                           (PyStr.rstrip "/" folder_path +:+ "/")))).
  { destruct (gw_head gw tr _); simpl; try discriminate;
      apply ret_Ret in Hc as [<- _]; reflexivity. }
  subst node. cbn [is_public reason]. split; [exact Hpub |].
  unfold classify_reason. rewrite Hkey. now destruct pub.
Qed.

(** C3. The decision order of the classifier of [scan_folder_recursive], on
    a map whose keys hold at least one entry (as every map built by
    [get_exposed_prefixes_from_iam] does).  A public parent makes the node
    public, the reason names the parent, and no probe is issued.  Otherwise
    a prefix that is a key of the map makes the node public, the reason is
    the text [Direct public via IAM condition: ] followed by the role of the
    first entry, and no probe is issued in the whole call.  Otherwise the
    node is public exactly when the probe of the folder's URL answers 200,
    and the reason tells which. *)
Theorem classifier_decision_order gw fuel bucket_name folder_path exposed parent tr node tr' :
  exposure_entries_nonempty exposed ->
  scan_folder_recursive gw fuel bucket_name folder_path exposed parent tr
    = (Ret node, tr') ->
  let clean_path := PyStr.rstrip "/" folder_path in
  (parent = true ->
     is_public node = true /\
     reason node = "Parent folder is public, so this folder is public" /\
     no_probe tr tr') /\
  (parent = false -> has_key clean_path exposed = true ->
     is_public node = true /\
     (exists d ds, exposed !! clean_path = Some (d :: ds) /\
                   reason node = "Direct public via IAM condition: " +:+ eb_role d) /\
     PyStr.contains "IAM condition" (reason node) = true /\
     no_probe tr tr') /\
  (parent = false -> has_key clean_path exposed = false ->
     is_public node =
       http_says_public (gw_head gw tr (probe_url bucket_name (clean_path +:+ "/"))) /\
     reason node = if is_public node
                   then "Detected public via HTTP access test"
                   else "Private (no IAM condition, HTTP test failed)").
Proof.
  intros Hne H clean_path.
  destruct fuel as [| fuel]; [discriminate |].
  pose proof H as Hrun.
  apply scan_folder_recursive_Ret in H
    as (pub & tr1 & items & tr2 & subs & Hc & Hl & Hloop & Hnode).
  fold clean_path in Hc, Hnode.
  split; [| split].
  - intros ->. apply ret_Ret in Hc as [<- <-]. subst node. cbn.
    repeat split. eapply scan_public_parent_no_probe; exact Hrun.
  - intros -> Hkey. rewrite Hkey in Hc. apply ret_Ret in Hc as [<- <-].
    assert (Hd : exists d ds, exposed !! clean_path = Some (d :: ds)).
    { unfold has_key in Hkey. destruct (exposed !! clean_path) as [l |] eqn:Hk;
        [| discriminate].
      destruct l as [| d ds]; [now apply Hne in Hk | eauto]. }
    destruct Hd as (d & ds & Hk).
    assert (Hreason : reason node = "Direct public via IAM condition: " +:+ eb_role d).
    { subst node. cbn [reason]. unfold classify_reason. rewrite Hkey, Hk. reflexivity. }
    split; [now subst node |]. split; [eauto |]. split.
    + rewrite Hreason. reflexivity.
    + apply listing_no_probe in Hl. eapply no_probe_trans; [exact Hl |].
      eapply (for_each_invariant (fun _ t => no_probe tr2 t)) in Hloop;
        [exact Hloop | | apply no_probe_refl].
      intros acc x t acc' t' _ Hacc Hbody.
      destruct (direct_subfolder folder_path x).
      * bind_inv Hbody. apply ret_Ret in Hbody as [_ <-].
        eapply no_probe_trans; [exact Hacc |].
        eapply scan_public_parent_no_probe; eassumption.
      * apply ret_Ret in Hbody as [_ <-]. exact Hacc.
  - intros -> Hkey. eapply scan_classified_by_probe; eassumption.
Qed.

Lemma classifier_decision_order_witness :
  exists node tr',
    exposure_entries_nonempty (get_exposed_prefixes_from_iam Demo.policy "demo") /\
    scan_folder_recursive Demo.uniform 3 "demo" "public/"
      (get_exposed_prefixes_from_iam Demo.policy "demo") false [] = (Ret node, tr') /\
    is_public node = true /\
    PyStr.contains "IAM condition" (reason node) = true /\
    no_probe [] tr'.
Proof.
  eexists. eexists.
  assert (Hrun : scan_folder_recursive Demo.uniform 3 "demo" "public/"
            (get_exposed_prefixes_from_iam Demo.policy "demo") false []
          = (Ret _, _)) by (vm_compute; reflexivity).
  pose proof (classifier_decision_order Demo.uniform 3 "demo" "public/"
                (get_exposed_prefixes_from_iam Demo.policy "demo") false [] _ _
                (get_exposed_prefixes_nonempty Demo.policy "demo") Hrun)
    as (_ & Hiam & _).
  specialize (Hiam eq_refl ltac:(vm_compute; reflexivity)) as (Hp & _ & Hr & Hn).
  repeat split; [apply get_exposed_prefixes_nonempty | exact Hrun | exact Hp
                 | exact Hr | exact Hn].
Defined.

(** The folder [private/] of the demo bucket: no entry in the map, a probe
    that fails, a node that is not public. *)
Example classify_private_folder :
  exists node tr',
    scan_folder_recursive Demo.uniform 3 "demo" "private/"
      (get_exposed_prefixes_from_iam Demo.policy "demo") false [] = (Ret node, tr') /\
    is_public node = false /\
    reason node = "Private (no IAM condition, HTTP test failed)".
Proof. eexists. eexists. split; [vm_compute; reflexivity |]. split; reflexivity. Qed.

(** ** The whole-bucket scans *)

(** C4. A uniform-access bucket whose map of exposed prefixes holds the
    empty prefix, or whose root URL answers an anonymous request with 200:
    the scan returns a result whose summary is CRITICAL and whose folder list
    is empty, after the reload, the policy fetch and at most the probe of the
    root.  Nothing is listed and no folder is probed, whatever the fuel. *)
Theorem bucket_public_short_circuit gw fuel bucket_name tr policy :
  gcs_bucket_name bucket_name = true ->
  gw_reload gw tr bucket_name = inr (UblaValue true) ->
  gw_get_iam_policy gw (tr ++ [EvReload bucket_name]) bucket_name = inr policy ->
  let exposed := get_exposed_prefixes_from_iam policy bucket_name in
  let tr2 := tr ++ [EvReload bucket_name; EvGetIamPolicy bucket_name] in
  let root_url := "https://storage.googleapis.com/" +:+ bucket_name in
  has_key "" exposed = true \/ gw_head gw tr2 root_url = HeadResponse 200 ->
  exists r evs,
    scan_bucket_uniform_access gw fuel bucket_name tr
      = (Ret (UniformScanned r), tr2 ++ evs) /\
    summary_status (u_summary r) = Some "CRITICAL" /\
    u_bucket_level_public r = true /\
    u_folders r = [] /\
    u_root_objects r = None /\
    evs = (if has_key "" exposed then [] else [EvHead root_url 5]) /\
    forallb (fun e => negb (is_list_blobs e)) evs = true.
Proof.
  intros _ Hreload Hpolicy exposed tr2 root_url Hpublic.
  exists {| u_bucket_name := bucket_name;
            u_uniform_access := true;
            u_bucket_level_public := true;
            u_folders := [];
            u_summary :=
              SummaryCritical "CRITICAL"
                "Bucket is completely PUBLIC! All folders and objects are exposed."
                "Detected via IAM Policy or HTTP test";
            u_root_objects := None |}.
  exists (if has_key "" exposed then [] else [EvHead root_url 5]).
  split; [| repeat split; now destruct (has_key "" exposed)].
  unfold scan_bucket_uniform_access, try_except, bind at 1, reload, bind at 1, call.
  rewrite Hreload. unfold ret at 1. cbn [negb].
  unfold bind at 1, get_iam_policy, bind at 1, call.
  rewrite Hpolicy. unfold ret at 1. fold exposed.
  unfold bind at 1.
  destruct (has_key "" exposed) eqn:Hkey.
  - unfold ret. rewrite app_nil_r. subst tr2.
    rewrite <- app_assoc. reflexivity.
  - destruct Hpublic as [? | Hhead]; [discriminate |].
    unfold check_public_access_http, bind, call. cbn [probe_url].
    fold root_url. rewrite <- app_assoc. cbn [app]. fold tr2.
    rewrite Hhead. reflexivity.
Qed.

Lemma bucket_public_short_circuit_witness :
  exists r evs,
    scan_bucket_uniform_access
      {| gw_reload := fun _ _ => inr (UblaValue true);
         gw_get_iam_policy := fun _ _ => inr [];
         gw_list_blobs := Demo.list_blobs;
         gw_head := fun _ _ => HeadResponse 200;
         gw_acl_all := Demo.acl_all |} 3 "demo" []
      = (Ret (UniformScanned r),
         [EvReload "demo"; EvGetIamPolicy "demo"] ++ evs) /\
    summary_status (u_summary r) = Some "CRITICAL" /\
    u_bucket_level_public r = true /\
    u_folders r = [] /\
    u_root_objects r = None /\
    evs = [EvHead "https://storage.googleapis.com/demo" 5] /\
    forallb (fun e => negb (is_list_blobs e)) evs = true.
Proof.
  exact (bucket_public_short_circuit
           {| gw_reload := fun _ _ => inr (UblaValue true);
              gw_get_iam_policy := fun _ _ => inr [];
              gw_list_blobs := Demo.list_blobs;
              gw_head := fun _ _ => HeadResponse 200;
              gw_acl_all := Demo.acl_all |} 3 "demo" [] []
           eq_refl eq_refl eq_refl (or_intror eq_refl)).
Defined.

(** C5. The fine-grained scan of a uniform-access bucket, and the uniform
    scan of a fine-grained bucket, return the mode-mismatch dict after the
    reload alone: nothing is raised, no policy is fetched, nothing is listed
    or probed.  The message names the mode the bucket is in. *)
Theorem mode_mismatch gw fuel bucket_name tr :
  (gw_reload gw tr bucket_name = inr (UblaValue true) ->
   exists m,
     scan_bucket_fine_grained_access gw fuel bucket_name tr
       = (Ret (FineMismatch m), tr ++ [EvReload bucket_name]) /\
     mm_error m = "This bucket is not in Fine-Grained mode. Using Uniform Access." /\
     PyStr.contains "Using Uniform Access" (mm_error m) = true /\
     mm_bucket_name m = bucket_name /\
     mm_uniform_access m = true) /\
  (gw_reload gw tr bucket_name = inr (UblaValue false) ->
   exists m,
     scan_bucket_uniform_access gw fuel bucket_name tr
       = (Ret (UniformMismatch m), tr ++ [EvReload bucket_name]) /\
     mm_error m = "This bucket is not in Uniform Access mode. Using fine-grained ACL." /\
     PyStr.contains "Using fine-grained ACL" (mm_error m) = true /\
     mm_bucket_name m = bucket_name /\
     mm_uniform_access m = false).
Proof.
  split; intros Hreload.
  - exists {| mm_error := "This bucket is not in Fine-Grained mode. Using Uniform Access.";
              mm_bucket_name := bucket_name;
              mm_uniform_access := true |}.
    split; [| repeat split].
    unfold scan_bucket_fine_grained_access, try_except, reload, bind, call.
    rewrite Hreload. reflexivity.
  - exists {| mm_error := "This bucket is not in Uniform Access mode. Using fine-grained ACL.";
              mm_bucket_name := bucket_name;
              mm_uniform_access := false |}.
    split; [| repeat split].
    unfold scan_bucket_uniform_access, try_except, reload, bind, call.
    rewrite Hreload. reflexivity.
Qed.

Lemma mode_mismatch_witness :
  (exists m,
     scan_bucket_fine_grained_access Demo.uniform 3 "demo" []
       = (Ret (FineMismatch m), [EvReload "demo"]) /\
     mm_error m = "This bucket is not in Fine-Grained mode. Using Uniform Access.") /\
  (exists m,
     scan_bucket_uniform_access Demo.fine 3 "demo" []
       = (Ret (UniformMismatch m), [EvReload "demo"]) /\
     mm_error m = "This bucket is not in Uniform Access mode. Using fine-grained ACL.").
Proof.
  split.
  - destruct (proj1 (mode_mismatch Demo.uniform 3 "demo" []) eq_refl)
      as (m & Hrun & Herr & _).
    exists m. split; [exact Hrun | exact Herr].
  - destruct (proj2 (mode_mismatch Demo.fine 3 "demo" []) eq_refl)
      as (m & Hrun & Herr & _).
    exists m. split; [exact Hrun | exact Herr].
Defined.

(** ** The HTTP probe *)

(** C6. [check_public_access_http] issues one HEAD request with a timeout of
    5 seconds.  Whenever the request ends in a response or in a
    [requests.RequestException] (a network failure, a timeout), the call
    returns a boolean and raises nothing; the boolean is true exactly when
    the request ended in a response with status 200.  Consequently a folder
    without a public parent and without an entry in the map, whose URL
    answers 200, is classified public with the reason
    [Detected public via HTTP access test]. *)
Theorem http_probe_fail_closed gw bucket_name :
  (forall path tr,
      let url := probe_url bucket_name path in
      (forall e, gw_head gw tr url <> HeadOtherError e) ->
      exists b,
        check_public_access_http gw bucket_name path tr
          = (Ret b, tr ++ [EvHead url 5]) /\
        (b = true <-> gw_head gw tr url = HeadResponse 200)) /\
  (forall fuel folder_path exposed tr node tr',
      has_key (PyStr.rstrip "/" folder_path) exposed = false ->
      gw_head gw tr (probe_url bucket_name (PyStr.rstrip "/" folder_path +:+ "/"))
        = HeadResponse 200 ->
      scan_folder_recursive gw fuel bucket_name folder_path exposed false tr
        = (Ret node, tr') ->
      is_public node = true /\
      reason node = "Detected public via HTTP access test" /\
      PyStr.contains "HTTP" (reason node) = true).
Proof.
  split.
  - intros path tr url Hnot.
    unfold check_public_access_http, bind, call. fold url.
    destruct (gw_head gw tr url) as [status_code | | e] eqn:Hhead.
    + exists (status_code =? 200). split; [reflexivity |].
      rewrite Z.eqb_eq. split; [now intros -> | now intros [= ->]].
    + exists false. split; [reflexivity |]. split; discriminate.
    + now destruct (Hnot e).
  - intros fuel folder_path exposed tr node tr' Hkey Hhead H.
    destruct (scan_classified_by_probe _ _ _ _ _ _ _ _ H Hkey) as [Hpub Hreason].
    rewrite Hhead in Hpub. simpl in Hpub. rewrite Hpub in Hreason.
    rewrite Hreason. auto.
Qed.

Lemma http_probe_fail_closed_witness :
  (exists b,
      check_public_access_http Demo.uniform "demo" "docs/a/" []
        = (Ret b, [EvHead "https://storage.googleapis.com/demo/docs/a/" 5]) /\
      (b = true <->
       gw_head Demo.uniform [] "https://storage.googleapis.com/demo/docs/a/"
         = HeadResponse 200)) /\
  (exists node tr',
      scan_folder_recursive Demo.uniform 3 "demo" "docs/a/"
        (get_exposed_prefixes_from_iam Demo.policy "demo") false [] = (Ret node, tr') /\
      is_public node = true /\
      reason node = "Detected public via HTTP access test").
Proof.
  split.
  - apply (proj1 (http_probe_fail_closed Demo.uniform "demo") "docs/a/" []).
    intros e. vm_compute. discriminate.
  - eexists. eexists.
    assert (Hrun : scan_folder_recursive Demo.uniform 3 "demo" "docs/a/"
              (get_exposed_prefixes_from_iam Demo.policy "demo") false []
            = (Ret _, _)) by (vm_compute; reflexivity).
    destruct (proj2 (http_probe_fail_closed Demo.uniform "demo") 3%nat "docs/a/"
                (get_exposed_prefixes_from_iam Demo.policy "demo") [] _ _
                ltac:(vm_compute; reflexivity) ltac:(vm_compute; reflexivity) Hrun)
      as (Hp & Hr & _).
    split; [exact Hrun | split; [exact Hp | exact Hr]].
Defined.

(** ** The condition parser *)

Module ReFacts.
Import Re.

Lemma append_nil (s : string) : "" +:+ s = s.
Proof. reflexivity. Qed.

Lemma append_cons (c : ascii) (a b : string) : String c a +:+ b = String c (a +:+ b).
Proof. reflexivity. Qed.

Lemma append_assoc (a b c : string) : (a +:+ b) +:+ c = a +:+ b +:+ c.
Proof.
  induction a as [| x a IH]; [reflexivity |].
  rewrite !append_cons. now f_equal.
Qed.

Lemma match_atoms_app p1 p2 s :
  match_atoms (p1 ++ p2) s =
  match match_atoms p1 s with
  | Some r => match_atoms p2 r
  | None => None
  end.
Proof.
  revert s. induction p1 as [| a p1 IH]; intros s; simpl; [reflexivity |].
  destruct s as [| c s]; [reflexivity |].
  destruct (atom_matches a c); [apply IH | reflexivity].
Qed.

Lemma match_lits l s r : match_atoms (lits l) s = Some r <-> s = l +:+ r.
Proof.
  revert s. induction l as [| x l IH]; intros s; simpl.
  - split; [now intros [= ->] | now intros ->].
  - destruct s as [| c s]; [split; discriminate |].
    unfold lits in IH. destruct (Ascii.eqb_spec c x) as [-> | Hne].
    + rewrite IH. split; [now intros -> | now intros [= ->]].
    + split; [discriminate | intros [= -> _]; now destruct Hne].
Qed.

Lemma match_interpolated b s r :
  match_atoms (interpolated b) s = Some r <->
  exists w, s = w +:+ r /\ names_bucket b w = true.
Proof.
  revert s. induction b as [| p b IH]; intros s.
  - simpl. split.
    + intros [= ->]. now exists "".
    + intros ([| c w] & -> & Hw); [reflexivity | discriminate].
  - unfold interpolated in *. cbn [list_ascii_of_string map match_atoms].
    destruct s as [| c s].
    + split; [discriminate |]. intros ([| c w] & Hs & Hw); discriminate.
    + assert (Hatom : atom_matches (if Ascii.eqb p "." then AnyButNewline else Lit p) c
                      = if Ascii.eqb p "." then negb (Ascii.eqb c "010") else Ascii.eqb c p).
      { now destruct (Ascii.eqb p "."). }
      rewrite Hatom. split.
      * destruct (if Ascii.eqb p "." then negb (Ascii.eqb c "010") else Ascii.eqb c p) eqn:Hc;
          [| discriminate].
        intros H. apply IH in H as (w & -> & Hw). exists (String c w).
        split; [reflexivity |]. cbn [names_bucket]. now rewrite Hc, Hw.
      * intros ([| c' w] & Hs & Hw); [discriminate |].
        injection Hs as -> ->. cbn [names_bucket] in Hw.
        apply andb_prop in Hw as [Hc Hw]. rewrite Hc. apply IH. eauto.
Qed.

(** The atoms before the group match exactly the texts of the shape. *)
Lemma match_head predicate b s r :
  match_atoms (head_atoms predicate b) s = Some r <->
  exists q1 w,
    s = ("resource.name." +:+ predicate +:+ "(") +:+
        String q1 ("projects/_/buckets/" +:+ w +:+ "/objects/" +:+ r) /\
    is_quote q1 = true /\ names_bucket b w = true.
Proof.
  unfold head_atoms. rewrite match_atoms_app. split.
  - destruct (match_atoms (lits _) s) as [s1 |] eqn:H1; [| discriminate].
    apply match_lits in H1. subst s.
    rewrite match_atoms_app. cbn [match_atoms].
    destruct s1 as [| q1 s1]; [discriminate |]. cbn [atom_matches].
    destruct (is_quote q1) eqn:Hq; [| discriminate].
    rewrite match_atoms_app.
    destruct (match_atoms (lits _) s1) as [s2 |] eqn:H2; [| discriminate].
    apply match_lits in H2. subst s1.
    rewrite match_atoms_app.
    destruct (match_atoms (interpolated b) s2) as [s3 |] eqn:H3; [| discriminate].
    apply match_interpolated in H3 as (w & -> & Hw).
    intros H4. apply match_lits in H4. subst s3.
    exists q1, w. auto.
  - intros (q1 & w & -> & Hq & Hw).
    assert (H1 : match_atoms (lits ("resource.name." +:+ predicate +:+ "("))
                   (("resource.name." +:+ predicate +:+ "(") +:+
                    String q1 ("projects/_/buckets/" +:+ w +:+ "/objects/" +:+ r))
                 = Some (String q1 ("projects/_/buckets/" +:+ w +:+ "/objects/" +:+ r)))
      by now apply match_lits.
    rewrite H1. rewrite match_atoms_app. cbn [match_atoms atom_matches]. rewrite Hq.
    rewrite match_atoms_app.
    assert (H2 : match_atoms (lits "projects/_/buckets/")
                   ("projects/_/buckets/" +:+ w +:+ "/objects/" +:+ r)
                 = Some (w +:+ "/objects/" +:+ r)) by now apply match_lits.
    rewrite H2. rewrite match_atoms_app.
    assert (H3 : match_atoms (interpolated b) (w +:+ "/objects/" +:+ r)
                 = Some ("/objects/" +:+ r)) by (apply match_interpolated; eauto).
    rewrite H3. now apply match_lits.
Qed.

Lemma match_tail s r :
  match_atoms tail_atoms s = Some r <->
  exists q2, s = String q2 (")" +:+ r) /\ is_quote q2 = true.
Proof.
  unfold tail_atoms. cbn [match_atoms atom_matches]. split.
  - destruct s as [| q2 [| c s]]; try discriminate.
    + destruct (is_quote q2); discriminate.
    + destruct (is_quote q2) eqn:Hq; [| discriminate].
      destruct (Ascii.eqb_spec c ")") as [-> |]; [| discriminate].
      intros [= ->]. eauto.
  - intros (q2 & -> & Hq). rewrite Hq. reflexivity.
Qed.

(** What the group captured holds no quote, and the rest of the pattern
    matches after it. *)
Lemma group_greedy_Some suffix s g :
  group_greedy suffix s = Some g ->
  exists r, s = g +:+ r /\ no_quotes g = true /\ match_atoms suffix r <> None.
Proof.
  revert g. induction s as [| c s IH]; intros g; cbn [group_greedy].
  - destruct (match_atoms suffix "") eqn:Hm; [| discriminate].
    intros [= <-]. exists "". rewrite Hm. now repeat split.
  - assert (Hstop : match match_atoms suffix (String c s) with
                    | Some _ => Some ""
                    | None => None
                    end = Some g ->
                    exists r, String c s = g +:+ r /\ no_quotes g = true /\
                              match_atoms suffix r <> None).
    { destruct (match_atoms suffix (String c s)) eqn:Hm; [| discriminate].
      intros [= <-]. exists (String c s). rewrite Hm. now repeat split. }
    destruct (is_quote c) eqn:Hq; [exact Hstop |].
    destruct (group_greedy suffix s) as [g' |]; [| exact Hstop].
    intros [= <-]. destruct (IH g' eq_refl) as (r & -> & Hg & Hr).
    exists r. repeat split; [| exact Hr].
    unfold no_quotes in *. cbn. now rewrite Hq.
Qed.

(** A text without quotes, followed by the quote and the parenthesis, is
    what the group captures. *)
Lemma group_greedy_exact g q2 after :
  no_quotes g = true -> is_quote q2 = true ->
  group_greedy tail_atoms (g +:+ String q2 (")" +:+ after)) = Some g.
Proof.
  intros Hg Hq. induction g as [| c g IH].
  - rewrite append_nil. cbn [group_greedy]. rewrite Hq.
    assert (H : match_atoms tail_atoms (String q2 (")" +:+ after)) = Some after)
      by (apply match_tail; eauto).
    now rewrite H.
  - rewrite append_cons. cbn [group_greedy].
    unfold no_quotes in Hg. cbn in Hg. apply andb_prop in Hg as [Hc Hg].
    apply negb_true_iff in Hc. rewrite Hc. now rewrite (IH Hg).
Qed.

Lemma search_Some pre suffix s g :
  search pre suffix s = Some g ->
  exists before rest, s = before +:+ rest /\ match_here pre suffix rest = Some g.
Proof.
  induction s as [| c s IH]; cbn [search].
  - destruct (match_here pre suffix "") eqn:Hm; [| discriminate].
    intros [= <-]. now exists "", "".
  - destruct (match_here pre suffix (String c s)) eqn:Hm.
    + intros [= <-]. now exists "", (String c s).
    + intros H. apply IH in H as (before & rest & -> & H).
      now exists (String c before), rest.
Qed.

Lemma search_found pre suffix before rest :
  match_here pre suffix rest <> None ->
  search pre suffix (before +:+ rest) <> None.
Proof.
  intros Hm. induction before as [| c before IH].
  - rewrite append_nil.
    destruct rest as [| x rest]; cbn [search].
    + destruct (match_here pre suffix ""); congruence.
    + destruct (match_here pre suffix (String x rest)); congruence.
  - rewrite append_cons. cbn [search].
    destruct (match_here pre suffix (String c (before +:+ rest)));
      [congruence | exact IH].
Qed.

(** [re.search] finds a match exactly in the expressions of the shape. *)
Lemma search_shape predicate bucket_name expr :
  search (head_atoms predicate bucket_name) tail_atoms expr <> None <->
  has_shape predicate bucket_name expr.
Proof.
  split.
  - destruct (search _ _ expr) as [g |] eqn:Hs; [intros _ | congruence].
    apply search_Some in Hs as (before & rest & -> & Hm).
    unfold match_here in Hm.
    destruct (match_atoms (head_atoms predicate bucket_name) rest) as [[| c r] |] eqn:Hh;
      try discriminate.
    destruct (is_quote c) eqn:Hc; [discriminate |].
    destruct (group_greedy tail_atoms r) as [g' |] eqn:Hg; [| discriminate].
    apply match_head in Hh as (q1 & w & -> & Hq1 & Hw).
    apply group_greedy_Some in Hg as (r' & -> & Hg' & Hr').
    destruct (match_atoms tail_atoms r') as [after |] eqn:Ht; [| congruence].
    apply match_tail in Ht as (q2 & -> & Hq2).
    exists before, q1, w, (String c g'), q2, after.
    split; [reflexivity |]. split; [exact Hq1 |]. split; [exact Hq2 |].
    split; [exact Hw |]. split; [discriminate |].
    unfold no_quotes in *. cbn. now rewrite Hc.
  - intros (before & q1 & w & prefix & q2 & after & -> & Hq1 & Hq2 & Hw & Hne & Hp).
    apply search_found. unfold match_here.
    assert (Hh : match_atoms (head_atoms predicate bucket_name)
                   (("resource.name." +:+ predicate +:+ "(") +:+
                    String q1 ("projects/_/buckets/" +:+ w +:+ "/objects/" +:+
                               prefix +:+ String q2 (")" +:+ after)))
                 = Some (prefix +:+ String q2 (")" +:+ after)))
      by (apply match_head; eauto).
    rewrite Hh. destruct prefix as [| c g]; [congruence |].
    rewrite append_cons. unfold no_quotes in Hp. cbn in Hp.
    apply andb_prop in Hp as [Hc Hg]. apply negb_true_iff in Hc. rewrite Hc.
    rewrite group_greedy_exact; [congruence | exact Hg | exact Hq2].
Qed.

End ReFacts.

(** ** The filters of [get_exposed_prefixes_from_iam] *)

Lemma public_members_nonempty ms :
  List.filter is_public_principal ms <> [] <->
  exists m, In m ms /\ (m = "allUsers" \/ m = "allAuthenticatedUsers").
Proof.
  split.
  - destruct (List.filter is_public_principal ms) as [| m l] eqn:Hf; [congruence |].
    intros _. assert (Hin : In m (List.filter is_public_principal ms))
      by (rewrite Hf; now left).
    apply filter_In in Hin as [Hin Hm]. exists m. split; [exact Hin |].
    unfold is_public_principal in Hm. apply orb_prop in Hm as [Hm | Hm];
      apply String.eqb_eq in Hm; auto.
  - intros (m & Hin & Hm) Hf.
    assert (Hin' : In m (List.filter is_public_principal ms)).
    { apply filter_In. split; [exact Hin |]. now destruct Hm as [-> | ->]. }
    rewrite Hf in Hin'. destruct Hin'.
Qed.

Lemma qualifies_spec binding :
  qualifies binding <->
  List.filter is_public_principal (members binding) <> [] /\
  is_object_read_role (role binding) = true.
Proof.
  unfold qualifies, is_object_read_role.
  rewrite public_members_nonempty, orb_true_iff. reflexivity.
Qed.

(** A binding that does not pass the filters leaves the map as it is. *)
Lemma expose_binding_filtered bucket_name exposed binding :
  ~ qualifies binding -> expose_binding bucket_name exposed binding = exposed.
Proof.
  rewrite qualifies_spec. intros Hq. unfold expose_binding.
  destruct (List.filter is_public_principal (members binding)) as [| m l]; [reflexivity |].
  destruct (is_object_read_role (role binding)); [| reflexivity].
  destruct Hq. split; [discriminate | reflexivity].
Qed.

(** A binding whose condition the parser reads no prefix from leaves the
    map as it is. *)
Lemma expose_binding_unparsed bucket_name exposed binding expr :
  condition binding = Some expr ->
  _extract_prefix_from_condition expr bucket_name = None ->
  expose_binding bucket_name exposed binding = exposed.
Proof.
  intros Hc He. unfold expose_binding. rewrite Hc, He.
  destruct (List.filter is_public_principal (members binding)); [reflexivity |].
  now destruct (negb (is_object_read_role (role binding))).
Qed.

Lemma get_exposed_skip bucket_name before binding after :
  (forall exposed, expose_binding bucket_name exposed binding = exposed) ->
  get_exposed_prefixes_from_iam (before ++ binding :: after) bucket_name =
  get_exposed_prefixes_from_iam (before ++ after) bucket_name.
Proof.
  intros H. unfold get_exposed_prefixes_from_iam.
  rewrite !fold_left_app. cbn [fold_left]. now rewrite H.
Qed.

(** The parser reads no prefix from an expression of neither shape. *)
Lemma extract_no_shape expr bucket_name :
  ~ has_shape "startsWith" bucket_name expr ->
  ~ has_shape "matches" bucket_name expr ->
  _extract_prefix_from_condition expr bucket_name = None.
Proof.
  intros Hs Hm. unfold _extract_prefix_from_condition.
  destruct (Re.search (Re.head_atoms "startsWith" bucket_name) Re.tail_atoms expr) eqn:H1.
  { destruct Hs. apply ReFacts.search_shape. congruence. }
  destruct (Re.search (Re.head_atoms "matches" bucket_name) Re.tail_atoms expr) eqn:H2.
  { destruct Hm. apply ReFacts.search_shape. congruence. }
  reflexivity.
Qed.

Lemma expose_binding_from_qualifying policy bucket_name exposed binding :
  In binding policy ->
  from_qualifying policy exposed ->
  from_qualifying policy (expose_binding bucket_name exposed binding).
Proof.
  intros Hin Hfrom.
  pose proof (qualifies_spec binding) as [Hq1 Hq2].
  unfold expose_binding.
  destruct (List.filter is_public_principal (members binding)) as [| m ms] eqn:Hf;
    [exact Hfrom |].
  destruct (is_object_read_role (role binding)) eqn:Hr; [| exact Hfrom].
  assert (Hq : qualifies binding) by (apply Hq2; split; [congruence | reflexivity]).
  cbn [negb].
  destruct (condition binding) as [expr |].
  - destruct (_extract_prefix_from_condition expr bucket_name) as [prefix |];
      [| exact Hfrom].
    intros k l eb. rewrite lookup_insert. case_decide.
    + intros [= <-] Heb. apply in_app_or in Heb as [Heb | [<- | []]].
      * destruct (exposed !! prefix) as [l0 |] eqn:Hl0; [| destruct Heb].
        eapply Hfrom; eassumption.
      * exists binding. cbn. rewrite Hf. auto.
    + apply Hfrom.
  - intros k l eb. rewrite lookup_insert. case_decide.
    + intros [= <-] [<- | []]. exists binding. cbn. rewrite Hf. auto.
    + apply Hfrom.
Qed.

Lemma fold_from_qualifying all bucket_name policy :
  forall exposed,
    (forall b, In b policy -> In b all) ->
    from_qualifying all exposed ->
    from_qualifying all (fold_left (expose_binding bucket_name) policy exposed).
Proof.
  induction policy as [| b policy IH]; intros exposed Hsub H0; simpl; [exact H0 |].
  apply IH.
  - intros b' Hb'. apply Hsub. now right.
  - apply expose_binding_from_qualifying; [apply Hsub; now left | exact H0].
Qed.

Lemma get_exposed_from_qualifying policy bucket_name :
  from_qualifying policy (get_exposed_prefixes_from_iam policy bucket_name).
Proof.
  apply fold_from_qualifying; [auto |].
  intros k l eb. rewrite lookup_empty. discriminate.
Qed.

(** C7. For a bucket name over the alphabet of bucket names: every entry of
    the map built by [get_exposed_prefixes_from_iam] comes from a binding of
    the policy whose members include [allUsers] or [allAuthenticatedUsers]
    and whose role contains an object-read role; a binding that fails either
    filter changes nothing; and from a qualifying binding whose expression
    has neither the [startsWith] nor the [matches] shape the parser extracts
    no prefix, and the map is the one built without that binding. *)
Theorem iam_binding_filtering bucket_name :
  gcs_bucket_name bucket_name = true ->
  (forall policy k l eb,
      get_exposed_prefixes_from_iam policy bucket_name !! k = Some l -> In eb l ->
      exists b, In b policy /\ qualifies b /\
                eb_role eb = role b /\
                eb_members eb = List.filter is_public_principal (members b)) /\
  (forall before b after,
      ~ qualifies b ->
      get_exposed_prefixes_from_iam (before ++ b :: after) bucket_name =
      get_exposed_prefixes_from_iam (before ++ after) bucket_name) /\
  (forall before b expr after,
      qualifies b -> condition b = Some expr ->
      ~ has_shape "startsWith" bucket_name expr ->
      ~ has_shape "matches" bucket_name expr ->
      _extract_prefix_from_condition expr bucket_name = None /\
      get_exposed_prefixes_from_iam (before ++ b :: after) bucket_name =
      get_exposed_prefixes_from_iam (before ++ after) bucket_name).
Proof.
  intros _. split; [| split].
  - intros policy. apply get_exposed_from_qualifying.
  - intros before b after Hq. apply get_exposed_skip.
    intros exposed. now apply expose_binding_filtered.
  - intros before b expr after _ Hc Hs Hm.
    pose proof (extract_no_shape _ _ Hs Hm) as He.
    split; [exact He |]. apply get_exposed_skip.
    intros exposed. eapply expose_binding_unparsed; eassumption.
Qed.

Lemma iam_binding_filtering_witness :
  let b := {| members := ["allUsers"];
              role := "roles/storage.objectViewer";
              condition := Some "request.time < timestamp('2030-01-01T00:00:00Z')" |} in
  _extract_prefix_from_condition
    "request.time < timestamp('2030-01-01T00:00:00Z')" "demo" = None /\
  get_exposed_prefixes_from_iam (Demo.policy ++ [b]) "demo" =
  get_exposed_prefixes_from_iam (Demo.policy ++ []) "demo".
Proof.
  intros b.
  apply (proj2 (proj2 (iam_binding_filtering "demo" eq_refl)) Demo.policy b
           "request.time < timestamp('2030-01-01T00:00:00Z')" []).
  - split; [exists "allUsers"; simpl; auto | left; reflexivity].
  - reflexivity.
  - intros Hs. apply ReFacts.search_shape in Hs. apply Hs. vm_compute. reflexivity.
  - intros Hs. apply ReFacts.search_shape in Hs. apply Hs. vm_compute. reflexivity.
Defined.

(** ** Objects of the fine-grained tree *)

Section ObjectFacts.

Variable gw : Gateway.

(** A turn of the loop over the objects asks for the ACL of the object and
    then records the object with the flag that the probe gives: what the
    ACL holds has no part in it. *)
Lemma classify_object_by_probe bucket_name result obj_name tr :
  (forall e, gw_head gw (tr ++ [EvAclAll bucket_name obj_name])
               (probe_url bucket_name obj_name) <> HeadOtherError e) ->
  classify_object gw bucket_name result obj_name tr =
  (Ret (record_object result obj_name (probe_says_public gw bucket_name obj_name tr)),
   tr ++ [EvAclAll bucket_name obj_name;
          EvHead (probe_url bucket_name obj_name) 5]).
Proof.
  unfold probe_says_public. intros Hnot.
  unfold classify_object, try_except, bind, is_public_acl, bind, call, ret.
  unfold check_public_access_http, bind, call.
  rewrite <- app_assoc. cbn [app].
  destruct (gw_head gw (tr ++ [EvAclAll bucket_name obj_name])
              (probe_url bucket_name obj_name)) as [status_code | | e] eqn:Hhead;
    [reflexivity | reflexivity | now destruct (Hnot e)].
Qed.

End ObjectFacts.

(** C8.  The claim fails on the code.  In the fine-grained bucket [demo] the
    ACL of the object [docs/a.txt] holds the entry of entity [allUsers] and
    role [READER], which the test of [is_public_acl] accepts, and the URL
    of the object answers 403.  The turn of the
    loop of [build_fine_grained_tree] asks for the ACL, gets no verdict from
    [is_public_acl], probes the URL and records the object as not public;
    so does the scan of the folder [docs/]. *)
Theorem fine_grained_acl_ignored :
  let result := {| fg_path := "docs"; fg_subfolders := []; fg_objects := [];
                   total_object_count := 0; public_object_count := 0 |} in
  (forall tr, In {| acl_entity := "allUsers"; acl_role := "READER" |}
                 (gw_acl_all Demo.fine tr "demo" "docs/a.txt")) /\
  is_public_entry {| acl_entity := "allUsers"; acl_role := "READER" |} = true /\
  classify_object Demo.fine "demo" result "docs/a.txt" [] =
  (Ret (record_object result "docs/a.txt" false),
   [EvAclAll "demo" "docs/a.txt";
    EvHead "https://storage.googleapis.com/demo/docs/a.txt" 5]) /\
  exists node tr',
    build_fine_grained_tree Demo.fine 3 "demo" "docs/" [] = (Ret node, tr') /\
    fg_objects node = [ {| oe_name := "docs/a.txt"; oe_is_public := false |} ] /\
    public_object_count node = 0.
Proof.
  intros result. split; [| split; [| split]].
  - intros tr. now left.
  - reflexivity.
  - rewrite classify_object_by_probe; [reflexivity | discriminate].
  - eexists. eexists. split; [vm_compute; reflexivity |]. split; reflexivity.
Qed.

(** ** The order of siblings *)

Lemma sorted_StronglySorted (l : list string) :
  StronglySorted String.le (PyStr.sorted l).
Proof. unfold PyStr.sorted. apply StronglySorted_merge_sort; apply _. Qed.

Lemma StronglySorted_sublist {A} (R : relation A) (l1 l2 : list A) :
  l1 `sublist_of` l2 -> StronglySorted R l2 -> StronglySorted R l1.
Proof.
  induction 1 as [| x l1 l2 Hsub IH | x l1 l2 Hsub IH]; intros Hs.
  - constructor.
  - apply StronglySorted_inv in Hs as [Hs Hx]. constructor; [auto |].
    rewrite Forall_forall in *. intros y Hy. apply Hx.
    eapply sublist_subseteq; eassumption.
  - apply StronglySorted_inv in Hs as [Hs _]. auto.
Qed.

(** A loop whose turns add at most the key of their element, at the end,
    adds a sublist of the keys. *)
Lemma for_each_sublist {A B K} (key : B -> list K) (key_of : A -> K)
    (l : list A) (body : B -> A -> M B) :
  (forall acc x tr acc' tr',
      body acc x tr = (Ret acc', tr') ->
      key acc' = key acc \/ key acc' = key acc ++ [key_of x]) ->
  forall acc tr acc' tr',
    for_each l body acc tr = (Ret acc', tr') ->
    exists added, key acc' = key acc ++ added /\ added `sublist_of` map key_of l.
Proof.
  intros Hbody. induction l as [| x l IH]; intros acc tr acc' tr' H; simpl in H.
  - apply ret_Ret in H as [<- _]. exists []. now rewrite app_nil_r.
  - bind_inv H. destruct (IH _ _ _ _ H) as (added & Hk & Hsub).
    apply Hbody in H0 as [Hx | Hx]; rewrite Hx in Hk.
    + exists added. split; [exact Hk |]. now apply sublist_cons.
    + exists (key_of x :: added). rewrite <- app_assoc in Hk.
      split; [exact Hk |]. now apply sublist_skip.
Qed.

Lemma scan_path gw fuel bucket_name folder_path exposed parent tr node tr' :
  scan_folder_recursive gw fuel bucket_name folder_path exposed parent tr
    = (Ret node, tr') ->
  path node = folder_path.
Proof.
  destruct fuel as [| fuel]; [discriminate |]. intros H.
  apply scan_folder_recursive_Ret in H as (pub & tr1 & items & tr2 & subs & _ & _ & _ & ->).
  reflexivity.
Qed.

Lemma listing_sorted gw bucket_name prefix tr items tr' :
  _list_folders_and_objects_raw gw bucket_name prefix tr = (Ret items, tr') ->
  StronglySorted String.le (folders items) /\
  StronglySorted String.le (listed_objects items).
Proof.
  unfold _list_folders_and_objects_raw. intros H.
  apply bind_Ret in H as (r & t & _ & H).
  destruct r as [[] | [blobs prefixes]]; try discriminate.
  apply ret_Ret in H as [<- _]. split; apply sorted_StronglySorted.
Qed.

Lemma scan_sorted_level gw fuel bucket_name folder_path exposed parent tr node tr' :
  scan_folder_recursive gw (S fuel) bucket_name folder_path exposed parent tr
    = (Ret node, tr') ->
  StronglySorted String.le (objects node) /\
  StronglySorted String.le (map path (subfolders node)).
Proof.
  intros H.
  apply scan_folder_recursive_Ret in H
    as (pub & tr1 & items & tr2 & subs & _ & Hl & Hloop & ->).
  apply listing_sorted in Hl as [Hf Ho]. cbn [objects subfolders].
  split; [exact Ho |].
  apply (for_each_sublist (map path) (fun p : string => p)) in Hloop.
  - destruct Hloop as (added & Hk & Hsub). cbn in Hk. rewrite Hk.
    rewrite map_id in Hsub. eapply StronglySorted_sublist; eassumption.
  - intros acc x t acc' t' Hbody.
    destruct (direct_subfolder folder_path x).
    + bind_inv Hbody. apply ret_Ret in Hbody as [<- _]. right.
      rewrite map_app. cbn. now rewrite (scan_path _ _ _ _ _ _ _ _ _ Hbody0).
    + apply ret_Ret in Hbody as [<- _]. now left.
Qed.

Lemma build_sorted_level gw fuel bucket_name prefix tr node tr' :
  build_fine_grained_tree gw (S fuel) bucket_name prefix tr = (Ret node, tr') ->
  StronglySorted String.le (map oe_name (fg_objects node)).
Proof.
  intros H.
  apply build_fine_grained_tree_Ret in H
    as (items & tr1 & result & tr2 & Hl & Hobjs & Hloop).
  apply listing_sorted in Hl as [_ Ho].
  assert (Hsame : fg_objects node = fg_objects result).
  { eapply (for_each_invariant (fun acc _ => fg_objects acc = fg_objects result))
      in Hloop; [exact Hloop | | reflexivity].
    intros acc x t acc' t' _ Hacc Hbody.
    bind_inv Hbody. apply ret_Ret in Hbody as [<- _]. exact Hacc. }
  rewrite Hsame.
  apply (for_each_sublist (fun r => map oe_name (fg_objects r)) (fun p : string => p))
    in Hobjs.
  - destruct Hobjs as (added & Hk & Hsub). cbn in Hk. rewrite Hk.
    rewrite map_id in Hsub. eapply StronglySorted_sublist; eassumption.
  - intros acc x t acc' t' Hbody.
    apply classify_object_Ret in Hbody as [-> | (pub & ->)]; [now left |].
    right. cbn. now rewrite map_app.
Qed.

(** C9, as the claim states it, fails on the subfolders: the scan of [docs/]
    in the demo bucket returns the subfolders named [a-b] and [a] in that
    order, which is the order of their paths [docs/a-b/] and [docs/a/] and
    not the order of their names. *)
Lemma sibling_ordering_counterexample :
  exists node tr',
    scan_folder_recursive Demo.uniform 3 "demo" "docs/"
      (get_exposed_prefixes_from_iam Demo.policy "demo") false [] = (Ret node, tr') /\
    map name (subfolders node) = ["a-b"; "a"] /\
    String.leb "a-b" "a" = false /\
    ~ Sorted String.le (map name (subfolders node)).
Proof.
  eexists. eexists. split; [vm_compute; reflexivity |].
  split; [reflexivity |]. split; [reflexivity |].
  cbn [subfolders map name]. intros Hs.
  apply Sorted_inv in Hs as [_ Hhd]. apply HdRel_inv in Hhd.
  exact Hhd.
Qed.

(** C9, amended.  In every tree that [scan_folder_recursive] returns, the
    direct objects of a node appear in the lexicographic order of their
    names and its subfolders in the lexicographic order of their paths (the
    listed prefixes, final slash included), whatever the order of the
    listing; in every tree that [build_fine_grained_tree] returns, the
    recorded objects of a node appear in the lexicographic order of their
    names. *)
Theorem sibling_ordering_amended :
  (forall gw fuel bucket_name folder_path exposed parent tr node tr',
      scan_folder_recursive gw fuel bucket_name folder_path exposed parent tr
        = (Ret node, tr') ->
      forall n, in_tree n node ->
                StronglySorted String.le (objects n) /\
                StronglySorted String.le (map path (subfolders n))) /\
  (forall gw fuel bucket_name prefix tr node tr',
      build_fine_grained_tree gw fuel bucket_name prefix tr = (Ret node, tr') ->
      forall n, in_fine_tree n node ->
                StronglySorted String.le (map oe_name (fg_objects n))).
Proof.
  split.
  - intros gw fuel bucket_name folder_path exposed parent tr node tr' H.
    eapply (scan_every_node gw
              (fun n => StronglySorted String.le (objects n) /\
                        StronglySorted String.le (map path (subfolders n))));
      [| exact H].
    intros. eapply scan_sorted_level; eassumption.
  - intros gw fuel bucket_name prefix tr node tr' H.
    eapply (build_every_node gw
              (fun n => StronglySorted String.le (map oe_name (fg_objects n))));
      [| exact H].
    intros. eapply build_sorted_level; eassumption.
Qed.

Lemma sibling_ordering_amended_witness :
  (exists node tr',
      scan_folder_recursive Demo.uniform 3 "demo" "docs/"
        (get_exposed_prefixes_from_iam Demo.policy "demo") false [] = (Ret node, tr') /\
      map path (subfolders node) = ["docs/a-b/"; "docs/a/"] /\
      forall n, in_tree n node ->
                StronglySorted String.le (objects n) /\
                StronglySorted String.le (map path (subfolders n))) /\
  (exists node tr',
      build_fine_grained_tree Demo.fine 3 "demo" "docs/a/" [] = (Ret node, tr') /\
      map oe_name (fg_objects node) = ["docs/a/y"; "docs/a/z"] /\
      forall n, in_fine_tree n node ->
                StronglySorted String.le (map oe_name (fg_objects n))).
Proof.
  split.
  - eexists. eexists. split; [vm_compute; reflexivity |]. split; [reflexivity |].
    eapply (proj1 sibling_ordering_amended Demo.uniform 3%nat "demo" "docs/"
              (get_exposed_prefixes_from_iam Demo.policy "demo") false []).
    vm_compute. reflexivity.
  - eexists. eexists. split; [vm_compute; reflexivity |]. split; [reflexivity |].
    eapply (proj2 sibling_ordering_amended Demo.fine 3%nat "demo" "docs/a/" []).
    vm_compute. reflexivity.
Defined.

(** ** The masking of findings *)

Section MaskingFacts.

Variable env : PatternEnv.

Lemma pattern_findings_masked object_name no_mask content key pdata f :
  In f (pattern_findings env object_name no_mask content key pdata) ->
  match_masked f = masking_rule no_mask (match_raw f).
Proof.
  unfold pattern_findings.
  destruct (pe_finditer env (p_regex pdata) content) as [matches |]; [| intros []].
  rewrite in_flat_map. intros (m & _ & Hf).
  destruct (match p_validator pdata with
            | Some ((String _ _) as v) =>
                let '(ok, why) := run_validator_by_name v (PyStr.strip (candidate_of m)) in
                (true, ok, why)
            | _ => (false, true, "Regex match sufficient")
            end) as [[run ok] why].
  destruct (run && negb ok); [destruct Hf |].
  destruct Hf as [<- | []]. reflexivity.
Qed.

Lemma gitleaks_findings_masked object_name no_mask content f :
  In f (gitleaks_findings env object_name no_mask content) ->
  match_masked f = masking_rule no_mask (match_raw f).
Proof.
  unfold gitleaks_findings.
  destruct (pe_gitleaks env content) as [| | returncode stdout]; try (intros []).
  destruct ((returncode =? 0) || (returncode =? 1)); [| intros []].
  destruct (PyStr.strip stdout); [intros [] |].
  destruct (pe_json_loads env stdout) as [leaks |]; [| intros []].
  rewrite in_map_iff. intros (leak & <- & _).
  cbn [match_masked match_raw]. unfold masking_rule, PyStr.len.
  now destruct no_mask.
Qed.

End MaskingFacts.

(** C10. Every finding of [_scan_object_for_patterns], from a pattern or
    from Gitleaks, is masked by the rule: with masking on, the first four
    characters, three dots and the last four characters of a raw match longer
    than eight characters, and three dots alone otherwise; with [no_mask],
    the raw match. *)
Theorem findings_masked env bucket_name object_name patterns no_mask file_types
    use_gitleaks f :
  In f (_scan_object_for_patterns env bucket_name object_name patterns no_mask
          file_types use_gitleaks) ->
  match_masked f = masking_rule no_mask (match_raw f) /\
  (no_mask = true -> match_masked f = match_raw f) /\
  (no_mask = false -> (8 < Z.of_nat (String.length (match_raw f)))%Z ->
   match_masked f =
   PyStr.take 4 (match_raw f) +:+ "..." +:+ PyStr.last_n 4 (match_raw f)) /\
  (no_mask = false -> (Z.of_nat (String.length (match_raw f)) <= 8)%Z ->
   match_masked f = "...").
Proof.
  intros Hin.
  assert (Hrule : match_masked f = masking_rule no_mask (match_raw f)).
  { unfold _scan_object_for_patterns in Hin.
    destruct (match file_types with
              | Some ((_ :: _) as types) =>
                  negb (PyStr.mem "all" types) &&
                  negb (PyStr.mem
                          (PyStr.lower (PyStr.splitext_ext object_name)) types)
              | _ => PyStr.mem
                       (PyStr.lower (PyStr.splitext_ext object_name))
                       DEFAULT_EXCLUDED_EXTENSIONS
              end); [destruct Hin |].
    destruct (_download_blob_snippet env bucket_name object_name (1024 * 1024))
      as [[| c content] |]; try destruct Hin.
    apply in_app_or in Hin as [Hin | Hin].
    - apply in_flat_map in Hin as ([key pdata] & _ & Hin).
      eapply pattern_findings_masked; exact Hin.
    - destruct use_gitleaks; [| destruct Hin].
      eapply gitleaks_findings_masked; exact Hin. }
  split; [exact Hrule |]. rewrite Hrule. unfold masking_rule.
  split; [now intros -> |]. split; intros ->.
  - intros Hlen. apply Z.ltb_lt in Hlen. now rewrite Hlen.
  - intros Hlen. apply Z.ltb_ge in Hlen. now rewrite Hlen.
Qed.

Lemma findings_masked_witness :
  let f := {| f_object := "notes/readme.TXT";
              pattern_key := "EmailAddress";
              pattern_name := "Email Address";
              match_raw := "bob@example.com";
              match_masked := "bob@....com";
              validator := None;
              validator_ok := true;
              validator_reason := "Regex match sufficient" |} in
  In f (_scan_object_for_patterns Demo.env "demo" "notes/readme.TXT" PATTERNS false
          (Some [".txt"]) true) /\
  match_masked f = masking_rule false (match_raw f).
Proof.
  intros f.
  assert (Hin : In f (_scan_object_for_patterns Demo.env "demo" "notes/readme.TXT"
                        PATTERNS false (Some [".txt"]) true)).
  { vm_compute. right. left. reflexivity. }
  split; [exact Hin |].
  exact (proj1 (findings_masked Demo.env "demo" "notes/readme.TXT" PATTERNS false
                  (Some [".txt"]) true f Hin)).
Defined.

(** * Further properties of the code *)

(** ** The condition parser, both ways *)



Lemma rstrip_not_endswith c s : PyStr.endswith (PyStr.rstrip c s) c = false.
Proof.
  induction s as [| a s IH]; [reflexivity |].
  cbn [PyStr.rstrip]. destruct (PyStr.rstrip c s) as [| x r] eqn:Hr.
  - destruct (Ascii.eqb a c) eqn:Ha; [reflexivity | cbn; exact Ha].
  - exact IH.
Qed.

Lemma rstrip_fixed c s : PyStr.endswith s c = false -> PyStr.rstrip c s = s.
Proof.
  induction s as [| a s IH]; [reflexivity |]. intros H.
  cbn [PyStr.rstrip]. destruct s as [| x r].
  - cbn in H |- *. now rewrite H.
  - rewrite IH by exact H. reflexivity.
Qed.

Lemma rstrip_idempotent c s : PyStr.rstrip c (PyStr.rstrip c s) = PyStr.rstrip c s.
Proof. apply rstrip_fixed, rstrip_not_endswith. Qed.

Lemma endswith_append_char s c : PyStr.endswith (s +:+ String c "") c = true.
Proof.
  induction s as [| a s IH]; [cbn; apply Ascii.eqb_refl |].
  rewrite ReFacts.append_cons. cbn [PyStr.endswith].
  destruct (s +:+ String c "") eqn:Hs; [| exact IH].
  destruct s; discriminate.
Qed.

(** Stripping the slashes of a text that ends with none, followed by one
    slash, gives the text back. *)
Lemma rstrip_append_char c r :
  PyStr.endswith r c = false -> PyStr.rstrip c (r +:+ String c "") = r.
Proof.
  induction r as [| a r IH]; intros H.
  - rewrite ReFacts.append_nil. cbn. now rewrite Ascii.eqb_refl.
  - rewrite ReFacts.append_cons. cbn [PyStr.rstrip].
    destruct r as [| x r'].
    + rewrite ReFacts.append_nil. cbn in H |- *. rewrite Ascii.eqb_refl. now rewrite H.
    + rewrite IH by exact H. reflexivity.
Qed.

Lemma rstrip_append_slash c s :
  PyStr.rstrip c (PyStr.rstrip c s +:+ String c "") = PyStr.rstrip c s.
Proof. apply rstrip_append_char, rstrip_not_endswith. Qed.

Lemma contains_cons sub c s :
  PyStr.contains sub (String c s) = PyStr.startswith (String c s) sub || PyStr.contains sub s.
Proof. reflexivity. Qed.

Lemma startswith_nil s : PyStr.startswith s "" = true.
Proof. now destruct s. Qed.

Lemma contains_star_cons c s :
  PyStr.contains "*" (String c s) = Ascii.eqb c "*" || PyStr.contains "*" s.
Proof.
  rewrite contains_cons. cbn [PyStr.startswith].
  now rewrite startswith_nil, andb_true_r.
Qed.

(** No star is left where every star was removed. *)
Lemma remove_star_aux fuel s :
  (String.length s <= fuel)%nat ->
  PyStr.contains "*" (PyStr.remove_all_aux fuel "*" s) = false.
Proof.
  revert s. induction fuel as [| fuel IH]; intros s Hlen.
  - destruct s; [reflexivity | cbn in Hlen; lia].
  - destruct s as [| a s]; [reflexivity |]. cbn in Hlen.
    cbn [PyStr.remove_all_aux PyStr.startswith]. rewrite startswith_nil, andb_true_r.
    destruct (Ascii.eqb a "*") eqn:Ha.
    + cbn [String.length PyStr.drop]. apply IH. lia.
    + rewrite contains_star_cons, Ha. apply IH. lia.
Qed.

Lemma contains_star_rstrip c s :
  PyStr.contains "*" s = false -> PyStr.contains "*" (PyStr.rstrip c s) = false.
Proof.
  induction s as [| a s IH]; [reflexivity |].
  rewrite contains_star_cons. intros H.
  apply orb_false_iff in H as [Ha Hs].
  cbn [PyStr.rstrip]. destruct (PyStr.rstrip c s) as [| x r] eqn:Hr.
  - destruct (Ascii.eqb a c); [reflexivity |].
    rewrite contains_star_cons, Ha. reflexivity.
  - rewrite contains_star_cons, Ha. apply IH. exact Hs.
Qed.

Lemma extract_prefix_no_slash expr bucket_name prefix :
  _extract_prefix_from_condition expr bucket_name = Some prefix ->
  PyStr.endswith prefix "/" = false.
Proof.
  unfold _extract_prefix_from_condition.
  destruct (Re.search (Re.head_atoms "startsWith" bucket_name) Re.tail_atoms expr)
    as [g |].
  - intros [= <-]. apply rstrip_not_endswith.
  - destruct (Re.search (Re.head_atoms "matches" bucket_name) Re.tail_atoms expr)
      as [g |]; [| discriminate].
    intros [= <-]. apply rstrip_not_endswith.
Qed.

(** X2. For a bucket name over the alphabet of bucket names, an extracted
    prefix never ends with a slash, and a prefix read from a [matches]
    predicate holds no star. *)
Theorem extract_prefix_normalized expr bucket_name prefix :
  gcs_bucket_name bucket_name = true ->
  _extract_prefix_from_condition expr bucket_name = Some prefix ->
  PyStr.endswith prefix "/" = false /\
  (~ has_shape "startsWith" bucket_name expr -> PyStr.contains "*" prefix = false).
Proof.
  intros _. unfold _extract_prefix_from_condition.
  destruct (Re.search (Re.head_atoms "startsWith" bucket_name) Re.tail_atoms expr)
    as [g |] eqn:Hs.
  - intros [= <-]. split; [apply rstrip_not_endswith |].
    intros Hno. destruct Hno. apply ReFacts.search_shape. congruence.
  - destruct (Re.search (Re.head_atoms "matches" bucket_name) Re.tail_atoms expr)
      as [g |]; [| discriminate].
    intros [= <-]. split; [apply rstrip_not_endswith |]. intros _.
    apply contains_star_rstrip. apply remove_star_aux. lia.
Qed.

Lemma extract_prefix_normalized_witness :
  gcs_bucket_name "demo" = true /\
  _extract_prefix_from_condition
    "resource.name.matches('projects/_/buckets/demo/objects/logs/**')" "demo"
    = Some "logs" /\
  PyStr.endswith "logs" "/" = false /\
  (~ has_shape "startsWith" "demo"
       "resource.name.matches('projects/_/buckets/demo/objects/logs/**')" ->
   PyStr.contains "*" "logs" = false).
Proof.
  split; [reflexivity |]. split; [vm_compute; reflexivity |].
  apply (extract_prefix_normalized
           "resource.name.matches('projects/_/buckets/demo/objects/logs/**')" "demo").
  - reflexivity.
  - vm_compute. reflexivity.
Defined.

(** ** The keys of the exposure map *)

Lemma expose_binding_keeps_keys bucket_name exposed binding k :
  has_key k exposed = true -> has_key k (expose_binding bucket_name exposed binding) = true.
Proof.
  intros Hk. unfold expose_binding.
  destruct (List.filter is_public_principal (members binding)); [exact Hk |].
  destruct (negb (is_object_read_role (role binding))); [exact Hk |].
  destruct (condition binding) as [expr |].
  - destruct (_extract_prefix_from_condition expr bucket_name) as [prefix |]; [| exact Hk].
    unfold has_key in *. rewrite lookup_insert. case_decide; [reflexivity | exact Hk].
  - unfold has_key in *. rewrite lookup_insert. case_decide; [reflexivity | exact Hk].
Qed.

Lemma fold_keeps_keys bucket_name policy :
  forall exposed k,
    has_key k exposed = true ->
    has_key k (fold_left (expose_binding bucket_name) policy exposed) = true.
Proof.
  induction policy as [| b policy IH]; intros exposed k Hk; [exact Hk |].
  cbn [fold_left]. apply IH. now apply expose_binding_keeps_keys.
Qed.

Lemma expose_binding_key_normalized bucket_name exposed binding :
  (forall k, has_key k exposed = true -> PyStr.endswith k "/" = false) ->
  forall k, has_key k (expose_binding bucket_name exposed binding) = true ->
            PyStr.endswith k "/" = false.
Proof.
  intros Hall k. unfold expose_binding.
  destruct (List.filter is_public_principal (members binding)); [apply Hall |].
  destruct (negb (is_object_read_role (role binding))); [apply Hall |].
  destruct (condition binding) as [expr |].
  - destruct (_extract_prefix_from_condition expr bucket_name) as [prefix |] eqn:He;
      [| apply Hall].
    unfold has_key at 1. rewrite lookup_insert. case_decide as Hd.
    + intros _. subst k. eapply extract_prefix_no_slash. exact He.
    + apply Hall.
  - unfold has_key at 1. rewrite lookup_insert. case_decide as Hd.
    + intros _. subst k. reflexivity.
    + apply Hall.
Qed.

(** X3. No key of the map that [get_exposed_prefixes_from_iam] builds ends with a
    slash: the keys have the form of the [clean_path] that
    [scan_folder_recursive] looks up. *)
Theorem exposed_keys_normalized policy bucket_name k :
  has_key k (get_exposed_prefixes_from_iam policy bucket_name) = true ->
  PyStr.endswith k "/" = false.
Proof.
  unfold get_exposed_prefixes_from_iam.
  assert (H0 : forall k, has_key k (∅ : ExposureMap) = true -> PyStr.endswith k "/" = false).
  { intros k'. unfold has_key. rewrite lookup_empty. discriminate. }
  revert k. revert H0. generalize (∅ : ExposureMap) as exposed.
  induction policy as [| b policy IH]; intros exposed H0 k; cbn [fold_left]; [apply H0 |].
  apply IH. now apply expose_binding_key_normalized.
Qed.

Lemma exposed_keys_normalized_witness :
  has_key "public" (get_exposed_prefixes_from_iam Demo.policy "demo") = true /\
  PyStr.endswith "public" "/" = false.
Proof.
  split; [vm_compute; reflexivity |].
  apply (exposed_keys_normalized Demo.policy "demo" "public").
  vm_compute. reflexivity.
Defined.

(** ** From a binding of the policy to the classification *)

Lemma names_bucket_refl b : names_bucket b b = true.
Proof.
  induction b as [| c b IH]; [reflexivity |]. cbn [names_bucket]. rewrite IH.
  destruct (Ascii.eqb_spec c ".") as [-> |]; [reflexivity |].
  now rewrite Ascii.eqb_refl.
Qed.

Lemma search_here pre suffix s g :
  Re.match_here pre suffix s = Some g -> Re.search pre suffix s = Some g.
Proof. intros H. destruct s; cbn [Re.search]; now rewrite H. Qed.

(** The condition that grants a prefix is read back as that prefix, without
    its final slashes. *)
Lemma extract_prefix_condition bucket_name prefix :
  prefix <> "" -> no_quotes prefix = true ->
  _extract_prefix_from_condition (prefix_condition "startsWith" bucket_name prefix)
    bucket_name = Some (PyStr.rstrip "/" prefix).
Proof.
  intros Hne Hq. unfold _extract_prefix_from_condition, prefix_condition.
  erewrite search_here; [reflexivity |].
  unfold Re.match_here.
  assert (Hh : Re.match_atoms (Re.head_atoms "startsWith" bucket_name)
                 (("resource.name." +:+ "startsWith" +:+ "(") +:+
                  String "'" ("projects/_/buckets/" +:+ bucket_name +:+ "/objects/" +:+
                              prefix +:+ String "'" (")" +:+ "")))
               = Some (prefix +:+ String "'" (")" +:+ ""))).
  { apply ReFacts.match_head. exists "'"%char, bucket_name.
    split; [reflexivity |]. split; [reflexivity | apply names_bucket_refl]. }
  rewrite Hh. destruct prefix as [| c g]; [congruence |].
  rewrite ReFacts.append_cons. unfold no_quotes in Hq. cbn in Hq.
  apply andb_prop in Hq as [Hc Hg]. apply negb_true_iff in Hc. rewrite Hc.
  rewrite ReFacts.group_greedy_exact; [reflexivity | exact Hg | reflexivity].
Qed.

Lemma expose_binding_sets_key bucket_name exposed binding expr prefix :
  qualifies binding -> condition binding = Some expr ->
  _extract_prefix_from_condition expr bucket_name = Some prefix ->
  has_key prefix (expose_binding bucket_name exposed binding) = true.
Proof.
  intros Hq Hc He. apply qualifies_spec in Hq as [Hm Hr].
  unfold expose_binding. rewrite Hc, He, Hr. cbn [negb].
  destruct (List.filter is_public_principal (members binding)); [congruence |].
  unfold has_key. now rewrite lookup_insert_eq.
Qed.

Lemma expose_binding_sets_root bucket_name exposed binding :
  bucket_wide binding ->
  has_key "" (expose_binding bucket_name exposed binding) = true.
Proof.
  intros [Hq Hc]. apply qualifies_spec in Hq as [Hm Hr].
  unfold expose_binding. rewrite Hc, Hr. cbn [negb].
  destruct (List.filter is_public_principal (members binding)); [congruence |].
  unfold has_key. now rewrite lookup_insert_eq.
Qed.

Lemma get_exposed_has_key bucket_name policy binding k :
  In binding policy ->
  (forall exposed, has_key k (expose_binding bucket_name exposed binding) = true) ->
  has_key k (get_exposed_prefixes_from_iam policy bucket_name) = true.
Proof.
  unfold get_exposed_prefixes_from_iam. generalize (∅ : ExposureMap) as exposed.
  induction policy as [| b policy IH]; intros exposed Hin Hset; [destruct Hin |].
  cbn [fold_left]. destruct Hin as [-> | Hin].
  - apply fold_keeps_keys. apply Hset.
  - now apply IH.
Qed.

(** A folder whose clean path is a key of the map, scanned below a parent
    that is not public: public, by the first entry of the key, without any
    probe in the whole call. *)
Lemma scan_exposed_key gw fuel bucket_name folder_path exposed tr node tr' :
  has_key (PyStr.rstrip "/" folder_path) exposed = true ->
  scan_folder_recursive gw fuel bucket_name folder_path exposed false tr
    = (Ret node, tr') ->
  is_public node = true /\ no_probe tr tr' /\
  reason node =
    match default [] (exposed !! PyStr.rstrip "/" folder_path) with
    | d :: _ => "Direct public via IAM condition: " +:+ eb_role d
    | [] => ""
    end.
Proof.
  intros Hkey H. destruct fuel as [| fuel]; [discriminate |].
  apply scan_folder_recursive_Ret in H
    as (pub & tr1 & items & tr2 & subs & Hc & Hl & Hloop & ->).
  cbv zeta in Hc. rewrite Hkey in Hc. apply ret_Ret in Hc as [<- <-].
  split; [reflexivity |]. split.
  - apply listing_no_probe in Hl. eapply no_probe_trans; [exact Hl |].
    eapply (for_each_invariant (fun _ t => no_probe tr2 t)) in Hloop;
      [exact Hloop | | apply no_probe_refl].
    intros acc x t acc' t' _ Hacc Hbody.
    destruct (direct_subfolder folder_path x).
    + bind_inv Hbody. apply ret_Ret in Hbody as [_ <-].
      eapply no_probe_trans; [exact Hacc |].
      eapply scan_public_parent_no_probe; eassumption.
    + apply ret_Ret in Hbody as [_ <-]. exact Hacc.
  - cbn [reason]. unfold classify_reason. rewrite Hkey.
    now destruct (default [] (exposed !! PyStr.rstrip "/" folder_path)).
Qed.

(** X4. For a bucket name over the alphabet of bucket names, a policy that
    grants a prefix to the public through a [startsWith] condition makes the
    scan classify the folder of that prefix as public: the flag is set, the
    reason names the role of a qualifying binding of the policy, and no HTTP
    probe is issued for the folder or below it. *)
Theorem condition_grants_folder gw fuel bucket_name policy binding prefix folder_path
    tr node tr' :
  gcs_bucket_name bucket_name = true ->
  In binding policy -> qualifies binding ->
  condition binding = Some (prefix_condition "startsWith" bucket_name prefix) ->
  prefix <> "" -> no_quotes prefix = true ->
  PyStr.rstrip "/" folder_path = PyStr.rstrip "/" prefix ->
  scan_folder_recursive gw fuel bucket_name folder_path
    (get_exposed_prefixes_from_iam policy bucket_name) false tr = (Ret node, tr') ->
  is_public node = true /\ no_probe tr tr' /\
  exists b, In b policy /\ qualifies b /\
            reason node = "Direct public via IAM condition: " +:+ role b.
Proof.
  intros _ Hin Hq Hc Hne Hnq Hpath H.
  assert (Hkey : has_key (PyStr.rstrip "/" folder_path)
                   (get_exposed_prefixes_from_iam policy bucket_name) = true).
  { rewrite Hpath. eapply get_exposed_has_key; [exact Hin |].
    intros exposed. eapply expose_binding_sets_key; [exact Hq | exact Hc |].
    now apply extract_prefix_condition. }
  destruct (scan_exposed_key _ _ _ _ _ _ _ _ Hkey H) as (Hpub & Hnp & Hreason).
  split; [exact Hpub |]. split; [exact Hnp |].
  unfold has_key in Hkey.
  destruct (get_exposed_prefixes_from_iam policy bucket_name !! PyStr.rstrip "/" folder_path)
    as [l |] eqn:Hl; [| discriminate].
  destruct l as [| d ds]; [now apply get_exposed_prefixes_nonempty in Hl |].
  destruct (get_exposed_from_qualifying policy bucket_name _ _ d Hl (or_introl eq_refl))
    as (b & Hb & Hqb & Hrole & _).
  exists b. cbn in Hreason. rewrite Hreason, Hrole. auto.
Qed.

Lemma condition_grants_folder_witness :
  gcs_bucket_name "demo" = true /\
  exists node tr',
    scan_folder_recursive Demo.uniform 3 "demo" "public/"
      (get_exposed_prefixes_from_iam Demo.policy "demo") false [] = (Ret node, tr') /\
    is_public node = true /\ no_probe [] tr' /\
    exists b, In b Demo.policy /\ qualifies b /\
              reason node = "Direct public via IAM condition: " +:+ role b.
Proof.
  split; [reflexivity |]. eexists. eexists.
  assert (Hrun : scan_folder_recursive Demo.uniform 3 "demo" "public/"
            (get_exposed_prefixes_from_iam Demo.policy "demo") false []
          = (Ret _, _)) by (vm_compute; reflexivity).
  split; [exact Hrun |].
  eapply (condition_grants_folder Demo.uniform 3%nat "demo" Demo.policy _ "public/"
            "public/" []); [reflexivity | now left | | reflexivity | discriminate
                            | reflexivity | reflexivity | exact Hrun].
  split; [exists "allUsers"; simpl; auto | left; reflexivity].
Defined.

(** X5. For a bucket name over the alphabet of bucket names, a policy with a
    public object-read binding that carries no condition makes the
    whole-bucket scan of a uniform bucket stop at once: the result is
    CRITICAL with no folder, and the reload and the policy fetch are the only
    external calls; in particular no HTTP request is made. *)
Theorem bucket_wide_binding_critical gw fuel bucket_name tr policy binding :
  gcs_bucket_name bucket_name = true ->
  gw_reload gw tr bucket_name = inr (UblaValue true) ->
  gw_get_iam_policy gw (tr ++ [EvReload bucket_name]) bucket_name = inr policy ->
  In binding policy -> bucket_wide binding ->
  exists r,
    scan_bucket_uniform_access gw fuel bucket_name tr
      = (Ret (UniformScanned r),
         tr ++ [EvReload bucket_name; EvGetIamPolicy bucket_name]) /\
    summary_status (u_summary r) = Some "CRITICAL" /\
    u_bucket_level_public r = true /\
    u_folders r = [].
Proof.
  intros _ Hreload Hpolicy Hin Hwide.
  assert (Hkey : has_key "" (get_exposed_prefixes_from_iam policy bucket_name) = true).
  { eapply get_exposed_has_key; [exact Hin |].
    intros exposed. now apply expose_binding_sets_root. }
  exists {| u_bucket_name := bucket_name;
            u_uniform_access := true;
            u_bucket_level_public := true;
            u_folders := [];
            u_summary :=
              SummaryCritical "CRITICAL"
                "Bucket is completely PUBLIC! All folders and objects are exposed."
                "Detected via IAM Policy or HTTP test";
            u_root_objects := None |}.
  split; [| repeat split].
  unfold scan_bucket_uniform_access, try_except, bind at 1, reload, bind at 1, call.
  rewrite Hreload. unfold ret at 1. cbn [negb].
  unfold bind at 1, get_iam_policy, bind at 1, call.
  rewrite Hpolicy. unfold ret at 1. unfold bind at 1. rewrite Hkey.
  unfold ret. rewrite <- app_assoc. reflexivity.
Qed.

Lemma bucket_wide_binding_critical_witness :
  gcs_bucket_name "demo" = true /\
  exists r,
    scan_bucket_uniform_access
      {| gw_reload := fun _ _ => inr (UblaValue true);
         gw_get_iam_policy := fun _ _ =>
           inr [ {| members := ["allAuthenticatedUsers"];
                    role := "roles/storage.legacyObjectReader";
                    condition := None |} ];
         gw_list_blobs := Demo.list_blobs;
         gw_head := Demo.head;
         gw_acl_all := Demo.acl_all |} 3 "demo" []
      = (Ret (UniformScanned r), [] ++ [EvReload "demo"; EvGetIamPolicy "demo"]) /\
    summary_status (u_summary r) = Some "CRITICAL" /\
    u_bucket_level_public r = true /\
    u_folders r = [].
Proof.
  split; [reflexivity |].
  eapply (bucket_wide_binding_critical _ 3%nat "demo" []);
    [reflexivity | reflexivity | reflexivity | now left |].
  split; [| reflexivity].
  split; [exists "allAuthenticatedUsers"; simpl; auto | right; reflexivity].
Defined.

(** ** The scans end *)

Lemma bind_ends {A B} (m : M A) (k : A -> M B) tr :
  fst (m tr) <> OutOfFuel ->
  (forall a t, m tr = (Ret a, t) -> fst (k a t) <> OutOfFuel) ->
  fst (bind m k tr) <> OutOfFuel.
Proof.
  unfold bind. destruct (m tr) as [[a | e |] t]; cbn; intros Hm Hk;
    [now apply Hk | discriminate | now destruct Hm].
Qed.

Lemma for_each_ends {A B} (l : list A) (body : B -> A -> M B) :
  (forall x acc tr, In x l -> fst (body acc x tr) <> OutOfFuel) ->
  forall acc tr, fst (for_each l body acc tr) <> OutOfFuel.
Proof.
  induction l as [| x l IH]; intros Hbody acc tr; cbn [for_each]; [discriminate |].
  apply bind_ends; [apply Hbody; now left |].
  intros a t _. apply IH. intros y acc' t' Hy. apply Hbody. now right.
Qed.

Lemma check_public_access_http_ends gw bucket_name path tr :
  fst (check_public_access_http gw bucket_name path tr) <> OutOfFuel.
Proof.
  unfold check_public_access_http, bind, call.
  destruct (gw_head gw tr _); discriminate.
Qed.

Lemma listing_ends gw bucket_name prefix tr :
  fst (_list_folders_and_objects_raw gw bucket_name prefix tr) <> OutOfFuel.
Proof.
  unfold _list_folders_and_objects_raw, bind, call.
  destruct (gw_list_blobs gw tr bucket_name prefix) as [[] | []]; discriminate.
Qed.

(** What a listing that returns was given by the gateway. *)
Lemma listing_Ret gw bucket_name prefix tr items tr' :
  _list_folders_and_objects_raw gw bucket_name prefix tr = (Ret items, tr') ->
  exists blobs prefixes,
    gw_list_blobs gw tr bucket_name prefix = inr (blobs, prefixes) /\
    folders items = PyStr.sorted prefixes /\
    listed_objects items =
      PyStr.sorted (List.filter (fun n => negb (PyStr.endswith n "/")) blobs) /\
    tr' = tr ++ [EvListBlobs bucket_name prefix].
Proof.
  unfold _list_folders_and_objects_raw, bind, call.
  destruct (gw_list_blobs gw tr bucket_name prefix) as [[] | [blobs prefixes]];
    try discriminate.
  intros [= <- <-]. eauto 10.
Qed.

Lemma in_sorted x l : In x (PyStr.sorted l) -> In x l.
Proof.
  unfold PyStr.sorted. intros H. apply list_elem_of_In.
  rewrite <- (merge_sort_Permutation String.le l). now apply list_elem_of_In.
Qed.

(** X6. With at least as much fuel as the listed hierarchy is deep, the
    recursive scan ends: it returns a node or raises, it never runs out of
    fuel. *)
Theorem scan_folder_recursive_ends gw bucket_name fuel :
  forall d folder_path exposed parent tr,
    depth_within gw bucket_name direct_subfolder d folder_path ->
    (d <= fuel)%nat ->
    fst (scan_folder_recursive gw fuel bucket_name folder_path exposed parent tr)
      <> OutOfFuel.
Proof.
  induction fuel as [| fuel IH]; intros d folder_path exposed parent tr Hd Hle.
  { inversion Hd; subst. lia. }
  cbn [scan_folder_recursive].
  apply bind_ends.
  { destruct parent; [discriminate |].
    destruct (has_key _ exposed); [discriminate | apply check_public_access_http_ends]. }
  intros pub t _.
  destruct (classify_reason exposed (PyStr.rstrip "/" folder_path) parent pub) as [r st].
  apply bind_ends; [apply listing_ends |]. intros items t1 Hl.
  apply listing_Ret in Hl as (blobs & prefixes & Hgw & Hf & _ & _).
  apply bind_ends; [| intros; discriminate].
  apply for_each_ends. intros x acc t2 Hx.
  destruct (direct_subfolder folder_path x) eqn:Hdir; [| discriminate].
  apply bind_ends; [| intros; discriminate].
  inversion Hd as [d' p Hsub]; subst.
  apply (IH d'); [| lia].
  eapply Hsub; [exact Hgw | | exact Hdir]. apply in_sorted. now rewrite <- Hf.
Qed.

Lemma demo_docs_depth : depth_within Demo.uniform "demo" direct_subfolder 2 "docs/".
Proof.
  constructor. intros tr blobs prefixes sub Hl Hin _.
  cbn in Hl. injection Hl as <- <-.
  constructor. intros tr' blobs' prefixes' sub' Hl' Hin' _.
  destruct Hin as [<- | [<- | []]]; cbn in Hl'; injection Hl' as <- <-; destruct Hin'.
Qed.

Lemma scan_folder_recursive_ends_witness :
  depth_within Demo.uniform "demo" direct_subfolder 2 "docs/" /\
  (2 <= 2)%nat /\
  fst (scan_folder_recursive Demo.uniform 2 "demo" "docs/"
         (get_exposed_prefixes_from_iam Demo.policy "demo") false []) <> OutOfFuel.
Proof.
  split; [exact demo_docs_depth |]. split; [lia |].
  apply (scan_folder_recursive_ends Demo.uniform "demo" 2 2);
    [exact demo_docs_depth | lia].
Defined.

(** X7. With at least as much fuel as the listed hierarchy is deep, the builder
    of the fine-grained tree, which enters every listed prefix, ends: it
    returns a tree or raises, it never runs out of fuel. *)
Theorem build_fine_grained_tree_ends gw bucket_name fuel :
  forall d prefix tr,
    depth_within gw bucket_name (fun _ _ => true) d prefix ->
    (d <= fuel)%nat ->
    fst (build_fine_grained_tree gw fuel bucket_name prefix tr) <> OutOfFuel.
Proof.
  induction fuel as [| fuel IH]; intros d prefix tr Hd Hle.
  { inversion Hd; subst. lia. }
  cbn [build_fine_grained_tree].
  apply bind_ends; [apply listing_ends |]. intros items t1 Hl.
  apply listing_Ret in Hl as (blobs & prefixes & Hgw & Hf & _ & _).
  apply bind_ends.
  { apply for_each_ends. intros x acc t2 _.
    unfold classify_object, try_except.
    destruct (bind _ _ t2) as [[a | e |] t3] eqn:Hb; try discriminate.
    exfalso. revert Hb. unfold bind, is_public_acl, bind, call, ret.
    pose proof (check_public_access_http_ends gw bucket_name x
                  (t2 ++ [EvAclAll bucket_name x])) as Hp.
    destruct (check_public_access_http gw bucket_name x _) as [[p | e |] t4];
      cbn in Hp; congruence. }
  intros result t2 _.
  apply for_each_ends. intros x acc t3 Hx.
  apply bind_ends; [| intros; discriminate].
  inversion Hd as [d' p Hsub]; subst.
  apply (IH d'); [| lia].
  eapply Hsub; [exact Hgw | | reflexivity]. apply in_sorted. now rewrite <- Hf.
Qed.

Lemma demo_docs_depth_fine : depth_within Demo.fine "demo" (fun _ _ => true) 2 "docs/".
Proof.
  constructor. intros tr blobs prefixes sub Hl Hin _.
  cbn in Hl. injection Hl as <- <-.
  constructor. intros tr' blobs' prefixes' sub' Hl' Hin' _.
  destruct Hin as [<- | [<- | []]]; cbn in Hl'; injection Hl' as <- <-; destruct Hin'.
Qed.

Lemma build_fine_grained_tree_ends_witness :
  depth_within Demo.fine "demo" (fun _ _ => true) 2 "docs/" /\
  (2 <= 3)%nat /\
  fst (build_fine_grained_tree Demo.fine 3 "demo" "docs/" []) <> OutOfFuel.
Proof.
  split; [exact demo_docs_depth_fine |]. split; [lia |].
  apply (build_fine_grained_tree_ends Demo.fine "demo" 3 2);
    [exact demo_docs_depth_fine | lia].
Defined.

(** ** Induction on the trees *)

Lemma FolderNode_tree_ind (P : FolderNode -> Prop) :
  (forall n, Forall P (subfolders n) -> P n) -> forall n, P n.
Proof.
  intros H. fix IH 1. intros [p nm pub r subs objs c st]. apply H. cbn [subfolders].
  induction subs as [| x subs IHs]; constructor; [apply IH | exact IHs].
Qed.

Lemma FineNode_tree_ind (P : FineNode -> Prop) :
  (forall n, Forall P (fg_subfolders n) -> P n) -> forall n, P n.
Proof.
  intros H. fix IH 1. intros [p subs objs t c]. apply H. cbn [fg_subfolders].
  induction subs as [| x subs IHs]; constructor; [apply IH | exact IHs].
Qed.

Lemma count_total_node_eq n :
  count_total_node n = 1 + fold_right Z.add 0 (map count_total_node (subfolders n)).
Proof. now destruct n. Qed.

Lemma count_public_node_eq n :
  count_public_node n =
  count_if (is_public n) + fold_right Z.add 0 (map count_public_node (subfolders n)).
Proof. now destruct n. Qed.

(** ** How many folders, how many of them public *)

Lemma count_public_list_bounds (l : list FolderNode) :
  Forall (fun n => 0 <= count_public_node n <= count_total_node n /\
                   1 <= count_total_node n) l ->
  0 <= fold_right Z.add 0 (map count_public_node l) <=
       fold_right Z.add 0 (map count_total_node l).
Proof.
  induction 1 as [| n l [Hn _] _ IH]; cbn [map fold_right]; lia.
Qed.

Lemma count_public_node_bounds n :
  0 <= count_public_node n <= count_total_node n /\ 1 <= count_total_node n.
Proof.
  induction n as [n IH] using FolderNode_tree_ind.
  rewrite count_total_node_eq, count_public_node_eq.
  pose proof (count_public_list_bounds _ IH) as Hl.
  unfold count_if. destruct (is_public n); lia.
Qed.

Lemma count_public_folders_bounds l :
  0 <= _count_public_folders l <= _count_total_folders l.
Proof.
  unfold _count_public_folders, _count_total_folders.
  apply count_public_list_bounds. apply Forall_forall. intros n _.
  apply count_public_node_bounds.
Qed.

Lemma sum_nonneg {A} (f : A -> Z) (l : list A) :
  (forall x, In x l -> 0 <= f x) -> 0 <= fold_right Z.add 0 (map f l).
Proof.
  induction l as [| y l IH]; intros Hpos; cbn [map fold_right]; [lia |].
  assert (0 <= f y) by (apply Hpos; now left).
  assert (0 <= fold_right Z.add 0 (map f l)) by (apply IH; intros x Hx; apply Hpos; now right).
  lia.
Qed.

Lemma sum_zero_all {A} (f : A -> Z) (l : list A) :
  (forall x, In x l -> 0 <= f x) ->
  fold_right Z.add 0 (map f l) = 0 -> forall x, In x l -> f x = 0.
Proof.
  induction l as [| y l IH]; intros Hpos Hs x Hx; [destruct Hx |].
  cbn [map fold_right] in Hs.
  assert (0 <= f y) by (apply Hpos; now left).
  assert (Hl : forall z, In z l -> 0 <= f z) by (intros z Hz; apply Hpos; now right).
  pose proof (sum_nonneg f l Hl).
  destruct Hx as [<- | Hx]; [lia |]. apply IH; [exact Hl | lia | exact Hx].
Qed.

Lemma sum_pos_exists {A} (f : A -> Z) (l : list A) :
  0 < fold_right Z.add 0 (map f l) -> exists x, In x l /\ 0 < f x.
Proof.
  induction l as [| y l IH]; cbn [map fold_right]; intros Hs; [lia |].
  destruct (Z.ltb_spec 0 (f y)) as [Hy | Hy]; [exists y; split; [now left | exact Hy] |].
  destruct IH as (x & Hx & Hfx); [lia |]. exists x. split; [now right | exact Hfx].
Qed.

(** A tree with no public count has no public node; a tree with a public
    count has one. *)
Lemma count_public_node_zero n :
  count_public_node n = 0 -> forall m, in_tree m n -> is_public m = false.
Proof.
  induction n as [n IH] using FolderNode_tree_ind.
  rewrite count_public_node_eq. rewrite Forall_forall in IH. intros H m Hm.
  assert (Hpos : forall c, In c (subfolders n) -> 0 <= count_public_node c).
  { intros c _. apply count_public_node_bounds. }
  pose proof (sum_nonneg count_public_node (subfolders n) Hpos) as Hl.
  assert (Hn : is_public n = false).
  { destruct (is_public n); [cbn in H; lia | reflexivity]. }
  destruct Hm as [-> | Hd]; [exact Hn |].
  apply descendant_inv in Hd as (c & Hc & Hmc).
  apply (IH c); [now apply list_elem_of_In | | exact Hmc].
  apply (sum_zero_all count_public_node (subfolders n) Hpos); [| exact Hc].
  rewrite Hn in H. cbn in H. lia.
Qed.

Lemma count_public_node_pos n :
  0 < count_public_node n -> exists m, in_tree m n /\ is_public m = true.
Proof.
  induction n as [n IH] using FolderNode_tree_ind.
  rewrite count_public_node_eq. rewrite Forall_forall in IH. intros H.
  destruct (is_public n) eqn:Hn; [exists n; split; [now left | exact Hn] |].
  cbn in H. destruct (sum_pos_exists count_public_node (subfolders n)) as (c & Hc & Hpc);
    [lia |].
  destruct (IH c) as (m & Hm & Hp); [now apply list_elem_of_In | exact Hpc |].
  exists m. split; [eapply in_tree_child; eassumption | exact Hp].
Qed.

Lemma count_public_folders_zero l :
  _count_public_folders l = 0 ->
  forall f n, In f l -> in_tree n f -> is_public n = false.
Proof.
  unfold _count_public_folders. intros H f n Hf.
  apply count_public_node_zero.
  apply (sum_zero_all count_public_node l); [| exact H | exact Hf].
  intros c _. apply count_public_node_bounds.
Qed.

Lemma count_public_folders_pos l :
  0 < _count_public_folders l ->
  exists f n, In f l /\ in_tree n f /\ is_public n = true.
Proof.
  unfold _count_public_folders. intros H.
  apply sum_pos_exists in H as (f & Hf & Hpos).
  apply count_public_node_pos in Hpos as (n & Hn & Hp). eauto.
Qed.

Lemma scan_handler_raises {A} bucket_name e tr (a : A) tr' :
  scan_handler bucket_name e tr <> (Ret a, tr').
Proof. destruct e; discriminate. Qed.

(** What a whole-bucket scan that returns a result went through. *)
Lemma scan_bucket_uniform_access_Ret gw fuel bucket_name tr r tr' :
  scan_bucket_uniform_access gw fuel bucket_name tr = (Ret (UniformScanned r), tr') ->
  (u_bucket_level_public r = true /\ u_folders r = [] /\
   summary_status (u_summary r) = Some "CRITICAL") \/
  (u_bucket_level_public r = false /\
   u_summary r =
     SummaryFolders
       (if 0 <? _count_public_folders (u_folders r) then "WARNING" else "SAFE")
       (_count_total_folders (u_folders r))
       (_count_public_folders (u_folders r))
       (if 0 <? _count_public_folders (u_folders r)
        then PyStr.of_int (_count_public_folders (u_folders r)) +:+ "/" +:+
             PyStr.of_int (_count_total_folders (u_folders r)) +:+ " folders public"
        else "No folders are public")).
Proof.
  unfold scan_bucket_uniform_access. intros H.
  apply try_except_Ret in H as [H | (e & t & _ & H)];
    [| now apply scan_handler_raises in H].
  bind_inv H.
  destruct (negb _); [apply ret_Ret in H as [[=] _] |].
  bind_inv H. bind_inv H. rename a1 into bucket_public.
  destruct bucket_public.
  - apply ret_Ret in H as [[= <-] _]. left. auto.
  - bind_inv H. bind_inv H. bind_inv H.
    apply ret_Ret in H as [[= <-] _]. right. auto.
Qed.

Lemma tree_nodes_eq n : tree_nodes n = n :: flat_map tree_nodes (subfolders n).
Proof. now destruct n. Qed.

(** The nodes of a tree are the nodes in the tree. *)
Lemma tree_nodes_in_tree f : forall n, In n (tree_nodes f) <-> in_tree n f.
Proof.
  induction f as [f IH] using FolderNode_tree_ind. intros n.
  rewrite tree_nodes_eq. cbn [In]. rewrite in_flat_map. split.
  - intros [<- | (c & Hc & Hn)]; [now left |].
    rewrite Forall_forall in IH.
    eapply in_tree_child; [exact Hc |]. apply (IH c); [| exact Hn].
    now apply list_elem_of_In.
  - intros [-> | Hd]; [now left |]. right.
    apply descendant_inv in Hd as (c & Hc & Hn).
    exists c. split; [exact Hc |].
    rewrite Forall_forall in IH. apply (IH c); [| exact Hn].
    now apply list_elem_of_In.
Qed.

Lemma forest_nodes_in_tree folders n :
  In n (forest_nodes folders) <-> exists f, In f folders /\ in_tree n f.
Proof.
  unfold forest_nodes. rewrite in_flat_map.
  split; intros (f & Hf & Hn); exists f; (split; [exact Hf |]);
    now apply tree_nodes_in_tree.
Qed.

Lemma count_nodes_list (l : list FolderNode) :
  Forall (fun n => count_total_node n = Z.of_nat (List.length (tree_nodes n)) /\
                   count_public_node n =
                   Z.of_nat (List.length (List.filter is_public (tree_nodes n)))) l ->
  fold_right Z.add 0 (map count_total_node l)
    = Z.of_nat (List.length (flat_map tree_nodes l)) /\
  fold_right Z.add 0 (map count_public_node l)
    = Z.of_nat (List.length (List.filter is_public (flat_map tree_nodes l))).
Proof.
  induction 1 as [| n l [Ht Hp] _ [IHt IHp]]; cbn [map fold_right flat_map];
    [split; reflexivity |].
  rewrite List.filter_app, !length_app, !Nat2Z.inj_add. lia.
Qed.

(** The two counters of the code count the nodes of a tree and the public
    ones among them. *)
Lemma count_node_nodes n :
  count_total_node n = Z.of_nat (List.length (tree_nodes n)) /\
  count_public_node n = Z.of_nat (List.length (List.filter is_public (tree_nodes n))).
Proof.
  induction n as [n IH] using FolderNode_tree_ind.
  rewrite count_total_node_eq, count_public_node_eq, tree_nodes_eq.
  destruct (count_nodes_list _ IH) as [Ht Hp]. rewrite Ht, Hp.
  cbn [List.filter List.length]. unfold count_if.
  destruct (is_public n); cbn [List.length]; lia.
Qed.

Lemma count_folders_nodes folders :
  _count_total_folders folders = Z.of_nat (List.length (forest_nodes folders)) /\
  _count_public_folders folders
    = Z.of_nat (List.length (List.filter is_public (forest_nodes folders))).
Proof.
  unfold _count_total_folders, _count_public_folders, forest_nodes.
  apply count_nodes_list. apply Forall_forall. intros n _. apply count_node_nodes.
Qed.

(** X8. The summary of a whole-bucket scan of a uniform bucket tells the truth
    about the trees beside it: either the bucket is public, the status is
    CRITICAL and no tree was built, or [total_folders] is the number of the
    nodes of the trees, [public_folders] the number of the public ones among
    them, and the status is SAFE exactly when no node of any tree is public
    and WARNING exactly when one is.  The nodes are counted on the list of
    the nodes of the trees, [forest_nodes], not by the counters of the
    code. *)
Theorem uniform_summary_consistent gw fuel bucket_name tr r tr' :
  scan_bucket_uniform_access gw fuel bucket_name tr = (Ret (UniformScanned r), tr') ->
  (u_bucket_level_public r = true /\ u_folders r = [] /\
   summary_status (u_summary r) = Some "CRITICAL") \/
  (u_bucket_level_public r = false /\
   exists status message,
     u_summary r =
       SummaryFolders status
         (Z.of_nat (List.length (forest_nodes (u_folders r))))
         (Z.of_nat (List.length (List.filter is_public (forest_nodes (u_folders r)))))
         message /\
     (forall n, In n (forest_nodes (u_folders r)) <->
                exists f, In f (u_folders r) /\ in_tree n f) /\
     (status = "SAFE" <->
      forall f n, In f (u_folders r) -> in_tree n f -> is_public n = false) /\
     (status = "WARNING" <->
      exists f n, In f (u_folders r) /\ in_tree n f /\ is_public n = true)).
Proof.
  intros H. apply scan_bucket_uniform_access_Ret in H as [H | [Hb Hs]]; [now left |].
  right. split; [exact Hb |].
  destruct (count_folders_nodes (u_folders r)) as [Ht Hp].
  eexists. eexists. split; [rewrite <- Ht, <- Hp; exact Hs |].
  split; [intros n; apply forest_nodes_in_tree |].
  destruct (0 <? _count_public_folders (u_folders r)) eqn:Hpos.
  - apply Z.ltb_lt in Hpos.
    destruct (count_public_folders_pos _ Hpos) as (f & n & Hf & Hn & Hp').
    split.
    + split; [discriminate |]. intros Hall. rewrite (Hall f n Hf Hn) in Hp'. discriminate.
    + split; [intros _; eauto | reflexivity].
  - apply Z.ltb_ge in Hpos.
    pose proof (count_public_folders_bounds (u_folders r)) as Hbounds.
    assert (Hz : _count_public_folders (u_folders r) = 0) by lia.
    pose proof (count_public_folders_zero _ Hz) as Hnone.
    split.
    + split; [intros _; exact Hnone | reflexivity].
    + split; [discriminate |]. intros (f & n & Hf & Hn & Hp').
      rewrite (Hnone f n Hf Hn) in Hp'. discriminate.
Qed.

(** ** What a scan costs *)

Lemma count_events_app kind l1 l2 :
  count_events kind (l1 ++ l2) = count_events kind l1 + count_events kind l2.
Proof.
  unfold count_events. rewrite List.filter_app, length_app. lia.
Qed.

Lemma count_events_nonneg kind l : 0 <= count_events kind l.
Proof. unfold count_events. lia. Qed.

Lemma costs_trans n1 n2 t1 t2 t3 :
  costs n1 t1 t2 -> costs n2 t2 t3 -> costs (n1 + n2) t1 t3.
Proof.
  intros (e1 & -> & Hl1 & Hh1 & Hk1) (e2 & -> & Hl2 & Hh2 & Hk2).
  exists (e1 ++ e2). rewrite !count_events_app, forallb_app, Hk1, Hk2.
  split; [now rewrite app_assoc |]. split; [lia |]. split; [lia | reflexivity].
Qed.

Lemma costs_refl tr : costs 0 tr tr.
Proof.
  exists []. rewrite app_nil_r. split; [reflexivity |]. split; [reflexivity |].
  split; [unfold count_events; cbn; lia | reflexivity].
Qed.

Lemma sum_snoc (l : list Z) (z : Z) :
  fold_right Z.add 0 (l ++ [z]) = fold_right Z.add 0 l + z.
Proof. induction l as [| y l IH]; cbn [app fold_right]; lia. Qed.

Lemma check_public_access_http_Ret gw bucket_name path tr b tr' :
  check_public_access_http gw bucket_name path tr = (Ret b, tr') ->
  tr' = tr ++ [EvHead (probe_url bucket_name path) 5] /\
  b = http_says_public (gw_head gw tr (probe_url bucket_name path)).
Proof.
  unfold check_public_access_http, bind, call.
  destruct (gw_head gw tr _); cbn; try discriminate; intros [= <- <-]; auto.
Qed.

(** X9. A scan that returns a tree made one listing for each node of the tree,
    at most one HTTP probe for each node, and no other external call. *)
Theorem scan_folder_recursive_cost gw fuel :
  forall bucket_name folder_path exposed parent tr node tr',
    scan_folder_recursive gw fuel bucket_name folder_path exposed parent tr
      = (Ret node, tr') ->
    exists evs,
      tr' = tr ++ evs /\
      count_events is_list_blobs evs = count_total_node node /\
      count_events is_head evs <= count_total_node node /\
      forallb (fun e => is_head e || is_list_blobs e) evs = true.
Proof.
  induction fuel as [| fuel IH]; [discriminate |].
  intros bucket_name folder_path exposed parent tr node tr' H.
  apply scan_folder_recursive_Ret in H
    as (pub & tr1 & items & tr2 & subs & Hc & Hl & Hloop & ->).
  cbv zeta in Hc.
  (* the classification: no listing, at most one probe *)
  assert (Hclass : exists evs, tr1 = tr ++ evs /\
                     count_events is_list_blobs evs = 0 /\
                     count_events is_head evs <= 1 /\
                     forallb (fun e => is_head e || is_list_blobs e) evs = true).
  { destruct parent;
      [apply ret_Ret in Hc as [_ <-]; exists []; rewrite app_nil_r; unfold count_events; cbn; repeat split; lia |].
    destruct (has_key _ exposed);
      [apply ret_Ret in Hc as [_ <-]; exists []; rewrite app_nil_r; unfold count_events; cbn; repeat split; lia |].
    apply check_public_access_http_Ret in Hc as [-> _].
    eexists. split; [reflexivity |]. unfold count_events. cbn. repeat split; lia. }
  apply listing_Ret in Hl as (_ & _ & _ & _ & _ & ->).
  assert (Hsubs : costs (fold_right Z.add 0 (map count_total_node subs))
                    (tr1 ++ [EvListBlobs bucket_name folder_path]) tr').
  { eapply (for_each_invariant
              (fun acc t => costs (fold_right Z.add 0 (map count_total_node acc))
                              (tr1 ++ [EvListBlobs bucket_name folder_path]) t))
      in Hloop; [exact Hloop | | apply costs_refl].
    intros acc x t acc' t' _ Hacc Hbody.
    destruct (direct_subfolder folder_path x).
    - bind_inv Hbody. apply ret_Ret in Hbody as [<- <-].
      rewrite map_app. cbn [map]. rewrite sum_snoc.
      eapply costs_trans; [exact Hacc |]. eapply IH. exact Hbody0.
    - apply ret_Ret in Hbody as [<- <-]. exact Hacc. }
  destruct Hclass as (e1 & -> & Hl1 & Hh1 & Hk1).
  destruct Hsubs as (e2 & -> & Hl2 & Hh2 & Hk2).
  exists (e1 ++ [EvListBlobs bucket_name folder_path] ++ e2).
  rewrite count_total_node_eq. cbn [subfolders].
  rewrite !count_events_app, !forallb_app, Hk1, Hk2.
  split; [now rewrite <- !app_assoc |].
  unfold count_events at 2 5. cbn. repeat split; lia.
Qed.

Lemma scan_folder_recursive_cost_witness :
  exists node tr' evs,
    scan_folder_recursive Demo.uniform 3 "demo" "docs/"
      (get_exposed_prefixes_from_iam Demo.policy "demo") false [] = (Ret node, tr') /\
    tr' = [] ++ evs /\
    count_events is_list_blobs evs = 3 /\
    count_total_node node = 3.
Proof.
  eexists. eexists.
  assert (Hrun : scan_folder_recursive Demo.uniform 3 "demo" "docs/"
            (get_exposed_prefixes_from_iam Demo.policy "demo") false []
          = (Ret _, _)) by (vm_compute; reflexivity).
  destruct (scan_folder_recursive_cost _ _ _ _ _ _ _ _ _ Hrun)
    as (evs & Htr & Hl & _ & _).
  exists evs. split; [exact Hrun |]. split; [exact Htr |].
  split; [rewrite Hl |]; vm_compute; reflexivity.
Defined.

(** ** Folder markers are not objects *)

Lemma sorted_Forall (P : string -> Prop) l : Forall P l -> Forall P (PyStr.sorted l).
Proof.
  rewrite !Forall_forall. intros H x Hx. apply H.
  apply list_elem_of_In. apply in_sorted. now apply list_elem_of_In.
Qed.

Lemma listing_objects_not_markers gw bucket_name prefix tr items tr' :
  _list_folders_and_objects_raw gw bucket_name prefix tr = (Ret items, tr') ->
  Forall (fun n => PyStr.endswith n "/" = false) (listed_objects items).
Proof.
  intros H. apply listing_Ret in H as (blobs & prefixes & _ & _ & -> & _).
  apply sorted_Forall. apply Forall_forall. intros x Hx.
  apply list_elem_of_In in Hx. apply filter_In in Hx as [_ Hx].
  now apply negb_true_iff in Hx.
Qed.

(** X10. No tree of either scan records, as an object, a name that ends with a
    slash: the placeholders that mark folders in a listing are left out. *)
Theorem objects_are_not_markers :
  (forall gw fuel bucket_name folder_path exposed parent tr node tr',
      scan_folder_recursive gw fuel bucket_name folder_path exposed parent tr
        = (Ret node, tr') ->
      forall n o, in_tree n node -> In o (objects n) -> PyStr.endswith o "/" = false) /\
  (forall gw fuel bucket_name prefix tr node tr',
      build_fine_grained_tree gw fuel bucket_name prefix tr = (Ret node, tr') ->
      forall n e, in_fine_tree n node -> In e (fg_objects n) ->
                  PyStr.endswith (oe_name e) "/" = false).
Proof.
  split.
  - intros gw fuel bucket_name folder_path exposed parent tr node tr' H n o Hn Ho.
    assert (Hall : Forall (fun o => PyStr.endswith o "/" = false) (objects n)).
    { clear Ho. revert n Hn.
      eapply (scan_every_node gw
                (fun n => Forall (fun o => PyStr.endswith o "/" = false) (objects n)));
        [| exact H].
      intros f p par t nd t' Hs _.
      apply scan_folder_recursive_Ret in Hs
        as (pub & tr1 & items & tr2 & subs & _ & Hl & _ & ->).
      cbn [objects]. eapply listing_objects_not_markers. exact Hl. }
    rewrite Forall_forall in Hall. apply Hall. now apply list_elem_of_In.
  - intros gw fuel bucket_name prefix tr node tr' H n e Hn He.
    assert (Hall : Forall (fun e => PyStr.endswith (oe_name e) "/" = false) (fg_objects n)).
    { clear He. revert n Hn.
      eapply (build_every_node gw
                (fun n => Forall (fun e => PyStr.endswith (oe_name e) "/" = false)
                                 (fg_objects n))); [| exact H].
      intros f p t nd t' Hb.
      apply build_fine_grained_tree_Ret in Hb
        as (items & tr1 & result & tr2 & Hl & Hobjs & Hloop).
      apply listing_objects_not_markers in Hl. rewrite Forall_forall in Hl.
      assert (Hres : Forall (fun e => PyStr.endswith (oe_name e) "/" = false)
                            (fg_objects result)).
      { eapply (for_each_invariant
                  (fun acc _ => Forall (fun e => PyStr.endswith (oe_name e) "/" = false)
                                       (fg_objects acc))) in Hobjs;
          [exact Hobjs | | constructor].
        intros acc x t0 acc' t0' Hx Hacc Hbody.
        apply classify_object_Ret in Hbody as [-> | (pub & ->)]; [exact Hacc |].
        cbn [fg_objects]. apply Forall_app. split; [exact Hacc |].
        constructor; [| constructor]. cbn. apply Hl. now apply list_elem_of_In. }
      eapply (for_each_invariant
                (fun acc _ => Forall (fun e => PyStr.endswith (oe_name e) "/" = false)
                                     (fg_objects acc))) in Hloop;
        [exact Hloop | | exact Hres].
      intros acc x t0 acc' t0' _ Hacc Hbody.
      bind_inv Hbody. apply ret_Ret in Hbody as [<- _]. exact Hacc. }
    rewrite Forall_forall in Hall. apply Hall. now apply list_elem_of_In.
Qed.

Lemma objects_are_not_markers_witness :
  exists node tr',
    scan_folder_recursive Demo.uniform 3 "demo" "docs/"
      (get_exposed_prefixes_from_iam Demo.policy "demo") false [] = (Ret node, tr') /\
    forall n o, in_tree n node -> In o (objects n) -> PyStr.endswith o "/" = false.
Proof.
  eexists. eexists. split; [vm_compute; reflexivity |].
  eapply (proj1 objects_are_not_markers Demo.uniform 3%nat "demo" "docs/"
            (get_exposed_prefixes_from_iam Demo.policy "demo") false []).
  vm_compute. reflexivity.
Defined.

(** ** The counts of the fine-grained tree *)

Lemma fine_entries_eq n :
  fine_entries n = fg_objects n ++ flat_map fine_entries (fg_subfolders n).
Proof. now destruct n. Qed.

Lemma count_public_app l1 l2 :
  count_public (l1 ++ l2) = count_public l1 + count_public l2.
Proof. unfold count_public. rewrite List.filter_app, length_app. lia. Qed.

Lemma count_public_bounds l : 0 <= count_public l <= Z.of_nat (List.length l).
Proof.
  unfold count_public. pose proof (List.filter_length_le oe_is_public l). lia.
Qed.

Lemma in_fine_tree_child n c root :
  In c (fg_subfolders root) -> in_fine_tree n c -> in_fine_tree n root.
Proof.
  intros Hc [-> | Hd]; right; [now constructor | econstructor 2; eassumption].
Qed.

(** The public count of a node of the fine-grained tree: its recorded
    public objects and the public counts of its subfolders. *)
Lemma build_public_level gw fuel bucket_name prefix tr node tr' :
  build_fine_grained_tree gw (S fuel) bucket_name prefix tr = (Ret node, tr') ->
  public_object_count node =
  count_public (fg_objects node) +
  sum_counts (map public_object_count (fg_subfolders node)).
Proof.
  intros H.
  apply build_fine_grained_tree_Ret in H
    as (items & tr1 & result & tr2 & _ & Hobjs & Hloop).
  assert (H1 : public_object_count result = count_public (fg_objects result)
               /\ fg_subfolders result = []).
  { eapply (for_each_invariant
              (fun acc _ => public_object_count acc = count_public (fg_objects acc)
                            /\ fg_subfolders acc = [])) in Hobjs;
      [exact Hobjs | | now split].
    intros acc x t acc' t' _ [Hacc Hs] Hbody.
    apply classify_object_Ret in Hbody as [-> | (pub & ->)]; [now split |].
    cbn [public_object_count fg_objects fg_subfolders]. split; [| exact Hs].
    rewrite count_public_app, Hacc. unfold count_public at 2. cbn.
    now destruct pub. }
  destruct H1 as [Ht Hs].
  eapply (for_each_invariant
            (fun acc _ => public_object_count acc =
                          count_public (fg_objects acc) +
                          sum_counts (map public_object_count (fg_subfolders acc))))
    in Hloop; [exact Hloop | |].
  - intros acc x t acc' t' _ Hacc Hbody.
    bind_inv Hbody. apply ret_Ret in Hbody as [<- _].
    cbn [public_object_count fg_objects fg_subfolders].
    rewrite map_app. cbn [map]. unfold sum_counts in *. rewrite sum_snoc. lia.
  - rewrite Hs, Ht. unfold sum_counts. cbn. lia.
Qed.

Lemma length_flat_map {A B} (f : A -> list B) (l : list A) :
  Z.of_nat (List.length (flat_map f l)) =
  sum_counts (map (fun x => Z.of_nat (List.length (f x))) l).
Proof.
  unfold sum_counts.
  induction l as [| x l IH]; cbn [flat_map map fold_right]; [reflexivity |].
  rewrite length_app. lia.
Qed.

Lemma count_public_flat_map {A} (f : A -> list ObjectExposure) (l : list A) :
  count_public (flat_map f l) = sum_counts (map (fun x => count_public (f x)) l).
Proof.
  unfold sum_counts.
  induction l as [| x l IH]; cbn [flat_map map fold_right]; [reflexivity |].
  rewrite count_public_app. lia.
Qed.

Lemma sum_counts_ext {A} (f g : A -> Z) (l : list A) :
  Forall (fun x => f x = g x) l -> sum_counts (map f l) = sum_counts (map g l).
Proof.
  unfold sum_counts. induction 1 as [| x l Hx _ IH]; cbn [map fold_right]; [reflexivity |].
  now rewrite Hx, IH.
Qed.

(** A tree whose every node counts itself and its subfolders counts its
    entries. *)
Lemma fine_counts_of_levels n :
  (forall m, in_fine_tree m n ->
             fine_count_aggregated m /\
             public_object_count m =
             count_public (fg_objects m) +
             sum_counts (map public_object_count (fg_subfolders m))) ->
  total_object_count n = Z.of_nat (List.length (fine_entries n)) /\
  public_object_count n = count_public (fine_entries n).
Proof.
  induction n as [n IH] using FineNode_tree_ind. intros Hlev.
  destruct (Hlev n (or_introl eq_refl)) as [Ht Hp].
  unfold fine_count_aggregated in Ht.
  assert (Hsub : Forall (fun c => total_object_count c = Z.of_nat (List.length (fine_entries c))
                                  /\ public_object_count c = count_public (fine_entries c))
                        (fg_subfolders n)).
  { rewrite Forall_forall in IH |- *. intros c Hc. apply (IH c Hc).
    intros m Hm. apply Hlev. eapply in_fine_tree_child; [| exact Hm].
    now apply list_elem_of_In. }
  rewrite fine_entries_eq, length_app, count_public_app, Nat2Z.inj_add.
  rewrite length_flat_map, count_public_flat_map.
  rewrite Ht, Hp. split; f_equal; apply sum_counts_ext;
    eapply Forall_impl; try exact Hsub; cbn; tauto.
Qed.

(** Every node of a tree that [build_fine_grained_tree] returns counts its
    own entries and the counts of its subfolders. *)
Lemma build_fine_levels gw fuel bucket_name prefix tr node tr' :
  build_fine_grained_tree gw fuel bucket_name prefix tr = (Ret node, tr') ->
  forall m, in_fine_tree m node ->
    fine_count_aggregated m /\
    public_object_count m =
    count_public (fg_objects m) +
    sum_counts (map public_object_count (fg_subfolders m)).
Proof.
  intros H.
  eapply (build_every_node gw
            (fun m => fine_count_aggregated m /\
                      public_object_count m =
                      count_public (fg_objects m) +
                      sum_counts (map public_object_count (fg_subfolders m))));
    [| exact H].
  intros f p t nd t' Hb. split;
    [eapply build_count_level | eapply build_public_level]; exact Hb.
Qed.

Lemma in_fine_tree_trans a b c :
  in_fine_tree a b -> in_fine_tree b c -> in_fine_tree a c.
Proof.
  intros Hab [-> | Hbc]; [exact Hab |].
  destruct Hab as [-> | Hab]; [now right |]. right.
  induction Hbc as [x y Hy | x y z Hy Hz IH].
  - econstructor 2; eassumption.
  - econstructor 2; [exact Hy | exact (IH Hab)].
Qed.

(** X11. In every tree that [build_fine_grained_tree] returns, the two counts of
    a node are the number of the entries recorded at the node and below it,
    and the number of the public ones among them. *)
Theorem fine_counts_are_counts gw fuel bucket_name prefix tr node tr' :
  build_fine_grained_tree gw fuel bucket_name prefix tr = (Ret node, tr') ->
  forall n, in_fine_tree n node ->
    total_object_count n = Z.of_nat (List.length (fine_entries n)) /\
    public_object_count n = count_public (fine_entries n) /\
    0 <= public_object_count n <= total_object_count n.
Proof.
  intros H n Hn.
  destruct (fine_counts_of_levels n) as [Ht Hp].
  { intros m Hm. eapply build_fine_levels; [exact H |].
    eapply in_fine_tree_trans; eassumption. }
  rewrite Ht, Hp. pose proof (count_public_bounds (fine_entries n)). auto.
Qed.

Lemma fine_counts_are_counts_witness :
  exists node tr',
    build_fine_grained_tree Demo.fine 3 "demo" "docs/" [] = (Ret node, tr') /\
    total_object_count node = 4 /\ public_object_count node = 0 /\
    forall n, in_fine_tree n node ->
      total_object_count n = Z.of_nat (List.length (fine_entries n)) /\
      public_object_count n = count_public (fine_entries n) /\
      0 <= public_object_count n <= total_object_count n.
Proof.
  eexists. eexists. split; [vm_compute; reflexivity |].
  split; [reflexivity |]. split; [reflexivity |].
  eapply (fine_counts_are_counts Demo.fine 3%nat "demo" "docs/" []).
  vm_compute. reflexivity.
Defined.

Lemma uniform_summary_consistent_witness :
  exists r tr',
    scan_bucket_uniform_access Demo.uniform 3 "demo" [] = (Ret (UniformScanned r), tr') /\
    u_summary r = SummaryFolders "WARNING" 6 3 "3/6 folders public" /\
    ((u_bucket_level_public r = true /\ u_folders r = [] /\
      summary_status (u_summary r) = Some "CRITICAL") \/
     (u_bucket_level_public r = false /\
      exists status message,
        u_summary r =
          SummaryFolders status
            (Z.of_nat (List.length (forest_nodes (u_folders r))))
            (Z.of_nat (List.length (List.filter is_public (forest_nodes (u_folders r)))))
            message /\
        (forall n, In n (forest_nodes (u_folders r)) <->
                   exists f, In f (u_folders r) /\ in_tree n f) /\
        (status = "SAFE" <->
         forall f n, In f (u_folders r) -> in_tree n f -> is_public n = false) /\
        (status = "WARNING" <->
         exists f n, In f (u_folders r) /\ in_tree n f /\ is_public n = true))).
Proof.
  eexists. eexists. split; [vm_compute; reflexivity |].
  split; [vm_compute; reflexivity |].
  eapply (uniform_summary_consistent Demo.uniform 3%nat "demo" []).
  vm_compute. reflexivity.
Defined.

(** ** The summary of the fine-grained scan *)

Lemma count_public_zero l :
  count_public l = 0 -> forall e, In e l -> oe_is_public e = false.
Proof.
  unfold count_public. intros H e He.
  destruct (oe_is_public e) eqn:Hp; [| reflexivity].
  assert (Hin : In e (List.filter oe_is_public l)) by (apply filter_In; auto).
  destruct (List.filter oe_is_public l); [destruct Hin | discriminate].
Qed.

Lemma count_public_pos l :
  0 < count_public l -> exists e, In e l /\ oe_is_public e = true.
Proof.
  unfold count_public. intros H.
  destruct (List.filter oe_is_public l) as [| e l'] eqn:Hf; [cbn in H; lia |].
  assert (Hin : In e (List.filter oe_is_public l)) by (rewrite Hf; now left).
  apply filter_In in Hin. now exists e.
Qed.

(** What a fine-grained scan that returns a result went through. *)
Lemma scan_bucket_fine_grained_access_Ret gw fuel bucket_name tr r tr' :
  scan_bucket_fine_grained_access gw fuel bucket_name tr = (Ret (FineScanned r), tr') ->
  (f_bucket_level_public r = true /\ f_folder_tree r = None /\
   summary_status (f_summary r) = Some "CRITICAL") \/
  (f_bucket_level_public r = false /\
   exists tree t t',
     build_fine_grained_tree gw fuel bucket_name "" t = (Ret tree, t') /\
     f_folder_tree r = Some tree /\
     f_summary r =
       SummaryObjects
         (if 0 <? public_object_count tree then "WARNING" else "SAFE")
         (total_object_count tree) (public_object_count tree)
         (if 0 <? public_object_count tree
          then PyStr.of_int (public_object_count tree) +:+ "/" +:+
               PyStr.of_int (total_object_count tree) +:+ " objects public"
          else "No objects are public")).
Proof.
  unfold scan_bucket_fine_grained_access. intros H.
  apply try_except_Ret in H as [H | (e & t & _ & H)];
    [| now apply scan_handler_raises in H].
  apply bind_Ret in H as (u & t1 & _ & H).
  apply bind_Ret in H as (is_uniform & t2 & _ & H).
  destruct is_uniform; [apply ret_Ret in H as [[=] _] |].
  apply bind_Ret in H as (policy & t3 & _ & H).
  apply bind_Ret in H as (bucket_public & t4 & _ & H).
  destruct bucket_public.
  - apply ret_Ret in H as [[= <-] _]. left. auto.
  - apply bind_Ret in H as (tree & t5 & Htree & H).
    apply ret_Ret in H as [[= <-] _]. right. split; [reflexivity |].
    exists tree, t4, t5. auto.
Qed.

(** X12. The summary of a fine-grained scan tells the truth about the tree beside
    it: either the bucket is public, the status is CRITICAL and no tree was
    built, or the summary counts the entries of the tree and the public ones
    among them, and the status is SAFE exactly when no entry is public and
    WARNING exactly when one is. *)
Theorem fine_summary_consistent gw fuel bucket_name tr r tr' :
  scan_bucket_fine_grained_access gw fuel bucket_name tr = (Ret (FineScanned r), tr') ->
  (f_bucket_level_public r = true /\ f_folder_tree r = None /\
   summary_status (f_summary r) = Some "CRITICAL") \/
  (f_bucket_level_public r = false /\
   exists tree status message,
     f_folder_tree r = Some tree /\
     f_summary r = SummaryObjects status (Z.of_nat (List.length (fine_entries tree)))
                     (count_public (fine_entries tree)) message /\
     (status = "SAFE" <->
      forall e, In e (fine_entries tree) -> oe_is_public e = false) /\
     (status = "WARNING" <->
      exists e, In e (fine_entries tree) /\ oe_is_public e = true)).
Proof.
  intros H.
  apply scan_bucket_fine_grained_access_Ret in H
    as [H | (Hb & tree & t & t' & Htree & Hft & Hs)]; [now left |].
  right. split; [exact Hb |].
  destruct (fine_counts_of_levels tree) as [Ht Hp].
  { eapply build_fine_levels. exact Htree. }
  rewrite Ht, Hp in Hs.
  exists tree. eexists. eexists. split; [exact Hft |]. split; [exact Hs |].
  pose proof (count_public_bounds (fine_entries tree)) as Hbounds.
  destruct (0 <? count_public (fine_entries tree)) eqn:Hpos.
  - apply Z.ltb_lt in Hpos. destruct (count_public_pos _ Hpos) as (e & He & Hp').
    split.
    + split; [discriminate |]. intros Hall. rewrite (Hall e He) in Hp'. discriminate.
    + split; [intros _; eauto | reflexivity].
  - apply Z.ltb_ge in Hpos.
    assert (Hz : count_public (fine_entries tree) = 0) by lia.
    pose proof (count_public_zero _ Hz) as Hnone.
    split.
    + split; [intros _; exact Hnone | reflexivity].
    + split; [discriminate |]. intros (e & He & Hp').
      rewrite (Hnone e He) in Hp'. discriminate.
Qed.

Lemma fine_summary_consistent_witness :
  exists r tr',
    scan_bucket_fine_grained_access Demo.fine 3 "demo" [] = (Ret (FineScanned r), tr') /\
    f_summary r = SummaryObjects "SAFE" 7 0 "No objects are public" /\
    ((f_bucket_level_public r = true /\ f_folder_tree r = None /\
      summary_status (f_summary r) = Some "CRITICAL") \/
     (f_bucket_level_public r = false /\
      exists tree status message,
        f_folder_tree r = Some tree /\
        f_summary r = SummaryObjects status (Z.of_nat (List.length (fine_entries tree)))
                        (count_public (fine_entries tree)) message /\
        (status = "SAFE" <->
         forall e, In e (fine_entries tree) -> oe_is_public e = false) /\
        (status = "WARNING" <->
         exists e, In e (fine_entries tree) /\ oe_is_public e = true))).
Proof.
  eexists. eexists. split; [vm_compute; reflexivity |].
  split; [vm_compute; reflexivity |].
  eapply (fine_summary_consistent Demo.fine 3%nat "demo" []).
  vm_compute. reflexivity.
Defined.

(** ** The exceptions of the scans *)

Lemma bind_Raise {A B} (m : M A) (k : A -> M B) tr e tr' :
  bind m k tr = (Raise e, tr') ->
  m tr = (Raise e, tr') \/ exists a t, m tr = (Ret a, t) /\ k a t = (Raise e, tr').
Proof.
  unfold bind. destruct (m tr) as [[a | e0 |] t]; intros H;
    [eauto 10 | inversion H; now left | discriminate].
Qed.

Lemma try_except_Raise {A} (m : M A) h tr e tr' :
  try_except m h tr = (Raise e, tr') ->
  exists e0 t, m tr = (Raise e0, t) /\ h e0 t = (Raise e, tr').
Proof.
  unfold try_except. destruct (m tr) as [[a | e0 |] t]; intros H; try discriminate; eauto 10.
Qed.

Lemma for_each_Raise {A B} (l : list A) (body : B -> A -> M B) acc tr e tr' :
  for_each l body acc tr = (Raise e, tr') ->
  exists acc0 x t, In x l /\ body acc0 x t = (Raise e, tr').
Proof.
  revert acc tr. induction l as [| x l IH]; intros acc tr H; cbn [for_each] in H.
  - discriminate.
  - apply bind_Raise in H as [H | (a & t & _ & H)].
    + exists acc, x, tr. split; [now left | exact H].
    + destruct (IH _ _ H) as (acc0 & y & t0 & Hy & Hb).
      exists acc0, y, t0. split; [now right | exact Hb].
Qed.

Lemma check_public_access_http_Raise gw bucket_name p tr e tr' :
  check_public_access_http gw bucket_name p tr = (Raise e, tr') ->
  tr' = tr ++ [EvHead (probe_url bucket_name p) 5] /\
  gw_head gw tr (probe_url bucket_name p) = HeadOtherError e.
Proof.
  unfold check_public_access_http, bind, call. cbv zeta.
  destruct (gw_head gw tr _); intros H; try discriminate.
  inversion H. auto.
Qed.

Lemma reload_Raise gw bucket_name tr e tr' :
  reload gw bucket_name tr = (Raise e, tr') ->
  tr' = tr ++ [EvReload bucket_name] /\ gw_reload gw tr bucket_name = inl e.
Proof.
  unfold reload, bind, call. destruct (gw_reload gw tr bucket_name); intros H;
    inversion H; auto.
Qed.

Lemma get_iam_policy_Raise gw bucket_name tr e tr' :
  get_iam_policy gw bucket_name tr = (Raise e, tr') ->
  tr' = tr ++ [EvGetIamPolicy bucket_name] /\ gw_get_iam_policy gw tr bucket_name = inl e.
Proof.
  unfold get_iam_policy, bind, call. destruct (gw_get_iam_policy gw tr bucket_name);
    intros H; inversion H; auto.
Qed.

(** An exception of the listing: the call that answered it is the last of
    the trace, and a refusal is raised as a [PermissionError]. *)
Lemma listing_Raise gw bucket_name prefix tr e tr' :
  _list_folders_and_objects_raw gw bucket_name prefix tr = (Raise e, tr') ->
  tr' = tr ++ [EvListBlobs bucket_name prefix] /\
  exists x, gw_list_blobs gw tr bucket_name prefix = inl x /\
            (forall m, x = Forbidden m ->
                       e = PermissionError ("No access to bucket: " +:+ bucket_name)).
Proof.
  unfold _list_folders_and_objects_raw, bind, call.
  destruct (gw_list_blobs gw tr bucket_name prefix) as [x | [blobs prefixes]];
    [| discriminate].
  intros H. split; [destruct x; now inversion H |].
  exists x. split; [reflexivity |]. intros m ->. now inversion H.
Qed.

(** Where an exception of a scan comes from: the last call of the trace is
    the probe or the listing that raised it. *)
Lemma scan_folder_recursive_Raise gw fuel bucket_name :
  forall folder_path exposed parent tr e tr',
    scan_folder_recursive gw fuel bucket_name folder_path exposed parent tr
      = (Raise e, tr') ->
    raised_by_call gw bucket_name e tr'.
Proof.
  induction fuel as [| fuel IH]; intros folder_path exposed parent tr e tr' H;
    [discriminate |].
  cbn [scan_folder_recursive] in H. cbv zeta in H.
  apply bind_Raise in H as [H | (pub & t1 & _ & H)].
  - destruct parent; [discriminate |].
    destruct (has_key _ exposed); [discriminate |].
    apply check_public_access_http_Raise in H as [-> Hh]. left. eauto.
  - destruct (classify_reason _ _ _ _) as [reason status].
    apply bind_Raise in H as [H | (items & t2 & _ & H)]; [right; eauto |].
    apply bind_Raise in H as [H | (subs & t3 & _ & H)]; [| discriminate].
    apply for_each_Raise in H as (acc0 & sub & t & _ & H).
    destruct (direct_subfolder folder_path sub); [| discriminate].
    apply bind_Raise in H as [H | (r & t4 & _ & H)]; [| discriminate].
    eapply IH. exact H.
Qed.

Lemma build_fine_grained_tree_Raise gw fuel bucket_name :
  forall prefix tr e tr',
    build_fine_grained_tree gw fuel bucket_name prefix tr = (Raise e, tr') ->
    raised_by_call gw bucket_name e tr'.
Proof.
  induction fuel as [| fuel IH]; intros prefix tr e tr' H; [discriminate |].
  cbn [build_fine_grained_tree] in H. cbv zeta in H.
  apply bind_Raise in H as [H | (items & t1 & _ & H)]; [right; eauto |].
  apply bind_Raise in H as [H | (result & t2 & _ & H)].
  - apply for_each_Raise in H as (acc0 & x & t & _ & H).
    unfold classify_object, try_except in H.
    destruct (bind _ _ t) as [[a | e0 |] t0]; discriminate.
  - apply for_each_Raise in H as (acc0 & sub & t & _ & H).
    apply bind_Raise in H as [H | (r & t4 & _ & H)]; [| discriminate].
    eapply IH. exact H.
Qed.

Lemma scan_handler_Raise {A} bucket_name e0 t e tr' :
  @scan_handler A bucket_name e0 t = (Raise e, tr') ->
  tr' = t /\
  e = match e0 with
      | Forbidden _ => PermissionError ("No access to " +:+ bucket_name +:+ ".")
      | NotFound _ => ValueError (bucket_name +:+ " not found.")
      | _ => ValueError ("Scan error: " +:+ exc_str e0)
      end.
Proof. destruct e0; cbn; unfold raise; intros H; inversion H; auto. Qed.

Lemma raised_by_listing gw bucket_name e t prefix m :
  raised_by_call gw bucket_name e (t ++ [EvListBlobs bucket_name prefix]) ->
  gw_list_blobs gw t bucket_name prefix = inl (Forbidden m) ->
  e = PermissionError ("No access to bucket: " +:+ bucket_name).
Proof.
  intros [(t0 & url & Ht & _) | (t0 & p & Hl)] Hans.
  - apply app_inj_tail in Ht as [_ [=]].
  - apply listing_Raise in Hl as (Ht & x & Hx & Hf).
    apply app_inj_tail in Ht as [<- [= <-]].
    rewrite Hans in Hx. injection Hx as <-. eapply Hf. reflexivity.
Qed.

(** What the body of the whole-bucket scan of a uniform bucket raises, and
    where: the last call of the trace is the one that failed. *)
Lemma uniform_body_Raise gw fuel bucket_name tr e tr' :
  scan_bucket_uniform_access gw fuel bucket_name tr = (Raise e, tr') ->
  exists e0,
    e = match e0 with
        | Forbidden _ => PermissionError ("No access to " +:+ bucket_name +:+ ".")
        | NotFound _ => ValueError (bucket_name +:+ " not found.")
        | _ => ValueError ("Scan error: " +:+ exc_str e0)
        end /\
    ((exists t, tr' = t ++ [EvReload bucket_name] /\ gw_reload gw t bucket_name = inl e0) \/
     (exists t, tr' = t ++ [EvGetIamPolicy bucket_name] /\
                gw_get_iam_policy gw t bucket_name = inl e0) \/
     raised_by_call gw bucket_name e0 tr').
Proof.
  unfold scan_bucket_uniform_access. intros H.
  apply try_except_Raise in H as (e0 & t & H & Hh).
  apply scan_handler_Raise in Hh as [-> ->]. exists e0. split; [reflexivity |].
  apply bind_Raise in H as [H | (u & t1 & _ & H)].
  { apply reload_Raise in H as [-> Hr]. left. eauto. }
  destruct (negb _); [discriminate |].
  apply bind_Raise in H as [H | (policy & t2 & _ & H)].
  { apply get_iam_policy_Raise in H as [-> Hr]. right. left. eauto. }
  right. right.
  apply bind_Raise in H as [H | (pub & t3 & _ & H)].
  { destruct (has_key _ _); [discriminate |].
    apply check_public_access_http_Raise in H as [-> Hh]. left. eauto. }
  destruct pub; [discriminate |].
  apply bind_Raise in H as [H | (items & t4 & _ & H)]; [right; eauto |].
  apply bind_Raise in H as [H | (fs & t5 & _ & H)].
  { apply for_each_Raise in H as (acc0 & f & t0 & _ & H).
    apply bind_Raise in H as [H | (r & t6 & _ & H)]; [| discriminate].
    eapply scan_folder_recursive_Raise. exact H. }
  apply bind_Raise in H as [H | (ro & t6 & _ & H)]; [| discriminate].
  destruct (listed_objects items); [discriminate |].
  apply bind_Raise in H as [H | (rp & t7 & _ & H)]; [| discriminate].
  destruct (has_key _ _); [discriminate |].
  apply check_public_access_http_Raise in H as [-> Hh]. left. eauto.
Qed.

(** X13. The whole-bucket scan of a uniform bucket raises nothing but a
    [PermissionError] that names the bucket, a [ValueError] that says the
    bucket was not found, and a [ValueError] whose message starts with
    [Scan error: ]. *)
Theorem uniform_scan_errors gw fuel bucket_name tr e tr' :
  scan_bucket_uniform_access gw fuel bucket_name tr = (Raise e, tr') ->
  e = PermissionError ("No access to " +:+ bucket_name +:+ ".") \/
  e = ValueError (bucket_name +:+ " not found.") \/
  exists msg, e = ValueError ("Scan error: " +:+ msg).
Proof.
  intros H. apply uniform_body_Raise in H as (e0 & -> & _).
  destruct e0; eauto.
Qed.

Lemma uniform_scan_errors_witness :
  scan_bucket_uniform_access Locked.reload_refused 3 "demo" []
    = (Raise (PermissionError "No access to demo."), [EvReload "demo"]) /\
  (PermissionError "No access to demo." =
     PermissionError ("No access to " +:+ "demo" +:+ ".") \/
   PermissionError "No access to demo." = ValueError ("demo" +:+ " not found.") \/
   exists msg, PermissionError "No access to demo." = ValueError ("Scan error: " +:+ msg)).
Proof.
  split; [vm_compute; reflexivity |].
  eapply (uniform_scan_errors Locked.reload_refused 3%nat "demo" []).
  vm_compute. reflexivity.
Defined.

(** X14. A listing that is refused during the whole-bucket scan of a uniform
    bucket, at the root or in any folder, ends the scan with a [ValueError]
    whose message is [Scan error: No access to bucket: ] and the name of the
    bucket: the refusal is not reported as a [PermissionError]. *)
Theorem refused_listing_is_value_error gw fuel bucket_name tr e t prefix m :
  scan_bucket_uniform_access gw fuel bucket_name tr
    = (Raise e, t ++ [EvListBlobs bucket_name prefix]) ->
  gw_list_blobs gw t bucket_name prefix = inl (Forbidden m) ->
  e = ValueError ("Scan error: No access to bucket: " +:+ bucket_name).
Proof.
  intros H Hans.
  apply uniform_body_Raise in H as (e0 & -> & [(t0 & Ht & _) | [(t0 & Ht & _) | Hr]]).
  - apply app_inj_tail in Ht as [_ [=]].
  - apply app_inj_tail in Ht as [_ [=]].
  - rewrite (raised_by_listing _ _ _ _ _ _ Hr Hans). reflexivity.
Qed.

Lemma refused_listing_is_value_error_witness :
  scan_bucket_uniform_access Locked.listing_refused 3 "demo" []
    = (Raise (ValueError "Scan error: No access to bucket: demo"),
       [EvReload "demo"; EvGetIamPolicy "demo";
        EvHead "https://storage.googleapis.com/demo" 5] ++ [EvListBlobs "demo" ""]) /\
  ValueError "Scan error: No access to bucket: demo" =
  ValueError ("Scan error: No access to bucket: " +:+ "demo").
Proof.
  split; [vm_compute; reflexivity |].
  eapply (refused_listing_is_value_error Locked.listing_refused 3%nat "demo" [] _
            [EvReload "demo"; EvGetIamPolicy "demo";
             EvHead "https://storage.googleapis.com/demo" 5] "" "403 GET");
    vm_compute; reflexivity.
Defined.

(** ** What a finding says *)

Lemma pattern_findings_inv env object_name no_mask content key pdata f :
  In f (pattern_findings env object_name no_mask content key pdata) ->
  f_object f = object_name /\ pattern_key f = key /\ validator_ok f = true /\
  validator f = p_validator pdata /\
  match p_validator pdata with
  | Some ((String _ _) as v) =>
      run_validator_by_name v (match_raw f) = (true, validator_reason f)
  | _ => validator_reason f = "Regex match sufficient"
  end.
Proof.
  unfold pattern_findings.
  destruct (pe_finditer env (p_regex pdata) content) as [matches |]; [| intros []].
  intros Hin. apply in_flat_map in Hin as (m & _ & Hin). cbv zeta in Hin.
  destruct (p_validator pdata) as [[| c v] |].
  - cbn in Hin. destruct Hin as [<- | []]. cbn. auto.
  - destruct (run_validator_by_name (String c v) (PyStr.strip (candidate_of m)))
      as [ok why] eqn:Hrun.
    destruct ok; cbn in Hin; [| destruct Hin].
    destruct Hin as [<- | []]. cbn. auto.
  - cbn in Hin. destruct Hin as [<- | []]. cbn. auto.
Qed.

Lemma gitleaks_findings_inv env object_name no_mask content f :
  In f (gitleaks_findings env object_name no_mask content) ->
  f_object f = object_name /\ pattern_key f = "Gitleaks" /\ validator_ok f = true.
Proof.
  unfold gitleaks_findings.
  destruct (pe_gitleaks env content) as [| | returncode stdout]; try (intros []).
  destruct (_ || _); [| intros []].
  destruct (PyStr.strip stdout); [intros [] |].
  destruct (pe_json_loads env stdout) as [leaks |]; [| intros []].
  intros Hin. apply in_map_iff in Hin as (leak & <- & _). cbn. auto.
Qed.

Lemma scan_object_findings_inv env bucket_name object_name patterns no_mask
    file_types use_gitleaks f :
  In f (_scan_object_for_patterns env bucket_name object_name patterns no_mask
          file_types use_gitleaks) ->
  exists content,
    (exists key pdata, In (key, pdata) patterns /\
        In f (pattern_findings env object_name no_mask content key pdata)) \/
    In f (gitleaks_findings env object_name no_mask content).
Proof.
  unfold _scan_object_for_patterns. cbv zeta.
  match goal with |- In f (if ?c then _ else _) -> _ => destruct c end; [intros [] |].
  destruct (_download_blob_snippet env bucket_name object_name (1024 * 1024))
    as [[| c content] |]; try (intros []).
  intros Hin. exists (String c content). apply in_app_or in Hin as [Hin | Hin].
  - left. apply in_flat_map in Hin as ([key pdata] & Hp & Hin). eauto.
  - right. destruct use_gitleaks; [exact Hin | destruct Hin].
Qed.

(** X15. Every finding of the scan of one object names that object and has
    passed its validation; with the patterns of [sensitive_patterns.py], a
    finding of the pattern [TCIdentity] is a text that [tc_identity_check]
    accepts. *)
Theorem findings_are_validated env bucket_name object_name no_mask file_types
    use_gitleaks f :
  In f (_scan_object_for_patterns env bucket_name object_name PATTERNS no_mask
          file_types use_gitleaks) ->
  f_object f = object_name /\ validator_ok f = true /\
  (pattern_key f = "TCIdentity" ->
   tc_identity_check (match_raw f) = inr (true, "Valid TC Identity")).
Proof.
  intros Hin.
  apply scan_object_findings_inv in Hin as (content & [(key & pdata & Hp & Hin) | Hin]).
  - apply pattern_findings_inv in Hin as (Ho & Hk & Hok & _ & Hv).
    split; [exact Ho |]. split; [exact Hok |]. intros Hkey.
    destruct Hp as [[= <- <-] | [[= <- <-] | []]].
    + cbn [p_validator] in Hv. unfold run_validator_by_name in Hv.
      cbn [String.eqb Ascii.eqb Bool.eqb] in Hv.
      destruct (tc_identity_check (match_raw f)) as [e | [ok why]] eqn:Hc;
        [discriminate |].
      injection Hv as -> _.
      unfold tc_identity_check in Hc.
      repeat match type of Hc with
             | (if ?c then _ else _) = _ => destruct c; try discriminate
             end.
      congruence.
    + rewrite Hkey in Hk. discriminate.
  - apply gitleaks_findings_inv in Hin as (Ho & Hk & Hok).
    split; [exact Ho |]. split; [exact Hok |]. intros Hkey.
    rewrite Hkey in Hk. discriminate.
Qed.

Lemma findings_are_validated_witness :
  exists f,
    In f (_scan_object_for_patterns Demo.env "demo" "notes.txt" PATTERNS false None true) /\
    pattern_key f = "TCIdentity" /\ match_raw f = "10000000146" /\
    f_object f = "notes.txt" /\ validator_ok f = true /\
    (pattern_key f = "TCIdentity" ->
     tc_identity_check (match_raw f) = inr (true, "Valid TC Identity")).
Proof.
  eexists. split; [vm_compute; left; reflexivity |].
  split; [reflexivity |]. split; [reflexivity |].
  eapply (findings_are_validated Demo.env "demo" "notes.txt" false None true).
  vm_compute. left. reflexivity.
Defined.

(** ** The check of an identity number *)

Lemma digit_value_inj a b : digit_value a = digit_value b -> a = b.
Proof.
  unfold digit_value. intros H.
  assert (Hn : N_of_ascii a = N_of_ascii b) by lia.
  rewrite <- (ascii_N_embedding a), <- (ascii_N_embedding b). now rewrite Hn.
Qed.

Lemma is_digit_between_spec lo hi c :
  is_digit_between lo hi c = true <-> lo <= digit_value c <= hi.
Proof. unfold is_digit_between. rewrite andb_true_iff, !Z.leb_le. tauto. Qed.

Lemma string_11 s :
  String.length s = 11%nat ->
  exists c0 c1 c2 c3 c4 c5 c6 c7 c8 c9 c10,
    s = String c0 (String c1 (String c2 (String c3 (String c4 (String c5
          (String c6 (String c7 (String c8 (String c9 (String c10 EmptyString)))))))))).
Proof.
  intros H.
  do 11 (destruct s as [| ? s]; [discriminate |]).
  destruct s; [| discriminate]. repeat eexists.
Qed.

(** The check on a text of eleven characters, as arithmetic on the values
    of its characters. *)
Lemma tc_check_11 c0 c1 c2 c3 c4 c5 c6 c7 c8 c9 c10 :
  tc_identity_check
    (String c0 (String c1 (String c2 (String c3 (String c4 (String c5
      (String c6 (String c7 (String c8 (String c9 (String c10 EmptyString)))))))))))
  = inr (true, "Valid TC Identity") <->
  (1 <= digit_value c0 <= 9 /\ 0 <= digit_value c1 <= 9 /\
   0 <= digit_value c2 <= 9 /\ 0 <= digit_value c3 <= 9 /\
   0 <= digit_value c4 <= 9 /\ 0 <= digit_value c5 <= 9 /\
   0 <= digit_value c6 <= 9 /\ 0 <= digit_value c7 <= 9 /\
   0 <= digit_value c8 <= 9 /\ 0 <= digit_value c9 <= 9 /\
   0 <= digit_value c10 <= 9) /\
  Z.even (digit_value c10) = true /\
  ((digit_value c0 + digit_value c2 + digit_value c4 + digit_value c6 + digit_value c8)
     * 7
   - (digit_value c1 + digit_value c3 + digit_value c5 + digit_value c7)) mod 10
    = digit_value c9 /\
  (digit_value c0 + digit_value c1 + digit_value c2 + digit_value c3 + digit_value c4 +
   digit_value c5 + digit_value c6 + digit_value c7 + digit_value c8 + digit_value c9)
    mod 10 = digit_value c10.
Proof.
  unfold tc_identity_check, tc_format.
  cbn -[digit_value is_digit_between Z.mul Z.add Z.sub Z.modulo Z.eqb Z.even].
  rewrite !andb_true_r.
  rewrite <- !is_digit_between_spec.
  replace (digit_value c0 + (digit_value c2 + (digit_value c4 +
            (digit_value c6 + digit_value c8))))
    with (digit_value c0 + digit_value c2 + digit_value c4 + digit_value c6 +
          digit_value c8) by lia.
  replace (digit_value c1 + (digit_value c3 + (digit_value c5 + digit_value c7)))
    with (digit_value c1 + digit_value c3 + digit_value c5 + digit_value c7) by lia.
  replace (digit_value c0 + (digit_value c1 + (digit_value c2 + (digit_value c3 +
            (digit_value c4 + (digit_value c5 + (digit_value c6 + (digit_value c7 +
              (digit_value c8 + (digit_value c9 + 0))))))))))
    with (digit_value c0 + digit_value c1 + digit_value c2 + digit_value c3 +
          digit_value c4 + digit_value c5 + digit_value c6 + digit_value c7 +
          digit_value c8 + digit_value c9) by lia.
  rewrite <- !Z.eqb_eq.
  repeat match goal with
         | |- context [is_digit_between ?lo ?hi ?c] =>
             destruct (is_digit_between lo hi c)
         end;
    cbn [andb negb];
    try (split; [discriminate | intros; intuition discriminate]).
  destruct (Z.even (digit_value c10)); cbn [andb negb];
    [| split; [discriminate | intros; intuition discriminate]].
  destruct (_ =? digit_value c9); cbn [negb];
    [| split; [discriminate | intros; intuition discriminate]].
  destruct (_ =? digit_value c10); cbn [negb];
    [| split; [discriminate | intros; intuition discriminate]].
  intuition reflexivity.
Qed.

Lemma tc_accepts_length s why :
  tc_identity_check s = inr (true, why) ->
  String.length s = 11%nat /\ why = "Valid TC Identity".
Proof.
  unfold tc_identity_check.
  destruct (negb (tc_format s)); [discriminate |].
  destruct (String.length s =? 11)%nat eqn:Hlen; cbn [negb]; [| discriminate].
  apply Nat.eqb_eq in Hlen. intros H. split; [exact Hlen |].
  repeat match type of H with
         | (if ?c then _ else _) = _ => destruct c; try discriminate
         end.
  congruence.
Qed.

(** X16. [tc_identity_check] accepts a text exactly when it is an identity number:
    eleven digits, the first not zero, with the two check digits.  That the
    last digit is even, which the format asks for, follows from the check
    digits; a text with a final newline is not accepted. *)
Theorem tc_identity_check_spec s :
  tc_identity_check s = inr (true, "Valid TC Identity") <-> tc_number s.
Proof.
  split.
  - intros H. destruct (tc_accepts_length _ _ H) as [Hlen _].
    destruct (string_11 s Hlen) as (c0 & c1 & c2 & c3 & c4 & c5 & c6 & c7 & c8 & c9
                                    & c10 & ->).
    apply tc_check_11 in H as (Hb & _ & H10 & H11).
    unfold tc_number, digit_at.
    cbn [list_ascii_of_string map nth].
    split; [reflexivity |]. split.
    + repeat constructor; apply is_digit_between_spec; lia.
    + split; [lia |]. split; [| exact H11].
      rewrite <- H10. f_equal. lia.
  - intros (Hlen & Hd & H0 & H10 & H11).
    destruct (string_11 s Hlen) as (c0 & c1 & c2 & c3 & c4 & c5 & c6 & c7 & c8 & c9
                                    & c10 & ->).
    unfold digit_at in H0, H10, H11. cbn [list_ascii_of_string map nth] in H0, H10, H11.
    cbn [list_ascii_of_string] in Hd.
    repeat match goal with
           | H : Forall _ (_ :: _) |- _ =>
               apply Forall_cons in H as [?%is_digit_between_spec H]
           end.
    apply tc_check_11.
    split; [repeat split; lia |].
    split.
    + rewrite <- H11, Z.even_spec.
      exists (4 * (digit_value c0 + digit_value c2 + digit_value c4 + digit_value c6
                   + digit_value c8)
              - 5 * ((7 * (digit_value c0 + digit_value c2 + digit_value c4 +
                           digit_value c6 + digit_value c8)
                      - (digit_value c1 + digit_value c3 + digit_value c5 +
                         digit_value c7)) / 10)
              - 5 * ((digit_value c0 + digit_value c1 + digit_value c2 + digit_value c3 +
                      digit_value c4 + digit_value c5 + digit_value c6 + digit_value c7 +
                      digit_value c8 + digit_value c9) / 10)).
      rewrite <- H10. Z.div_mod_to_equations. lia.
    + split; [| exact H11]. rewrite <- H10. f_equal. lia.
Qed.

Lemma substitute_length i c s : String.length (substitute i c s) = String.length s.
Proof.
  revert i. induction s as [| a s IH]; intros [| i]; cbn; auto.
Qed.

(** X17. A single wrong digit is detected: a text that [tc_identity_check]
    accepts is rejected by the validator once one of its characters is
    replaced by another one. *)
Theorem tc_single_substitution_rejected s i c :
  tc_identity_check s = inr (true, "Valid TC Identity") ->
  (i < 11)%nat ->
  String.get i s <> Some c ->
  fst (run_validator_by_name "tc_identity_check" (substitute i c s)) = false.
Proof.
  intros H Hi Hc.
  unfold run_validator_by_name. cbn [String.eqb Ascii.eqb Bool.eqb].
  destruct (tc_identity_check (substitute i c s)) as [e | [[|] why]] eqn:H';
    [reflexivity | | reflexivity].
  exfalso.
  destruct (tc_accepts_length _ _ H') as [_ ->].
  destruct (tc_accepts_length _ _ H) as [Hlen _].
  destruct (string_11 s Hlen) as (c0 & c1 & c2 & c3 & c4 & c5 & c6 & c7 & c8 & c9
                                  & c10 & ->).
  apply tc_check_11 in H as (Hb & _ & H10 & H11).
  do 11 (destruct i as [| i];
         [cbn [substitute] in H'; cbn [String.get] in Hc;
          apply tc_check_11 in H' as (Hb' & _ & H10' & H11');
          match type of Hc with
          | Some ?a <> Some c =>
              assert (Hv : digit_value a <> digit_value c)
                by (intros Heq; apply digit_value_inj in Heq; congruence)
          end;
          clear Hc Hlen Hi;
          revert Hb Hb' H10 H10' H11 H11' Hv;
          generalize (digit_value c0) (digit_value c1) (digit_value c2)
                     (digit_value c3) (digit_value c4) (digit_value c5)
                     (digit_value c6) (digit_value c7) (digit_value c8)
                     (digit_value c9) (digit_value c10) (digit_value c);
          intros; Z.div_mod_to_equations; lia |]).
  lia.
Qed.

Lemma tc_single_substitution_rejected_witness :
  tc_identity_check "10000000146" = inr (true, "Valid TC Identity") /\
  substitute 3 "7" "10000000146" = "10070000146" /\
  fst (run_validator_by_name "tc_identity_check" (substitute 3 "7" "10000000146")) = false.
Proof.
  split; [vm_compute; reflexivity |]. split; [reflexivity |].
  apply (tc_single_substitution_rejected "10000000146" 3%nat "7").
  - vm_compute. reflexivity.
  - lia.
  - cbn. discriminate.
Defined.

(** ** The objects of a folder *)

Lemma sorted_In x l : In x (PyStr.sorted l) <-> In x l.
Proof.
  unfold PyStr.sorted. rewrite <- !list_elem_of_In.
  now rewrite (merge_sort_Permutation String.le l).
Qed.

Lemma filter_sublist {A} (f : A -> bool) (l : list A) : List.filter f l `sublist_of` l.
Proof.
  induction l as [| x l IH]; cbn [List.filter]; [constructor |].
  destruct (f x); now constructor.
Qed.

(** X18. [list_objects] asks for one listing and returns, in ascending order, the
    names the listing gave that do not end with a slash and that start with
    the folder path; it returns those names only. *)
Theorem list_objects_spec gw bucket_name folder_path tr objs tr' :
  list_objects gw bucket_name folder_path tr = (Ret objs, tr') ->
  tr' = tr ++ [EvListBlobs bucket_name folder_path] /\
  StronglySorted String.le objs /\
  exists blobs prefixes,
    gw_list_blobs gw tr bucket_name folder_path = inr (blobs, prefixes) /\
    forall x, In x objs <->
              In x blobs /\ PyStr.endswith x "/" = false /\
              PyStr.startswith x folder_path = true.
Proof.
  unfold list_objects. intros H.
  apply bind_Ret in H as (items & t & Hl & H). apply ret_Ret in H as [<- <-].
  pose proof (listing_sorted _ _ _ _ _ _ Hl) as [_ Hs].
  apply listing_Ret in Hl as (blobs & prefixes & Hans & _ & Hobjs & ->).
  split; [reflexivity |]. split.
  - eapply StronglySorted_sublist; [apply filter_sublist | exact Hs].
  - exists blobs, prefixes. split; [exact Hans |]. intros x.
    rewrite filter_In, Hobjs, sorted_In, filter_In, negb_true_iff. tauto.
Qed.

Lemma list_objects_spec_witness :
  list_objects Demo.uniform "demo" "docs/a/" [] =
    (Ret ["docs/a/y"; "docs/a/z"], [EvListBlobs "demo" "docs/a/"]) /\
  [EvListBlobs "demo" "docs/a/"] = [] ++ [EvListBlobs "demo" "docs/a/"] /\
  StronglySorted String.le ["docs/a/y"; "docs/a/z"] /\
  exists blobs prefixes,
    gw_list_blobs Demo.uniform [] "demo" "docs/a/" = inr (blobs, prefixes) /\
    forall x, In x ["docs/a/y"; "docs/a/z"] <->
              In x blobs /\ PyStr.endswith x "/" = false /\
              PyStr.startswith x "docs/a/" = true.
Proof.
  split; [vm_compute; reflexivity |].
  apply (list_objects_spec Demo.uniform "demo" "docs/a/" []).
  vm_compute. reflexivity.
Defined.

(** ** The dispatch of [scan_bucket] *)

Lemma builtin_error_handled bucket_name e :
  builtin_error e ->
  match e with
  | Forbidden _ => PermissionError ("No access to " +:+ bucket_name +:+ ".")
  | NotFound _ => ValueError (bucket_name +:+ " not found.")
  | _ => ValueError ("Scan error: " +:+ exc_str e)
  end = ValueError ("Scan error: " +:+ exc_str e).
Proof. destruct e; cbn; intros H; try reflexivity; destruct H. Qed.

Lemma scan_handler_builtin {A} bucket_name e0 t e tr' :
  @scan_handler A bucket_name e0 t = (Raise e, tr') -> builtin_error e.
Proof. intros H. apply scan_handler_Raise in H as [_ ->]. destruct e0; exact I. Qed.

Lemma listing_Raise_builtin gw bucket_name prefix tr e tr' :
  _list_folders_and_objects_raw gw bucket_name prefix tr = (Raise e, tr') ->
  builtin_error e.
Proof.
  unfold _list_folders_and_objects_raw, bind, call.
  destruct (gw_list_blobs gw tr bucket_name prefix) as [[] | [blobs prefixes]];
    intros H; inversion H; exact I.
Qed.

(** The fine-grained tree lets no exception of a check out: what it raises
    comes from a listing. *)
Lemma build_fine_grained_tree_Raise_builtin gw fuel bucket_name :
  forall prefix tr e tr',
    build_fine_grained_tree gw fuel bucket_name prefix tr = (Raise e, tr') ->
    builtin_error e.
Proof.
  induction fuel as [| fuel IH]; intros prefix tr e tr' H; [discriminate |].
  cbn [build_fine_grained_tree] in H. cbv zeta in H.
  apply bind_Raise in H as [H | (items & t1 & _ & H)];
    [eapply listing_Raise_builtin; exact H |].
  apply bind_Raise in H as [H | (result & t2 & _ & H)].
  - apply for_each_Raise in H as (acc0 & x & t & _ & H).
    unfold classify_object, try_except in H.
    destruct (bind _ _ t) as [[a | e0 |] t0]; discriminate.
  - apply for_each_Raise in H as (acc0 & sub & t & _ & H).
    apply bind_Raise in H as [H | (r & t4 & _ & H)]; [| discriminate].
    eapply IH. exact H.
Qed.

Lemma scan_bucket_uniform_access_builtin gw fuel bucket_name tr e tr' :
  scan_bucket_uniform_access gw fuel bucket_name tr = (Raise e, tr') -> builtin_error e.
Proof.
  unfold scan_bucket_uniform_access. intros H.
  apply try_except_Raise in H as (e0 & t & _ & H). eapply scan_handler_builtin. exact H.
Qed.

Lemma scan_bucket_fine_grained_access_builtin gw fuel bucket_name tr e tr' :
  scan_bucket_fine_grained_access gw fuel bucket_name tr = (Raise e, tr') ->
  builtin_error e.
Proof.
  unfold scan_bucket_fine_grained_access. intros H.
  apply try_except_Raise in H as (e0 & t & _ & H). eapply scan_handler_builtin. exact H.
Qed.

Lemma scan_folder_uniform_access_builtin gw fuel bucket_name folder_path tr e tr' :
  scan_folder_uniform_access gw fuel bucket_name folder_path tr = (Raise e, tr') ->
  builtin_error e.
Proof.
  unfold scan_folder_uniform_access. intros H.
  apply try_except_Raise in H as (e0 & t & _ & H). inversion H. exact I.
Qed.

(** X19. What [scan_bucket] raises: when its own reload fails, the exception of
    the reload as the handlers turn it; in every other case a [ValueError]
    whose message starts with [Scan error: ].  A [PermissionError] therefore
    tells that the first call was refused, and a refusal met later in the
    scan is not reported as one. *)
Theorem scan_bucket_errors gw fuel bucket_name folder_path tr e tr' :
  scan_bucket gw fuel bucket_name folder_path tr = (Raise e, tr') ->
  (exists msg, e = ValueError ("Scan error: " +:+ msg)) \/
  (tr' = tr ++ [EvReload bucket_name] /\
   ((exists m, gw_reload gw tr bucket_name = inl (Forbidden m) /\
               e = PermissionError ("No access to " +:+ bucket_name +:+ ".")) \/
    (exists m, gw_reload gw tr bucket_name = inl (NotFound m) /\
               e = ValueError (bucket_name +:+ " not found.")))).
Proof.
  unfold scan_bucket. intros H.
  apply try_except_Raise in H as (e0 & t & H & Hh).
  apply scan_handler_Raise in Hh as [-> ->].
  apply bind_Raise in H as [H | (u & t1 & _ & H)].
  { apply reload_Raise in H as [-> Hr]. destruct e0; eauto 10. }
  left.
  apply bind_Raise in H as [H | (is_uniform & t2 & _ & H)].
  { destruct u; [discriminate |]. inversion H. eauto. }
  assert (Hb : builtin_error e0); [| rewrite (builtin_error_handled _ _ Hb); eauto].
  destruct folder_path as [| c folder_path]; destruct is_uniform;
    apply bind_Raise in H as [H | (r & t3 & _ & H)]; try discriminate.
  - eapply scan_bucket_uniform_access_builtin. exact H.
  - eapply scan_bucket_fine_grained_access_builtin. exact H.
  - eapply scan_folder_uniform_access_builtin. exact H.
  - eapply build_fine_grained_tree_Raise_builtin. exact H.
Qed.

Lemma scan_bucket_errors_witness :
  scan_bucket Locked.listing_refused 3 "demo" "" [] =
    (Raise (ValueError "Scan error: Scan error: No access to bucket: demo"),
     [EvReload "demo"; EvReload "demo"; EvGetIamPolicy "demo";
      EvHead "https://storage.googleapis.com/demo" 5; EvListBlobs "demo" ""]) /\
  ((exists msg, ValueError "Scan error: Scan error: No access to bucket: demo"
                = ValueError ("Scan error: " +:+ msg)) \/
   ([EvReload "demo"; EvReload "demo"; EvGetIamPolicy "demo";
     EvHead "https://storage.googleapis.com/demo" 5; EvListBlobs "demo" ""]
      = [] ++ [EvReload "demo"] /\
    ((exists m, gw_reload Locked.listing_refused [] "demo" = inl (Forbidden m) /\
                ValueError "Scan error: Scan error: No access to bucket: demo"
                = PermissionError ("No access to " +:+ "demo" +:+ ".")) \/
     (exists m, gw_reload Locked.listing_refused [] "demo" = inl (NotFound m) /\
                ValueError "Scan error: Scan error: No access to bucket: demo"
                = ValueError ("demo" +:+ " not found."))))).
Proof.
  split; [vm_compute; reflexivity |].
  apply (scan_bucket_errors Locked.listing_refused 3%nat "demo" "" []).
  vm_compute. reflexivity.
Defined.

Lemma reload_Ret gw bucket_name tr u tr' :
  reload gw bucket_name tr = (Ret u, tr') ->
  gw_reload gw tr bucket_name = inr u /\ tr' = tr ++ [EvReload bucket_name].
Proof.
  unfold reload, bind, call. destruct (gw_reload gw tr bucket_name); intros H;
    inversion H; auto.
Qed.

Lemma uniform_mismatch_inv gw fuel bucket_name tr m tr' :
  scan_bucket_uniform_access gw fuel bucket_name tr = (Ret (UniformMismatch m), tr') ->
  gw_reload gw tr bucket_name <> inr (UblaValue true).
Proof.
  unfold scan_bucket_uniform_access. intros H.
  apply try_except_Ret in H as [H | (e & t & _ & H)];
    [| now apply scan_handler_raises in H].
  apply bind_Ret in H as (u & t1 & Hr & H). apply reload_Ret in Hr as [Hr _].
  rewrite Hr. intros [= ->]. cbn [negb] in H.
  apply bind_Ret in H as (policy & t2 & _ & H).
  apply bind_Ret in H as (pub & t3 & _ & H).
  destruct pub; [apply ret_Ret in H as [[=] _] |].
  apply bind_Ret in H as (items & t4 & _ & H).
  apply bind_Ret in H as (fs & t5 & _ & H).
  apply bind_Ret in H as (ro & t6 & _ & H).
  apply ret_Ret in H as [[=] _].
Qed.

Lemma fine_mismatch_inv gw fuel bucket_name tr m tr' :
  scan_bucket_fine_grained_access gw fuel bucket_name tr = (Ret (FineMismatch m), tr') ->
  gw_reload gw tr bucket_name = inr (UblaValue true).
Proof.
  unfold scan_bucket_fine_grained_access. intros H.
  apply try_except_Ret in H as [H | (e & t & _ & H)];
    [| now apply scan_handler_raises in H].
  apply bind_Ret in H as (u & t1 & Hr & H). apply reload_Ret in Hr as [Hr _].
  rewrite Hr.
  apply bind_Ret in H as (is_uniform & t2 & Hu & H).
  destruct u as [enabled | msg]; [| discriminate].
  apply ret_Ret in Hu as [-> _].
  destruct is_uniform; [reflexivity |].
  apply bind_Ret in H as (policy & t3 & _ & H).
  apply bind_Ret in H as (pub & t4 & _ & H).
  destruct pub; [apply ret_Ret in H as [[=] _] |].
  apply bind_Ret in H as (tree & t5 & _ & H).
  apply ret_Ret in H as [[=] _].
Qed.

(** X20. [scan_bucket] reads the access mode and the scan it hands over to reads
    it again.  When the bucket answers the two reads alike, the scan of the
    whole bucket never comes back with the dict of a bucket in the other
    mode. *)
Theorem scan_bucket_no_mismatch gw fuel bucket_name folder_path tr r tr' :
  (forall t t', gw_reload gw t bucket_name = gw_reload gw t' bucket_name) ->
  scan_bucket gw fuel bucket_name folder_path tr = (Ret r, tr') ->
  (forall m, r <> BucketUniform (UniformMismatch m)) /\
  (forall m, r <> BucketFine (FineMismatch m)).
Proof.
  intros Hstable. unfold scan_bucket. intros H.
  apply try_except_Ret in H as [H | (e & t & _ & H)];
    [| now apply scan_handler_raises in H].
  apply bind_Ret in H as (u & t1 & Hr & H). apply reload_Ret in Hr as [Hr _].
  apply bind_Ret in H as (is_uniform & t2 & Hu & H).
  destruct u as [enabled | msg]; [| discriminate].
  apply ret_Ret in Hu as [-> <-].
  destruct folder_path as [| c folder_path]; destruct is_uniform;
    apply bind_Ret in H as (r0 & t3 & Hscan & H); apply ret_Ret in H as [<- _];
    split; intros m; try discriminate.
  - intros [= ->]. apply uniform_mismatch_inv in Hscan.
    apply Hscan. rewrite (Hstable t1 tr). exact Hr.
  - intros [= ->]. apply fine_mismatch_inv in Hscan.
    rewrite (Hstable t1 tr), Hr in Hscan. discriminate.
Qed.

Lemma scan_bucket_no_mismatch_witness :
  exists r tr',
    scan_bucket Demo.uniform 3 "demo" "" [] = (Ret (BucketUniform (UniformScanned r)), tr') /\
    (forall m, BucketUniform (UniformScanned r) <> BucketUniform (UniformMismatch m)) /\
    (forall m, BucketUniform (UniformScanned r) <> BucketFine (FineMismatch m)).
Proof.
  eexists. eexists. split; [vm_compute; reflexivity |].
  eapply (scan_bucket_no_mismatch Demo.uniform 3%nat "demo" "" []).
  - intros t t'. reflexivity.
  - vm_compute. reflexivity.
Defined.

(** X21. The scan of one folder through [scan_bucket]: the folder path of the
    result is the given one with its trailing slashes replaced by a single
    one.  In a uniform bucket the node scanned has that path and the status
    is WARNING exactly when the node is public, SAFE exactly when it is not;
    in a fine-grained bucket the summary counts the entries of the tree and
    the public ones among them, and the status is WARNING exactly when one
    entry is public. *)
Theorem scan_bucket_folder_result gw fuel bucket_name folder_path tr r tr' :
  folder_path <> "" ->
  scan_bucket gw fuel bucket_name folder_path tr = (Ret r, tr') ->
  let p := PyStr.rstrip "/" folder_path +:+ "/" in
  PyStr.endswith p "/" = true /\
  PyStr.rstrip "/" p = PyStr.rstrip "/" folder_path /\
  ((exists node summary,
       r = FolderUniform bucket_name p node summary /\ path node = p /\
       (fs_status summary = "WARNING" <-> is_public node = true) /\
       (fs_status summary = "SAFE" <-> is_public node = false)) \/
   (exists tree status message,
       r = FolderFine bucket_name p tree
             (SummaryObjects status (Z.of_nat (List.length (fine_entries tree)))
                (count_public (fine_entries tree)) message) /\
       (status = "WARNING" <->
        exists e, In e (fine_entries tree) /\ oe_is_public e = true) /\
       (status = "SAFE" <->
        forall e, In e (fine_entries tree) -> oe_is_public e = false))).
Proof.
  intros Hne H p. subst p.
  split; [apply endswith_append_char |]. split; [apply rstrip_append_slash |].
  unfold scan_bucket in H.
  apply try_except_Ret in H as [H | (e & t & _ & H)];
    [| now apply scan_handler_raises in H].
  apply bind_Ret in H as (u & t1 & _ & H).
  apply bind_Ret in H as (is_uniform & t2 & _ & H).
  destruct folder_path as [| c folder_path]; [congruence |]. cbv zeta in H.
  destruct is_uniform.
  - apply bind_Ret in H as (node & t3 & Hscan & H). apply ret_Ret in H as [<- _].
    left. eexists. eexists. split; [reflexivity |]. split.
    + unfold scan_folder_uniform_access in Hscan.
      apply try_except_Ret in Hscan as [Hscan | (e & t & _ & Hscan)]; [| discriminate].
      apply bind_Ret in Hscan as (policy & t4 & _ & Hscan).
      eapply scan_path. exact Hscan.
    + cbn [fs_status]. destruct (is_public node); split; split; congruence.
  - apply bind_Ret in H as (tree & t3 & Htree & H). apply ret_Ret in H as [<- _].
    right.
    destruct (fine_counts_of_levels tree) as [Ht Hp].
    { eapply build_fine_levels. exact Htree. }
    rewrite Ht, Hp. exists tree. eexists. eexists. split; [reflexivity |].
    pose proof (count_public_bounds (fine_entries tree)) as Hbounds.
    destruct (0 <? count_public (fine_entries tree)) eqn:Hpos.
    + apply Z.ltb_lt in Hpos. destruct (count_public_pos _ Hpos) as (e & He & Hp').
      split; [split; [intros _; eauto | reflexivity] |].
      split; [discriminate |]. intros Hall. rewrite (Hall e He) in Hp'. discriminate.
    + apply Z.ltb_ge in Hpos.
      assert (Hz : count_public (fine_entries tree) = 0) by lia.
      pose proof (count_public_zero _ Hz) as Hnone.
      split; [| split; [intros _; exact Hnone | reflexivity]].
      split; [discriminate |]. intros (e & He & Hp').
      rewrite (Hnone e He) in Hp'. discriminate.
Qed.

Lemma scan_bucket_folder_result_witness :
  exists r tr',
    scan_bucket Demo.uniform 3 "demo" "docs//" [] = (Ret r, tr') /\
    PyStr.rstrip "/" "docs//" +:+ "/" = "docs/" /\
    let p := PyStr.rstrip "/" "docs//" +:+ "/" in
    PyStr.endswith p "/" = true /\
    PyStr.rstrip "/" p = PyStr.rstrip "/" "docs//" /\
    ((exists node summary,
         r = FolderUniform "demo" p node summary /\ path node = p /\
         (fs_status summary = "WARNING" <-> is_public node = true) /\
         (fs_status summary = "SAFE" <-> is_public node = false)) \/
     (exists tree status message,
         r = FolderFine "demo" p tree
               (SummaryObjects status (Z.of_nat (List.length (fine_entries tree)))
                  (count_public (fine_entries tree)) message) /\
         (status = "WARNING" <->
          exists e, In e (fine_entries tree) /\ oe_is_public e = true) /\
         (status = "SAFE" <->
          forall e, In e (fine_entries tree) -> oe_is_public e = false))).
Proof.
  eexists. eexists. split; [vm_compute; reflexivity |].
  split; [vm_compute; reflexivity |].
  eapply (scan_bucket_folder_result Demo.uniform 3%nat "demo" "docs//" []).
  - discriminate.
  - vm_compute. reflexivity.
Defined.

(** ** The scan for old objects *)

Lemma insert_by_created_at_Permutation x l : insert_by_created_at x l ≡ₚ x :: l.
Proof.
  induction l as [| y l IH]; cbn [insert_by_created_at]; [reflexivity |].
  destruct (oo_created_at x <=? oo_created_at y); [reflexivity |].
  rewrite IH. apply Permutation_swap.
Qed.

Lemma sorted_by_created_at_Permutation l : sorted_by_created_at l ≡ₚ l.
Proof.
  induction l as [| x l IH]; cbn [sorted_by_created_at fold_right]; [reflexivity |].
  rewrite insert_by_created_at_Permutation. now constructor.
Qed.

Lemma insert_by_created_at_sorted x l :
  StronglySorted (fun a b => oo_created_at a <= oo_created_at b) l ->
  StronglySorted (fun a b => oo_created_at a <= oo_created_at b)
    (insert_by_created_at x l).
Proof.
  induction 1 as [| y l Hs IH Hy]; cbn [insert_by_created_at].
  - repeat constructor.
  - destruct (oo_created_at x <=? oo_created_at y) eqn:Hle.
    + apply Z.leb_le in Hle. constructor; [now constructor |].
      constructor; [exact Hle |].
      eapply Forall_impl; [exact Hy |]. cbn. intros; lia.
    + apply Z.leb_gt in Hle. constructor; [exact IH |].
      rewrite insert_by_created_at_Permutation. constructor; [lia | exact Hy].
Qed.

Lemma sorted_by_created_at_sorted l :
  StronglySorted (fun a b => oo_created_at a <= oo_created_at b)
    (sorted_by_created_at l).
Proof.
  induction l as [| x l IH]; cbn [sorted_by_created_at fold_right]; [constructor |].
  now apply insert_by_created_at_sorted.
Qed.

Lemma sum_sizes_Permutation l1 l2 :
  l1 ≡ₚ l2 -> sum_counts (map size_of l1) = sum_counts (map size_of l2).
Proof.
  unfold sum_counts.
  induction 1; cbn [map fold_right]; lia.
Qed.

(** The loop over the blobs keeps three things: every entry comes from an
    old blob, every old blob has its entry, and the total is the sum of the
    sizes of the entries. *)
Lemma old_object_loop now_utc days_old blobs :
  forall old total old' total',
    fold_left (old_object_step now_utc days_old) blobs (old, total) = (old', total') ->
    total' - total = sum_counts (map size_of old') - sum_counts (map size_of old) /\
    (forall o, In o old' <->
               In o old \/
               exists blob, In blob blobs /\ is_old now_utc days_old blob /\
                 o = {| oo_name := bm_name blob;
                        oo_size := bm_size blob;
                        oo_created_at := default 0 (bm_time_created blob);
                        oo_age_days :=
                          age_days now_utc (default 0 (bm_time_created blob)) |}).
Proof.
  induction blobs as [| blob blobs IH]; intros old total old' total' H;
    cbn [fold_left] in H.
  - injection H as <- <-. split; [lia |]. intros o. split; [auto |].
    intros [Ho | (blob & [] & _)]. exact Ho.
  - unfold old_object_step at 2 in H.
    destruct (PyStr.endswith (bm_name blob) "/") eqn:Hend.
    { apply IH in H as [Hsum Hin]. split; [exact Hsum |]. intros o.
      rewrite Hin. split; intros [Ho | (b & Hb & Hold & Heq)]; auto.
      - right. exists b. split; [now right | auto].
      - destruct Hb as [<- | Hb]; [| right; eauto].
        destruct Hold as [Hold _]. congruence. }
    destruct (bm_time_created blob) as [created |] eqn:Hcreated.
    2: { apply IH in H as [Hsum Hin]. split; [exact Hsum |]. intros o.
         rewrite Hin. split; intros [Ho | (b & Hb & Hold & Heq)]; auto.
         - right. exists b. split; [now right | auto].
         - destruct Hb as [<- | Hb]; [| right; eauto].
           destruct Hold as (_ & c & Hc & _). congruence. }
    cbv zeta in H.
    destruct (days_old <=? age_days now_utc created) eqn:Hage.
    2: { apply Z.leb_gt in Hage.
         apply IH in H as [Hsum Hin]. split; [exact Hsum |]. intros o.
         rewrite Hin. split; intros [Ho | (b & Hb & Hold & Heq)]; auto.
         - right. exists b. split; [now right | auto].
         - destruct Hb as [<- | Hb]; [| right; eauto].
           destruct Hold as (_ & c & Hc & Hle).
           rewrite Hcreated in Hc. injection Hc as <-. lia. }
    apply Z.leb_le in Hage.
    apply IH in H as [Hsum Hin]. split.
    + rewrite map_app in Hsum. cbn [map] in Hsum. unfold sum_counts in *.
      rewrite sum_snoc in Hsum.
      change (size_of (mkOldObject _ _ _ _)) with (default 0 (bm_size blob)) in Hsum.
      revert Hsum.
      destruct (bm_size blob) as [size |]; cbn [default from_option]; unfold id;
        [destruct (Z.eqb_spec size 0) |]; lia.
    + intros o. rewrite Hin, in_app_iff. cbn [In].
      split.
      * intros [[Ho | [<- | []]] | (b & Hb & Hold & Heq)]; auto.
        -- right. exists blob. split; [now left |]. split.
           ++ split; [exact Hend |]. exists created. auto.
           ++ rewrite Hcreated. reflexivity.
        -- right. exists b. split; [now right | auto].
      * intros [Ho | (b & [<- | Hb] & Hold & Heq)]; auto.
        -- left. right. left. rewrite Heq, Hcreated. reflexivity.
        -- right. exists b. auto.
Qed.

(** X22. The report of [scan_old_objects]: its entries are those of the listed
    blobs that are no folder placeholders, have a creation time and are at
    least [days_old] whole days old, each with its age; they are in the
    order of their creation times, the oldest first; the count is their
    number and the total size the sum of their sizes, a missing size
    counting for zero. *)
Theorem scan_old_objects_report now_utc list_blobs bucket_name folder_path days_old r :
  scan_old_objects now_utc list_blobs bucket_name folder_path days_old = inr r ->
  exists blobs,
    list_blobs bucket_name folder_path = inr blobs /\
    (forall o, In o (or_old_objects r) <->
               exists blob, In blob blobs /\ is_old now_utc days_old blob /\
                 oo_name o = bm_name blob /\ oo_size o = bm_size blob /\
                 bm_time_created blob = Some (oo_created_at o) /\
                 oo_age_days o = age_days now_utc (oo_created_at o)) /\
    StronglySorted (fun a b => oo_created_at a <= oo_created_at b) (or_old_objects r) /\
    or_total_count r = Z.of_nat (List.length (or_old_objects r)) /\
    or_total_size r = sum_counts (map size_of (or_old_objects r)).
Proof.
  unfold scan_old_objects.
  destruct (list_blobs bucket_name folder_path) as [e | blobs]; [discriminate |].
  destruct (fold_left _ blobs ([], 0)) as [old total] eqn:Hloop.
  intros [= <-]. cbn [or_old_objects or_total_count or_total_size].
  apply old_object_loop in Hloop as [Hsum Hin].
  exists blobs. split; [reflexivity |]. split; [| split; [| split]].
  - intros o. rewrite <- !list_elem_of_In.
    rewrite (sorted_by_created_at_Permutation old), list_elem_of_In, Hin.
    split.
    + intros [[] | (blob & Hb & Hold & ->)]. exists blob.
      cbn [oo_name oo_size oo_created_at oo_age_days].
      destruct Hold as (Hend & c & Hc & Hle) eqn:E. clear E.
      rewrite Hc. cbn [default from_option]. unfold id. split; [exact Hb |].
      split; [split; [exact Hend |]; eauto |]. auto.
    + intros (blob & Hb & Hold & Hn & Hs & Hc & Ha). right. exists blob.
      split; [exact Hb |]. split; [exact Hold |].
      destruct o as [n s c a]. cbn in *. rewrite Hc. cbn [default from_option].
      unfold id. congruence.
  - apply sorted_by_created_at_sorted.
  - now rewrite (sorted_by_created_at_Permutation old).
  - rewrite (sum_sizes_Permutation _ _ (sorted_by_created_at_Permutation old)).
    unfold sum_counts in *. cbn in Hsum. lia.
Qed.

Lemma scan_old_objects_report_witness :
  exists r,
    scan_old_objects Archive.now Archive.list_blobs "demo" "logs/" 30 = inr r /\
    map oo_name (or_old_objects r) = ["logs/a.log"; "logs/b.log"] /\
    map oo_age_days (or_old_objects r) = [38; 35] /\
    or_total_count r = 2 /\ or_total_size r = 20 /\
    exists blobs,
      Archive.list_blobs "demo" "logs/" = inr blobs /\
      (forall o, In o (or_old_objects r) <->
                 exists blob, In blob blobs /\ is_old Archive.now 30 blob /\
                   oo_name o = bm_name blob /\ oo_size o = bm_size blob /\
                   bm_time_created blob = Some (oo_created_at o) /\
                   oo_age_days o = age_days Archive.now (oo_created_at o)) /\
      StronglySorted (fun a b => oo_created_at a <= oo_created_at b) (or_old_objects r) /\
      or_total_count r = Z.of_nat (List.length (or_old_objects r)) /\
      or_total_size r = sum_counts (map size_of (or_old_objects r)).
Proof.
  eexists. split; [vm_compute; reflexivity |].
  split; [vm_compute; reflexivity |]. split; [vm_compute; reflexivity |].
  split; [reflexivity |]. split; [reflexivity |].
  apply (scan_old_objects_report Archive.now Archive.list_blobs "demo" "logs/" 30).
  vm_compute. reflexivity.
Defined.

(** ** The filter on file types *)

Lemma lower_char_idempotent c :
  PyStr.lower_char (PyStr.lower_char c) = PyStr.lower_char c.
Proof. destruct c as [[] [] [] [] [] [] [] []]; reflexivity. Qed.

Lemma lower_idempotent s : PyStr.lower (PyStr.lower s) = PyStr.lower s.
Proof.
  induction s as [| a s IH]; [reflexivity |].
  cbn [PyStr.lower]. now rewrite lower_char_idempotent, IH.
Qed.

Lemma mem_In s l : PyStr.mem s l = true <-> In s l.
Proof.
  unfold PyStr.mem. rewrite existsb_exists. split.
  - intros (x & Hx & Heq). apply String.eqb_eq in Heq. now subst.
  - intros H. exists s. split; [exact H | apply String.eqb_refl].
Qed.

(** X23. The extension of an object is put in lower case before it is looked up
    in [file_types], the entries of [file_types] are not.  An entry with an
    upper-case letter therefore selects no object: when every entry has one,
    the scan of any object returns no finding. *)
Theorem uppercase_file_types_select_nothing env bucket_name object_name patterns
    no_mask types use_gitleaks :
  types <> [] ->
  (forall t, In t types -> PyStr.lower t <> t) ->
  _scan_object_for_patterns env bucket_name object_name patterns no_mask
    (Some types) use_gitleaks = [].
Proof.
  intros Hne Hupper. unfold _scan_object_for_patterns. cbv zeta.
  destruct types as [| t types]; [congruence |].
  assert (Hall : PyStr.mem "all" (t :: types) = false).
  { destruct (PyStr.mem "all" (t :: types)) eqn:Hm; [| reflexivity].
    apply mem_In in Hm. apply Hupper in Hm. now contradiction Hm. }
  assert (Hext : PyStr.mem (PyStr.lower (PyStr.splitext_ext object_name)) (t :: types)
                 = false).
  { destruct (PyStr.mem (PyStr.lower (PyStr.splitext_ext object_name)) (t :: types))
      eqn:Hm; [| reflexivity].
    apply mem_In in Hm. apply Hupper in Hm.
    now rewrite lower_idempotent in Hm. }
  rewrite Hall, Hext. reflexivity.
Qed.

Lemma uppercase_file_types_select_nothing_witness :
  _scan_object_for_patterns Demo.env "demo" "notes.TXT" PATTERNS false None true <> [] /\
  _scan_object_for_patterns Demo.env "demo" "notes.TXT" PATTERNS false
    (Some [".txt"]) true <> [] /\
  _scan_object_for_patterns Demo.env "demo" "notes.TXT" PATTERNS false
    (Some [".TXT"]) true = [].
Proof.
  split; [vm_compute; discriminate |]. split; [vm_compute; discriminate |].
  apply (uppercase_file_types_select_nothing Demo.env "demo" "notes.TXT" PATTERNS
           false [".TXT"] true).
  - discriminate.
  - intros t [<- | []]. vm_compute. discriminate.
Defined.
